(** * AgroIA: vegetation index engine, alert aggregation and daily batch job

    A shallow embedding of three JavaScript units of the backend:

    - [NDVIAnalysisService] (services/ndviAnalysisService.js): per-pixel
      NDVI, statistics, zone histogram and threshold alerts;
    - [FarmAlertService] (services/farmAlertService.js): merging,
      de-duplication, prioritisation, persistence and WhatsApp dispatch
      of alerts;
    - [DailyAnalysisJob] (cron/dailyAnalysis.js): the nightly run with its
      re-entrancy flag, batching and run report.

    and of what they call or are used with: the colour palette of the index
    image ([NDVIImage]), the simulated analysis of the nightly run ([Mock]),
    the choice of the latest satellite image ([Sentinel2]) and the reading
    of a vision answer that holds no JSON ([Vision]), the last two from
    services/sentinel2Service.js.

    Numbers.  A JavaScript number is modelled by [number]: NaN, the two
    infinities, or a rational, so that every double is held exactly (the
    sign of zero is not kept).  Arithmetic comes twice.  Module [JS] has
    the exact operations on rationals, and with them module [NDVI] reads
    the analysis service over the rationals: it carries the properties that
    do not depend on rounding (the dimension check, the alert rules, the
    time stamp, what reaches the messages, the extremes).  Module [Double]
    rounds each result to the nearest double as binary64 does, module
    [Binary64] runs the pixel loop and the grey levels on the doubles of the
    machine, where every pair of samples is checked, and with the two module
    [NDVI64] is the service as the interpreter computes it: it carries what
    is said of indices, statistics, percentages and grey levels, and so
    does [Mock] for the simulated analysis. *)

From Stdlib Require Import ZArith QArith Qround Qabs Qpower Lia Lqa Bool List Sorted.
From Stdlib Require Import PrimFloat Uint63 Floats Strings.Byte.
From stdpp Require Import gmap strings list pretty.

Local Open Scope Q_scope.

(** ** JavaScript numbers *)

Inductive number : Type :=
| NaN
| Inf (negative : bool)
| Fin (q : Q).

Declare Scope js_scope.
Delimit Scope js_scope with js.
Bind Scope js_scope with number.

Module JS.

Definition of_Z (z : Z) : number := Fin (inject_Z z).
Definition of_nat (n : nat) : number := of_Z (Z.of_nat n).

Definition Qnegative (q : Q) : bool := Qle_bool q 0 && negb (Qeq_bool q 0).

Definition neg (x : number) : number :=
  match x with
  | NaN => NaN
  | Inf s => Inf (negb s)
  | Fin q => Fin (- q)%Q
  end.

Definition add (x y : number) : number :=
  match x, y with
  | NaN, _ | _, NaN => NaN
  | Inf s, Inf t => if Bool.eqb s t then Inf s else NaN
  | Inf s, Fin _ | Fin _, Inf s => Inf s
  | Fin a, Fin b => Fin (a + b)%Q
  end.

Definition sub (x y : number) : number := add x (neg y).

Definition mul (x y : number) : number :=
  match x, y with
  | NaN, _ | _, NaN => NaN
  | Inf s, Inf t => Inf (xorb s t)
  | Inf s, Fin q | Fin q, Inf s =>
      if Qeq_bool q 0 then NaN else Inf (xorb s (Qnegative q))
  | Fin a, Fin b => Fin (a * b)%Q
  end.

Definition div (x y : number) : number :=
  match x, y with
  | NaN, _ | _, NaN => NaN
  | Inf _, Inf _ => NaN
  | Inf s, Fin q => Inf (xorb s (Qnegative q))
  | Fin _, Inf _ => Fin 0
  | Fin a, Fin b =>
      if Qeq_bool b 0
      then (if Qeq_bool a 0 then NaN else Inf (Qnegative a))
      else Fin (a / b)%Q
  end.

(** [x < y], [x <= y] and [x === y] of the language: every comparison
    with NaN is false. *)
Definition ltb (x y : number) : bool :=
  match x, y with
  | NaN, _ | _, NaN => false
  | Inf s, Inf t => s && negb t
  | Inf s, Fin _ => s
  | Fin _, Inf t => negb t
  | Fin a, Fin b => negb (Qle_bool b a)
  end.

Definition leb (x y : number) : bool :=
  match x, y with
  | NaN, _ | _, NaN => false
  | Inf s, Inf t => s || negb t
  | Inf s, Fin _ => s
  | Fin _, Inf t => negb t
  | Fin a, Fin b => Qle_bool a b
  end.

Definition gtb (x y : number) : bool := ltb y x.
Definition geb (x y : number) : bool := leb y x.

Definition strict_eqb (x y : number) : bool :=
  match x, y with
  | Inf s, Inf t => Bool.eqb s t
  | Fin a, Fin b => Qeq_bool a b
  | _, _ => false
  end.

Definition isNaN (x : number) : bool :=
  match x with NaN => true | _ => false end.

(** [Math.min(...xs)] and [Math.max(...xs)]: the identity is the opposite
    infinity, and one NaN argument makes the result NaN. *)
Definition min2 (x y : number) : number :=
  match x, y with
  | NaN, _ | _, NaN => NaN
  | _, _ => if ltb y x then y else x
  end.

Definition max2 (x y : number) : number :=
  match x, y with
  | NaN, _ | _, NaN => NaN
  | _, _ => if ltb x y then y else x
  end.

Definition Math_min (xs : list number) : number := foldr min2 (Inf false) xs.
Definition Math_max (xs : list number) : number := foldr max2 (Inf true) xs.

(** [Math.pow(x, 2)]. *)
Definition pow2 (x : number) : number := mul x x.

(** Decimal rounding of a non-negative rational to [d] fraction digits,
    ties to the larger integer, as [Number.prototype.toFixed] picks its
    integer [n]. *)
Definition pow10 (d : nat) : Z := (10 ^ Z.of_nat d)%Z.

Definition fixed_digits (d : nat) (q : Q) : Z :=
  Qfloor (q * inject_Z (pow10 d) + (1 # 2))%Q.

Definition Qfixed (d : nat) (q : Q) : Q :=
  if Qle_bool 0 q
  then (inject_Z (fixed_digits d q) / inject_Z (pow10 d))%Q
  else (- (inject_Z (fixed_digits d (- q)) / inject_Z (pow10 d)))%Q.

(** [parseFloat(x.toFixed(d))].  From 1e21 on, [toFixed] prints the number
    itself; "NaN" and "Infinity" parse back to themselves. *)
Definition toFixed (d : nat) (x : number) : number :=
  match x with
  | Fin q =>
      if Qle_bool (inject_Z (10 ^ 21)) (Qabs q) then Fin q else Fin (Qfixed d q)
  | _ => x
  end.

(** [parseFloat(Math.sqrt(x).toFixed(d))] in one step, since the square
    root of a rational need not be one.  For a finite [q >= 0] the digits
    are the integer [n] nearest to [sqrt q * 10^d], ties upwards: the [n]
    with [(2n-1)^2 <= 4 * q * 10^(2d) < (2n+1)^2].  (Roots from 1e21 on,
    which [toFixed] prints unrounded, do not occur for a variance of values
    in [-1,1].) *)
Definition sqrt_digits (d : nat) (q : Q) : Z :=
  ((Z.sqrt (Qfloor (4 * q * inject_Z (pow10 d * pow10 d))%Q) + 1) / 2)%Z.

Definition sqrt_toFixed (d : nat) (x : number) : number :=
  match x with
  | NaN => NaN
  | Inf true => NaN
  | Inf false => Inf false
  | Fin q =>
      if Qnegative q then NaN
      else Fin (inject_Z (sqrt_digits d q) / inject_Z (pow10 d))%Q
  end.

(** [Math.round]: the nearest integer, ties towards +Infinity. *)
Definition Math_round (x : number) : number :=
  match x with
  | Fin q => Fin (inject_Z (Qfloor (q + (1 # 2))%Q))
  | _ => x
  end.

End JS.

Notation "x + y" := (JS.add x y) : js_scope.
Notation "x - y" := (JS.sub x y) : js_scope.
Notation "x * y" := (JS.mul x y) : js_scope.
Notation "x / y" := (JS.div x y) : js_scope.
Notation "x <? y" := (JS.ltb x y) : js_scope.
Notation "x <=? y" := (JS.leb x y) : js_scope.
Notation "x >? y" := (JS.gtb x y) : js_scope.
Notation "x >=? y" := (JS.geb x y) : js_scope.

(** The order of numbers as a proposition. *)
Definition num_le (x y : number) : Prop := JS.leb x y = true.
Definition num_lt (x y : number) : Prop := JS.ltb x y = true.

(** ** Binary64 arithmetic

    A double is a rational [m * 2^e] with [|m| <= 2^53] and [e >= -1074],
    or NaN or an infinity, so [number] holds every double exactly.  An
    operation of the language on doubles is the exact operation followed by
    rounding to the nearest double, ties to the even mantissa; the sign of
    zero is not kept. *)

Module Double.

Definition two_power (z : Z) : Q := 2 ^ z.

(** The unit roundoff, and half of the smallest subnormal. *)
Definition u : Q := two_power (-53).
Definition eta : Q := two_power (-1075).

(** [floor (log2 a)] of a positive rational. *)
Definition log2 (a : Q) : Z :=
  let l := (Z.log2 (Qnum a) - Z.log2 (Zpos (Qden a)))%Z in
  if Qle_bool (two_power l) a then l else (l - 1)%Z.

(** The nearest integer, ties to the even one. *)
Definition nearest_even (x : Q) : Z :=
  let f := Qfloor x in
  match Qcompare (x - inject_Z f) (1 # 2) with
  | Lt => f
  | Gt => (f + 1)%Z
  | Eq => if Z.even f then f else (f + 1)%Z
  end.

(** The exponent of the last mantissa bit of a double near [a > 0]. *)
Definition exponent (a : Q) : Z := Z.max (log2 a - 52) (-1074).

(** The double nearest to [q]; beyond the largest double it is an
    infinity. *)
Definition nearest (q : Q) : number :=
  if Qeq_bool q 0 then Fin 0
  else
    let a := Qabs q in
    let e := exponent a in
    let m := nearest_even (a * two_power (- e)) in
    let v := inject_Z m * two_power e in
    if (1024 <=? Z.log2 m + e)%Z then Inf (JS.Qnegative q)
    else Fin (Qred (if JS.Qnegative q then - v else v)).

(** Rounding looks at the value of [q], not at the fraction that
    represents it. *)
Definition round (q : Q) : number := nearest (Qred q).

(** A result of exact arithmetic, rounded. *)
Definition rounded (x : number) : number :=
  match x with
  | Fin q => round q
  | _ => x
  end.

Definition add (x y : number) : number := rounded (JS.add x y).
Definition sub (x y : number) : number := rounded (JS.sub x y).
Definition mul (x y : number) : number := rounded (JS.mul x y).
Definition div (x y : number) : number := rounded (JS.div x y).

(** [Math.sqrt]: the root rounded to the nearest double. *)
Definition sqrt (x : number) : number :=
  match x with
  | NaN => NaN
  | Inf true => NaN
  | Inf false => Inf false
  | Fin q =>
      if JS.Qnegative q then NaN
      else if Qeq_bool q 0 then Fin 0
      else
        let e := (log2 q / 2 - 52)%Z in
        let y := q * two_power (- (2 * e)) in
        let m := Z.sqrt (Qfloor y) in
        let half := inject_Z m + (1 # 2) in
        let m' := match Qcompare y (half * half) with
                  | Lt => m
                  | Gt => (m + 1)%Z
                  | Eq => if Z.even m then m else (m + 1)%Z
                  end in
        Fin (Qred (inject_Z m' * two_power e))
  end.

(** [parseFloat(x.toFixed(d))]: the decimal text is that of the exact
    value of [x]; parsing rounds it to a double. *)
Definition toFixed (d : nat) (x : number) : number := rounded (JS.toFixed d x).

(** [Math.pow(x, 2)], the square rounded. *)
Definition pow2 (x : number) : number := mul x x.

(** The digits [n] of [q.toFixed(d)] read as an integer, sign included. *)
Definition digits (d : nat) (q : Q) : Z :=
  if Qle_bool 0 q then JS.fixed_digits d q else (- JS.fixed_digits d (- q))%Z.

(** The double that the decimal text with the digits [n], the last [d] of
    them after the point, parses to. *)
Definition decimal (d : nat) (n : Z) : number :=
  round (inject_Z n / inject_Z (JS.pow10 d)).

(** A numeric literal of the source. *)
Definition literal (q : Q) : number := round q.

End Double.

(** ** Band rasters *)

(** One spectral channel as [sharp] hands it over: the metadata and the raw
    8-bit samples. *)
Record BandRaster : Type := {
  width : nat;
  height : nat;
  raw : list byte
}.

(** Reading [data[i]] of a [Buffer] and using it as a number: a byte, or
    [undefined] (which arithmetic turns into NaN) past the end. *)
Definition sample (data : list byte) (i : nat) : number :=
  match data !! i with
  | Some b => JS.of_Z (Z.of_N (Byte.to_N b))
  | None => NaN
  end.

(** ** Values shared by the services *)

Inductive Severity : Type := high_sev | medium_sev | low_sev | info_sev.

(** The string a severity is in the source. *)
Definition severity_string (s : Severity) : string :=
  match s with
  | high_sev => "high"
  | medium_sev => "medium"
  | low_sev => "low"
  | info_sev => "info"
  end.

(** An exception object: [new Error(message)]. *)
Inductive Error : Type := mkError (message : string).

Inductive result (A : Type) : Type :=
| Return (a : A)
| Throw (e : Error).
Arguments Return {A} a.
Arguments Throw {A} e.

(** Milliseconds since the epoch, what [new Date()] reads off the clock. *)
Definition Date : Type := Z.

(** ** NDVIAnalysisService *)

Module NDVI.

Record Thresholds : Type := {
  low : number;
  normal : number;
  high : number
}.

Record Statistics : Type := {
  average : number;
  min : number;
  max : number;
  std : number;
  validPixels : option nat;
  totalPixels : option nat
}.

Record Zone : Type := { count : nat; percentage : number }.

Record Zones : Type := {
  water : Zone;
  bare_soil : Zone;
  sparse_vegetation : Zone;
  moderate_vegetation : Zone;
  dense_vegetation : Zone
}.

Record NDVIAlert : Type := {
  type : string;
  severity : Severity;
  message : string;
  recommendation : string
}.

Record Dimensions : Type := { dim_width : nat; dim_height : nat }.

Record NDVIResult : Type := {
  timestamp : Date;
  dimensions : Dimensions;
  statistics : Statistics;
  zones : Zones;
  alerts : list NDVIAlert;
  ndviData : list number
}.

(** [parseFloat(process.env.X) || d]: NaN (also from an unset variable) and
    zero are falsy and give the default. *)
Definition or_default (parsed d : number) : number :=
  match parsed with
  | NaN => d
  | Fin q => if Qeq_bool q 0 then d else parsed
  | Inf _ => parsed
  end.

Record NDVIAnalysisService : Type := { thresholds : Thresholds }.

Definition new_NDVIAnalysisService (env_low env_normal env_high : number)
  : NDVIAnalysisService :=
  {| thresholds := {| low := or_default env_low (Fin (2 # 10));
                      normal := or_default env_normal (Fin (4 # 10));
                      high := or_default env_high (Fin (7 # 10)) |} |}.

Section Service.

(** How a number prints inside a template literal; the text of a message
    does not matter to what is proved below. *)
Variable Number_toString : number -> string.

Variable this : NDVIAnalysisService.

Definition _computeNDVIPixels (nirData redData : list byte) : list number :=
  imap (fun i _ =>
          let nir := (sample nirData i / Fin 255)%js in
          let red := (sample redData i / Fin 255)%js in
          let denominator := (nir + red)%js in
          if negb (JS.strict_eqb denominator (Fin 0))
          then ((nir - red) / denominator)%js
          else Fin 0)
       nirData.

Definition valid_value (val : number) : bool :=
  negb (JS.isNaN val) && (val >=? Fin (-1))%js && (val <=? Fin 1)%js.

Definition _calculateStatistics (ndviData : list number) : Statistics :=
  let validValues := filter (fun val => valid_value val = true) ndviData in
  if Nat.eqb (length validValues) 0 then
    {| average := Fin 0; min := Fin 0; max := Fin 0; std := Fin 0;
       validPixels := None; totalPixels := None |}
  else
    let sum := foldl (fun acc val => (acc + val)%js) (Fin 0) validValues in
    let average := (sum / JS.of_nat (length validValues))%js in
    let min := JS.Math_min validValues in
    let max := JS.Math_max validValues in
    let variance :=
      (foldl (fun acc val => (acc + JS.pow2 (val - average))%js) (Fin 0) validValues
       / JS.of_nat (length validValues))%js in
    {| average := JS.toFixed 4 average;
       min := JS.toFixed 4 min;
       max := JS.toFixed 4 max;
       std := JS.sqrt_toFixed 4 variance;
       validPixels := Some (length validValues);
       totalPixels := Some (length ndviData) |}.

Inductive ZoneName : Type :=
| Water | BareSoil | SparseVegetation | ModerateVegetation | DenseVegetation.

(** The [if]/[else if] chain of the [forEach] callback. *)
Definition zone_of (ndvi : number) : ZoneName :=
  if (ndvi <? Fin 0)%js then Water
  else if (ndvi <? low (thresholds this))%js then BareSoil
  else if (ndvi <? normal (thresholds this))%js then SparseVegetation
  else if (ndvi <? high (thresholds this))%js then ModerateVegetation
  else DenseVegetation.

Definition incr (z : Zone) : Zone :=
  {| count := S (count z); percentage := percentage z |}.

Definition count_pixel (zs : Zones) (ndvi : number) : Zones :=
  match zone_of ndvi with
  | Water =>
      {| water := incr (water zs); bare_soil := bare_soil zs;
         sparse_vegetation := sparse_vegetation zs;
         moderate_vegetation := moderate_vegetation zs;
         dense_vegetation := dense_vegetation zs |}
  | BareSoil =>
      {| water := water zs; bare_soil := incr (bare_soil zs);
         sparse_vegetation := sparse_vegetation zs;
         moderate_vegetation := moderate_vegetation zs;
         dense_vegetation := dense_vegetation zs |}
  | SparseVegetation =>
      {| water := water zs; bare_soil := bare_soil zs;
         sparse_vegetation := incr (sparse_vegetation zs);
         moderate_vegetation := moderate_vegetation zs;
         dense_vegetation := dense_vegetation zs |}
  | ModerateVegetation =>
      {| water := water zs; bare_soil := bare_soil zs;
         sparse_vegetation := sparse_vegetation zs;
         moderate_vegetation := incr (moderate_vegetation zs);
         dense_vegetation := dense_vegetation zs |}
  | DenseVegetation =>
      {| water := water zs; bare_soil := bare_soil zs;
         sparse_vegetation := sparse_vegetation zs;
         moderate_vegetation := moderate_vegetation zs;
         dense_vegetation := incr (dense_vegetation zs) |}
  end.

Definition empty_zone : Zone := {| count := 0; percentage := Fin 0 |}.

Definition empty_zones : Zones :=
  {| water := empty_zone; bare_soil := empty_zone;
     sparse_vegetation := empty_zone; moderate_vegetation := empty_zone;
     dense_vegetation := empty_zone |}.

Definition set_percentage (totalPixels : nat) (z : Zone) : Zone :=
  {| count := count z;
     percentage :=
       JS.toFixed 2 (JS.of_nat (count z) / JS.of_nat totalPixels * Fin 100)%js |}.

Definition _identifyVegetationZones (ndviData : list number) (width height : nat)
  : Zones :=
  let zs := foldl count_pixel empty_zones ndviData in
  let totalPixels := length ndviData in
  {| water := set_percentage totalPixels (water zs);
     bare_soil := set_percentage totalPixels (bare_soil zs);
     sparse_vegetation := set_percentage totalPixels (sparse_vegetation zs);
     moderate_vegetation := set_percentage totalPixels (moderate_vegetation zs);
     dense_vegetation := set_percentage totalPixels (dense_vegetation zs) |}.

Definition stress_alert (st : Statistics) : NDVIAlert :=
  {| type := "LOW_VEGETATION_INDEX";
     severity := high_sev;
     message :=
       "NDVI médio muito baixo (" +:+ Number_toString (average st)
       +:+ "). Possível estresse da cultura ou problema de irrigação.";
     recommendation :=
       "Verificar sistema de irrigação e estado nutricional das plantas." |}.

Definition variability_alert (st : Statistics) : NDVIAlert :=
  {| type := "HIGH_VARIABILITY";
     severity := medium_sev;
     message :=
       "Alta variabilidade no NDVI (σ=" +:+ Number_toString (std st)
       +:+ "). Possível desuniformidade na cultura.";
     recommendation :=
       "Investigar áreas com baixo NDVI para identificar problemas específicos." |}.

Definition bare_soil_alert (zs : Zones) : NDVIAlert :=
  {| type := "EXCESSIVE_BARE_SOIL";
     severity := medium_sev;
     message :=
       Number_toString (percentage (bare_soil zs)) +:+ "% da área com solo exposto.";
     recommendation :=
       "Avaliar cobertura vegetal e considerar replantio em áreas descobertas." |}.

Definition healthy_alert (st : Statistics) : NDVIAlert :=
  {| type := "HEALTHY_VEGETATION";
     severity := info_sev;
     message :=
       "Excelente índice de vegetação (NDVI=" +:+ Number_toString (average st) +:+ ").";
     recommendation := "Manter práticas atuais de manejo." |}.

(** [if (c) alerts.push(a)]. *)
Definition push_if {A : Type} (c : bool) (a : A) (l : list A) : list A :=
  if c then l ++ [a] else l.

Definition _generateAlerts (st : Statistics) (zs : Zones) : list NDVIAlert :=
  let alerts := [] in
  let alerts :=
    push_if (average st <? low (thresholds this))%js (stress_alert st) alerts in
  let alerts :=
    push_if (std st >? Fin (2 # 10))%js (variability_alert st) alerts in
  let alerts :=
    push_if (percentage (bare_soil zs) >? Fin 30)%js (bare_soil_alert zs) alerts in
  let alerts :=
    push_if (average st >? high (thresholds this))%js (healthy_alert st) alerts in
  alerts.

Definition _normalizeNDVIData (ndviData : list number) : list number :=
  map (fun value => JS.Math_round ((value + Fin 1) * Fin (1275 # 10))%js) ndviData.

Definition dimension_error : Error :=
  mkError "Dimensões das bandas NIR e Red não coincidem".

(** [calculateNDVI]: the two [sharp] images are the decoded rasters, [now]
    is the clock reading of [new Date()].  The [catch] block logs and
    rethrows, so an exception leaves the function unchanged; log lines are
    not part of the value. *)
Definition calculateNDVI (now : Date) (nirBand redBand : BandRaster)
  : result NDVIResult :=
  if negb (Nat.eqb (width nirBand) (width redBand))
     || negb (Nat.eqb (height nirBand) (height redBand))
  then Throw dimension_error
  else
    let nirData := raw nirBand in
    let redData := raw redBand in
    let ndviData := _computeNDVIPixels nirData redData in
    let statistics := _calculateStatistics ndviData in
    let zones := _identifyVegetationZones ndviData (width nirBand) (height nirBand) in
    let alerts := _generateAlerts statistics zones in
    Return {| timestamp := now;
              dimensions := {| dim_width := width nirBand;
                               dim_height := height nirBand |};
              statistics := statistics;
              zones := zones;
              alerts := alerts;
              ndviData := _normalizeNDVIData ndviData |}.

End Service.

End NDVI.

(** ** The pixel loop on binary64

    [_computeNDVIPixels] once more, on the IEEE 754 doubles the interpreter
    computes with: division, addition and subtraction round to nearest. *)

Module Binary64.

Definition of_byte (b : byte) : float :=
  PrimFloat.of_uint63 (Uint63.of_Z (Z.of_N (Byte.to_N b))).

Definition sample (data : list byte) (i : nat) : float :=
  match data !! i with
  | Some b => of_byte b
  | None => nan
  end.

Definition ndvi_pixel (nir_sample red_sample : float) : float :=
  let nir := (nir_sample / 255)%float in
  let red := (red_sample / 255)%float in
  let denominator := (nir + red)%float in
  if negb (denominator =? 0)%float
  then ((nir - red) / denominator)%float
  else 0%float.

Definition _computeNDVIPixels (nirData redData : list byte) : list float :=
  imap (fun i _ => ndvi_pixel (sample nirData i) (sample redData i)) nirData.

(** [-1 <= x && x <= 1]; false for NaN and for both infinities. *)
Definition in_unit_range (x : float) : bool :=
  ((-1) <=? x)%float && (x <=? 1)%float.

Definition all_bytes : list byte :=
  flat_map (fun n => match Byte.of_N (N.of_nat n) with
                     | Some b => [b]
                     | None => []
                     end) (seq 0 256).

(** Every pair of samples gives an index in range, and the denominator is
    zero exactly when both samples are. *)
Definition pixel_ok (n r : byte) : bool :=
  in_unit_range (ndvi_pixel (of_byte n) (of_byte r))
  && Bool.eqb ((of_byte n / 255 + of_byte r / 255 =? 0)%float)
              (Byte.eqb n x00 && Byte.eqb r x00).

(** The value of a double: its mantissa times the power of two. *)
Definition to_number (x : float) : number :=
  match Prim2SF x with
  | S754_zero _ => Fin 0
  | S754_infinity s => Inf s
  | S754_nan => NaN
  | S754_finite s m e =>
      let v := (inject_Z (Zpos m) * Double.two_power e)%Q in
      Fin (Qred (if s then - v else v))
  end.

(** [Math.round((value + 1) * 127.5)]: the sum and the product are
    rounded to doubles, [Math.round] is exact. *)
Definition grey_level (value : float) : number :=
  JS.Math_round (to_number ((value + 1) * 127.5)%float).

Definition _normalizeNDVIData (ndviData : list float) : list number :=
  map grey_level ndviData.

End Binary64.

(** ** NDVIAnalysisService on binary64

    The service as the interpreter runs it.  The pixel loop and the grey
    levels are those of [Binary64], on hardware doubles; the statistics and
    the percentages take the values of these doubles and compute with
    [Double]'s rounded operations.  Comparisons are exact on doubles, so
    the validity test, the zone chain and the alert records are those of
    [NDVI]. *)

Module NDVI64.

(** The defaults of the constructor are the doubles that the literals
    0.2, 0.4 and 0.7 denote. *)
Definition new_NDVIAnalysisService (env_low env_normal env_high : number)
  : NDVI.NDVIAnalysisService :=
  {| NDVI.thresholds :=
       {| NDVI.low := NDVI.or_default env_low (Double.literal (2 # 10));
          NDVI.normal := NDVI.or_default env_normal (Double.literal (4 # 10));
          NDVI.high := NDVI.or_default env_high (Double.literal (7 # 10)) |} |}.

(** What a call with more arguments than the interpreter's stack holds
    throws: a [RangeError] with this message. *)
Definition spread_error : Error := mkError "Maximum call stack size exceeded".

Section Service.

Variable Number_toString : number -> string.

Variable this : NDVI.NDVIAnalysisService.

(** The largest number of arguments that [Math.min(...validValues)] can
    spread on the stack; it depends on the interpreter and on its stack
    size. *)
Variable argument_limit : Z.

Definition _computeNDVIPixels (nirData redData : list byte) : list number :=
  map Binary64.to_number (Binary64._computeNDVIPixels nirData redData).

Definition _calculateStatistics (ndviData : list number) : result NDVI.Statistics :=
  let validValues := filter (fun val => NDVI.valid_value val = true) ndviData in
  if Nat.eqb (length validValues) 0 then
    Return {| NDVI.average := Fin 0; NDVI.min := Fin 0; NDVI.max := Fin 0;
              NDVI.std := Fin 0;
              NDVI.validPixels := None; NDVI.totalPixels := None |}
  else
    let sum := foldl (fun acc val => Double.add acc val) (Fin 0) validValues in
    let average := Double.div sum (JS.of_nat (length validValues)) in
    if (argument_limit <? Z.of_nat (length validValues))%Z then Throw spread_error
    else
      let min := JS.Math_min validValues in
      let max := JS.Math_max validValues in
      let variance :=
        Double.div
          (foldl (fun acc val => Double.add acc (Double.pow2 (Double.sub val average)))
                 (Fin 0) validValues)
          (JS.of_nat (length validValues)) in
      let std := Double.sqrt variance in
      Return {| NDVI.average := Double.toFixed 4 average;
                NDVI.min := Double.toFixed 4 min;
                NDVI.max := Double.toFixed 4 max;
                NDVI.std := Double.toFixed 4 std;
                NDVI.validPixels := Some (length validValues);
                NDVI.totalPixels := Some (length ndviData) |}.

Definition set_percentage (totalPixels : nat) (z : NDVI.Zone) : NDVI.Zone :=
  {| NDVI.count := NDVI.count z;
     NDVI.percentage :=
       Double.toFixed 2
         (Double.mul (Double.div (JS.of_nat (NDVI.count z)) (JS.of_nat totalPixels))
                     (Fin 100)) |}.

Definition _identifyVegetationZones (ndviData : list number) (width height : nat)
  : NDVI.Zones :=
  let zs := foldl (NDVI.count_pixel this) NDVI.empty_zones ndviData in
  let totalPixels := length ndviData in
  {| NDVI.water := set_percentage totalPixels (NDVI.water zs);
     NDVI.bare_soil := set_percentage totalPixels (NDVI.bare_soil zs);
     NDVI.sparse_vegetation := set_percentage totalPixels (NDVI.sparse_vegetation zs);
     NDVI.moderate_vegetation := set_percentage totalPixels (NDVI.moderate_vegetation zs);
     NDVI.dense_vegetation := set_percentage totalPixels (NDVI.dense_vegetation zs) |}.

Definition _generateAlerts (st : NDVI.Statistics) (zs : NDVI.Zones)
  : list NDVI.NDVIAlert :=
  let alerts := [] in
  let alerts :=
    NDVI.push_if (NDVI.average st <? NDVI.low (NDVI.thresholds this))%js
                 (NDVI.stress_alert Number_toString st) alerts in
  let alerts :=
    NDVI.push_if (NDVI.std st >? Double.literal (2 # 10))%js
                 (NDVI.variability_alert Number_toString st) alerts in
  let alerts :=
    NDVI.push_if (NDVI.percentage (NDVI.bare_soil zs) >? Fin 30)%js
                 (NDVI.bare_soil_alert Number_toString zs) alerts in
  let alerts :=
    NDVI.push_if (NDVI.average st >? NDVI.high (NDVI.thresholds this))%js
                 (NDVI.healthy_alert Number_toString st) alerts in
  alerts.

(** [calculateNDVI]: as in [NDVI], and an exception of
    [_calculateStatistics] passes through the [catch] block, which logs and
    rethrows it. *)
Definition calculateNDVI (now : Date) (nirBand redBand : BandRaster)
  : result NDVI.NDVIResult :=
  if negb (Nat.eqb (width nirBand) (width redBand))
     || negb (Nat.eqb (height nirBand) (height redBand))
  then Throw NDVI.dimension_error
  else
    let nirData := raw nirBand in
    let redData := raw redBand in
    let ndviData := _computeNDVIPixels nirData redData in
    match _calculateStatistics ndviData with
    | Throw e => Throw e
    | Return statistics =>
        let zones := _identifyVegetationZones ndviData (width nirBand) (height nirBand) in
        let alerts := _generateAlerts statistics zones in
        Return {| NDVI.timestamp := now;
                  NDVI.dimensions := {| NDVI.dim_width := width nirBand;
                                        NDVI.dim_height := height nirBand |};
                  NDVI.statistics := statistics;
                  NDVI.zones := zones;
                  NDVI.alerts := alerts;
                  NDVI.ndviData :=
                    Binary64._normalizeNDVIData
                      (Binary64._computeNDVIPixels nirData redData) |}
    end.

End Service.

End NDVI64.

(** ** FarmAlertService *)

Module Alerts.

Record FarmInfo : Type := {
  id : string;
  name : string;
  cropType : string;
  ownerPhone : option string;
  technicalContacts : list string
}.

Record Finding : Type := {
  f_type : option string;
  f_severity : string;
  f_description : string
}.

Record Recommendation : Type := {
  action : option string;
  description : option string
}.

Record RiskAssessment : Type := { overallRisk : option string }.

(** The [analysis] object of a Claude Vision answer. *)
Record ClaudeAnalysis : Type := {
  findings : option (list Finding);
  recommendations : list Recommendation;
  confidence : number;
  riskAssessment : option RiskAssessment;
  summary : option string
}.

Inductive AlertData : Type :=
| NDVIData (ndviAverage ndviStd : number) (zones : NDVI.Zones)
| FindingData (confidence : number) (riskLevel : option string) (finding : Finding)
| RiskData (risk : option RiskAssessment).

Record Alert : Type := {
  farmId : string;
  type : string;
  severity : Severity;
  title : string;
  message : string;
  recommendation : option string;
  source : string;
  data : AlertData;
  timestamp : Date
}.

(** A row of [farm_alerts] as [INSERT ... RETURNING *] gives it back: the
    columns of the INSERT.  The columns that the database fills in by
    itself (the [id], a generated UUID, and the flags with a default) are
    not part of the record. *)
Record AlertRow : Type := {
  farm_id : string;
  alert_type : string;
  row_severity : Severity;
  row_title : string;
  row_description : string;
  row_recommendation : option string;
  row_source : string;
  metadata : AlertData;
  created_at : Date
}.

(** A call [whatsappService.sendMessage(phone, message)]. *)
Record Call : Type := { to : string; body : string }.

(** A string in a condition or on the left of [||]: [undefined], [null]
    and the empty string are falsy. *)
Definition truthy (s : option string) : option string :=
  match s with
  | Some EmptyString => None
  | _ => s
  end.

Definition or_else (s : option string) (d : string) : string :=
  match truthy s with
  | Some v => v
  | None => d
  end.

(** [s.includes(t)]. *)
Definition includes (s t : string) : bool :=
  match String.index 0 t s with
  | Some _ => true
  | None => false
  end.

Section Service.

(** [String.prototype.toLowerCase], the clock, the database and the
    transport are the service's collaborators. *)
Variable toLowerCase : string -> string.
Variable now : Date.
Variable insert_throws : Alert -> bool.
Variable sendMessage_throws : Call -> bool.

Definition _generateAlertTitle (alertType cropType : string) : string :=
  if String.eqb alertType "LOW_VEGETATION_INDEX"
  then "Baixo Vigor Vegetativo - " +:+ cropType
  else if String.eqb alertType "HIGH_VARIABILITY" then "Desuniformidade na Cultura"
  else if String.eqb alertType "EXCESSIVE_BARE_SOIL" then "Solo Exposto Detectado"
  else if String.eqb alertType "VEGETATION_STRESS" then "Estresse Vegetal Identificado"
  else if String.eqb alertType "IRRIGATION_NEEDED" then "Necessidade de Irrigação"
  else if String.eqb alertType "PEST_DISEASE_RISK" then "Risco de Pragas/Doenças"
  else if String.eqb alertType "HEALTHY_VEGETATION" then "Cultura Saudável"
  else "Alerta - " +:+ alertType.

(** The lookup [mapping[claudeSeverity] || 'medium'], for a text that is
    not the name of a member that an object literal inherits from
    [Object.prototype] ('constructor', 'toString', '__proto__', ...).  For
    such a name the lookup gives that member, which is no severity word:
    an alert made of it is none of the alerts of type [Alert], whose
    severities are the four words. *)
Definition _mapClaudeSeverity (claudeSeverity : string) : Severity :=
  if String.eqb claudeSeverity "critical" then high_sev
  else if String.eqb claudeSeverity "high" then high_sev
  else if String.eqb claudeSeverity "medium" then medium_sev
  else if String.eqb claudeSeverity "low" then low_sev
  else if String.eqb claudeSeverity "info" then info_sev
  else medium_sev.

(** [x?.toLowerCase()] handed to [includes]: [undefined] is searched for as
    the text "undefined". *)
Definition lowered (s : option string) : string :=
  match s with
  | Some v => toLowerCase v
  | None => "undefined"
  end.

Definition mentions (field findingType : option string) : bool :=
  match field with
  | Some v => includes (toLowerCase v) (lowered findingType)
  | None => false
  end.

Definition _extractRecommendationForFinding
  (findingType : option string) (recommendations : list Recommendation)
  : option string :=
  match recommendations with
  | [] => None
  | first :: _ =>
      let related :=
        List.find (fun rec => mentions (action rec) findingType
                              || mentions (description rec) findingType)
                  recommendations in
      match truthy (related ≫= description) with
      | Some d => Some d
      | None => truthy (description first)
      end
  end.

Definition _processNDVIAlerts (ndviAnalysis : option NDVI.NDVIResult) (farmInfo : FarmInfo)
  : list Alert :=
  match ndviAnalysis with
  | None => []
  | Some analysis =>
      map (fun ndviAlert =>
             {| farmId := id farmInfo;
                type := NDVI.type ndviAlert;
                severity := NDVI.severity ndviAlert;
                title := _generateAlertTitle (NDVI.type ndviAlert) (cropType farmInfo);
                message := NDVI.message ndviAlert;
                recommendation := Some (NDVI.recommendation ndviAlert);
                source := "ndvi_analysis";
                data := NDVIData (NDVI.average (NDVI.statistics analysis))
                                 (NDVI.std (NDVI.statistics analysis))
                                 (NDVI.zones analysis);
                timestamp := now |})
          (NDVI.alerts analysis)
  end.

Definition finding_alert (analysis : ClaudeAnalysis) (farmInfo : FarmInfo)
  (finding : Finding) : Alert :=
  {| farmId := id farmInfo;
     type := or_else (f_type finding) "GENERAL_OBSERVATION";
     severity := _mapClaudeSeverity (f_severity finding);
     title := "Observação IA: " +:+ or_else (f_type finding) "Análise Geral";
     message := f_description finding;
     recommendation :=
       _extractRecommendationForFinding (f_type finding) (recommendations analysis);
     source := "claude_vision";
     data := FindingData (confidence analysis)
                         (riskAssessment analysis ≫= overallRisk) finding;
     timestamp := now |}.

Definition high_risk_alert (analysis : ClaudeAnalysis) (farmInfo : FarmInfo) : Alert :=
  {| farmId := id farmInfo;
     type := "HIGH_RISK_IDENTIFIED";
     severity := high_sev;
     title := "Alto Risco Identificado pela IA";
     message :=
       or_else (summary analysis)
               "A análise de IA identificou condições de alto risco na fazenda.";
     recommendation :=
       Some "Ação imediata recomendada. Consulte as recomendações específicas.";
     source := "claude_vision";
     data := RiskData (riskAssessment analysis);
     timestamp := now |}.

Definition _processClaudeAlerts (claudeAnalysis : option ClaudeAnalysis)
  (farmInfo : FarmInfo) : list Alert :=
  match claudeAnalysis with
  | None => []
  | Some analysis =>
      match findings analysis with
      | None => []
      | Some fs =>
          let alerts := map (finding_alert analysis farmInfo) fs in
          match riskAssessment analysis ≫= overallRisk with
          | Some risk =>
              if String.eqb risk "high"
              then alerts ++ [high_risk_alert analysis farmInfo]
              else alerts
          | None => alerts
          end
      end
  end.

(** The key of the [Set] in [_removeDuplicateAlerts]. *)
Definition dedup_key (alert : Alert) : string :=
  type alert +:+ "-" +:+ severity_string (severity alert).

(** [alerts.filter(...)] with the [seen] set its callback updates. *)
Fixpoint filter_unseen (seen : gset string) (alerts : list Alert) : list Alert :=
  match alerts with
  | [] => []
  | alert :: rest =>
      let key := dedup_key alert in
      if decide (key ∈ seen) then filter_unseen seen rest
      else alert :: filter_unseen ({[key]} ∪ seen) rest
  end.

Definition _removeDuplicateAlerts (alerts : list Alert) : list Alert :=
  filter_unseen ∅ alerts.

Definition priorityOrder (s : Severity) : Z :=
  match s with
  | high_sev => 3
  | medium_sev => 2
  | low_sev => 1
  | info_sev => 0
  end.

(** [Array.prototype.sort] with a comparator.  The sort is stable, which
    fixes its result for a consistent comparator; insertion from the right
    computes that result. *)
Fixpoint sort_insert {A : Type} (cmp : A -> A -> Z) (x : A) (l : list A) : list A :=
  match l with
  | [] => [x]
  | y :: l' => if (cmp x y <=? 0)%Z then x :: y :: l' else y :: sort_insert cmp x l'
  end.

Definition Array_sort {A : Type} (cmp : A -> A -> Z) (l : list A) : list A :=
  foldr (sort_insert cmp) [] l.

Definition _prioritizeAlerts (alerts : list Alert) : list Alert :=
  let uniqueAlerts := _removeDuplicateAlerts alerts in
  Array_sort (fun a b => (priorityOrder (severity b) - priorityOrder (severity a))%Z)
             uniqueAlerts.

Definition row_of (farm : string) (alert : Alert) : AlertRow :=
  {| farm_id := farm;
     alert_type := type alert;
     row_severity := severity alert;
     row_title := title alert;
     row_description := message alert;
     row_recommendation := recommendation alert;
     row_source := source alert;
     metadata := data alert;
     created_at := timestamp alert |}.

(** [_saveAlerts]: one INSERT per alert; a failing INSERT is logged and the
    loop goes on.  [table] is [farm_alerts].  Returns the saved rows and the
    table. *)
Fixpoint _saveAlerts_from (farm : string) (alerts : list Alert)
  (savedAlerts table : list AlertRow) : list AlertRow * list AlertRow :=
  match alerts with
  | [] => (savedAlerts, table)
  | alert :: rest =>
      if insert_throws alert
      then _saveAlerts_from farm rest savedAlerts table
      else
        let row := row_of farm alert in
        _saveAlerts_from farm rest (savedAlerts ++ [row]) (table ++ [row])
  end.

Definition _saveAlerts (farm : string) (alerts : list Alert) (table : list AlertRow)
  : list AlertRow * list AlertRow :=
  _saveAlerts_from farm alerts [] table.

Definition _getAlertIcon (s : Severity) : string :=
  match s with
  | high_sev => "🚨"
  | medium_sev => "⚠️"
  | low_sev => "⚡"
  | info_sev => "ℹ️"
  end.

Definition is_high (a : Alert) : bool :=
  match severity a with high_sev => true | _ => false end.

Definition alert_lines (alert : Alert) : string :=
  _getAlertIcon (severity alert) +:+ " *" +:+ title alert +:+ "*" +:+ "
" +:+ message alert +:+ "

" +:+ match truthy (recommendation alert) with
      | Some r => "💡 *Recomendação:* " +:+ r +:+ "

"
      | None => EmptyString
      end.

(** [_buildWhatsAppMessage]; [today] is
    [new Date().toLocaleDateString('pt-BR')]. *)
Definition _buildWhatsAppMessage (today : string) (farmInfo : FarmInfo)
  (alerts : list Alert) : string :=
  let severity := if existsb is_high alerts then "🚨" else "⚠️" in
  let message := severity +:+ " *Alerta - Fazenda " +:+ name farmInfo +:+ "*

" in
  let message := message +:+ "📅 " +:+ today +:+ "
" in
  let message := message +:+ "🌾 Cultura: " +:+ cropType farmInfo +:+ "

" in
  let message :=
    foldl (fun message alert => message +:+ alert_lines alert) message (take 3 alerts) in
  let message :=
    if (3 <? length alerts)%nat
    then message +:+ "📊 +" +:+ pretty (length alerts - 3)%nat
         +:+ " alertas adicionais disponíveis no dashboard.

"
    else message in
  let message := message +:+ "🤖 _Análise automática gerada por AgroIA_
" in
  message +:+ "📱 Acesse o dashboard para mais detalhes.".

(** The calls of a sequence of [await sendMessage(...)] inside one [try]:
    the first call that throws is the last one made. *)
Fixpoint perform (calls : list Call) : list Call :=
  match calls with
  | [] => []
  | c :: rest => if sendMessage_throws c then [c] else c :: perform rest
  end.

Definition positive_message (farmInfo : FarmInfo) (healthy : Alert) : string :=
  "🌱 *Fazenda " +:+ name farmInfo +:+ "*

✅ Boas notícias! Sua plantação de " +:+ cropType farmInfo +:+ " está com boa saúde.

📊 Análise de hoje:
" +:+ message healthy +:+ "

💡 " +:+ match recommendation healthy with Some r => r | None => "null" end +:+ "

_Análise automática - AgroIA_".

Definition is_healthy_crop (a : Alert) : bool := String.eqb (type a) "HEALTHY_CROP".

Definition _sendPositiveUpdate (farmInfo : FarmInfo) (alerts : list Alert) : list Call :=
  let healthyAlerts := List.filter is_healthy_crop alerts in
  match healthyAlerts, truthy (ownerPhone farmInfo) with
  | first :: _, Some phone =>
      perform [{| to := phone; body := positive_message farmInfo first |}]
  | _, _ => []
  end.

(** [_sendWhatsAppAlerts]: the calls made to the transport, in order. *)
Definition _sendWhatsAppAlerts (today : string) (farmInfo : FarmInfo)
  (alerts : list Alert) : list Call :=
  let urgentAlerts :=
    List.filter (fun alert => is_high alert && negb (is_healthy_crop alert)) alerts in
  if Nat.eqb (length urgentAlerts) 0 then _sendPositiveUpdate farmInfo alerts
  else
    let message := _buildWhatsAppMessage today farmInfo urgentAlerts in
    perform
      (match truthy (ownerPhone farmInfo) with
       | Some phone => [{| to := phone; body := message |}]
       | None => []
       end
       ++ map (fun phone => {| to := phone; body := message |})
              (technicalContacts farmInfo)).

(** What [processAnalysisAlerts] returns and does: the rows saved, the
    table after the run, and the calls to the transport. *)
Record Outcome : Type := {
  savedAlerts : list AlertRow;
  farm_alerts : list AlertRow;
  calls : list Call
}.

(** [whatsappEnabled] is [process.env.ALERT_WHATSAPP_ENABLED === 'true']. *)
Definition processAnalysisAlerts (whatsappEnabled : bool) (today : string)
  (table : list AlertRow) (farmInfo : FarmInfo)
  (ndviAnalysis : option NDVI.NDVIResult) (claudeAnalysis : option ClaudeAnalysis)
  : Outcome :=
  let ndviAlerts := _processNDVIAlerts ndviAnalysis farmInfo in
  let claudeAlerts := _processClaudeAlerts claudeAnalysis farmInfo in
  let alerts := ndviAlerts ++ claudeAlerts in
  let prioritizedAlerts := _prioritizeAlerts alerts in
  let '(saved, table') := _saveAlerts (id farmInfo) prioritizedAlerts table in
  {| savedAlerts := saved;
     farm_alerts := table';
     calls := if whatsappEnabled
              then _sendWhatsAppAlerts today farmInfo prioritizedAlerts
              else [] |}.

End Service.

End Alerts.

(** ** DailyAnalysisJob *)

Module Job.

Record Farm : Type := {
  id : string;
  name : string;
  crop_type : string;
  priority : option string;
  crop_stage : option string;
  last_risk_level : option string
}.

Record RunStatistics : Type := {
  totalFarms : nat;
  successfulAnalyses : nat;
  failedAnalyses : nat;
  alertsGenerated : nat
}.

(** The fields of the job object that a run reads and writes. *)
Record DailyAnalysisJob : Type := {
  isRunning : bool;
  lastExecution : option Date;
  statistics : RunStatistics
}.

Record Report : Type := {
  date : string;
  totals : RunStatistics;
  duration : Z;
  successRate : number
}.

(** What a run does to the outside, in order. *)
Inductive Event : Type :=
| LogInfo (msg : string)
| LogWarn (msg : string)
| LogError (msg : string)
| AnalyzeFarm (farm : Farm)
| Sleep (ms : Z)
| InsertReport (report : Report)
| InsertError (farm : string) (e : Error)
| SendMessage (phone message : string).

(** The collaborators of one run: the answers of the database, of the
    per-farm pipeline (from the image search to saving the analysis: an
    exception, no recent image, or the number of alerts saved), of the
    transport, the configuration and the clock.  [alert_calls] are the
    calls [sendMessage(phone, message)] that the alert service made for a
    farm when the pipeline called [processAnalysisAlerts], which it does
    once an image was found; they are empty when the pipeline ended
    before. *)
Record Env : Type := {
  farms_query : result (list Farm);
  recent_analysis : Farm -> bool;
  pipeline : Farm -> result (option nat);
  alert_calls : Farm -> list (string * string);
  error_insert_throws : Farm -> bool;
  report_insert_throws : bool;
  ADMIN_REPORTS_ENABLED : bool;
  ADMIN_WHATSAPP_CONTACTS : list string;
  sendMessage_throws : string -> bool;
  clock_start : Date;
  clock_end : Date;
  today : string;
  now_text : string;
  Number_toString : number -> string
}.

Record State : Type := { job : DailyAnalysisJob; trace : list Event }.

(** State passing for the methods of the job. *)
Definition M (A : Type) : Type := State -> A * State.

#[global] Instance M_ret : MRet M := fun A (a : A) s => (a, s).
#[global] Instance M_bind : MBind M :=
  fun A B (k : A -> M B) (m : M A) s => let '(a, s') := m s in k a s'.

Definition emit (e : Event) : M unit :=
  fun s => (tt, {| job := job s; trace := trace s ++ [e] |}).

Definition get_job : M DailyAnalysisJob := fun s => (job s, s).

Definition modify_job (f : DailyAnalysisJob -> DailyAnalysisJob) : M unit :=
  fun s => (tt, {| job := f (job s); trace := trace s |}).

Definition modify_statistics (f : RunStatistics -> RunStatistics) : M unit :=
  modify_job (fun j => {| isRunning := isRunning j;
                          lastExecution := lastExecution j;
                          statistics := f (statistics j) |}).

Definition set_isRunning (b : bool) : M unit :=
  modify_job (fun j => {| isRunning := b;
                          lastExecution := lastExecution j;
                          statistics := statistics j |}).

Definition set_lastExecution (d : Date) : M unit :=
  modify_job (fun j => {| isRunning := isRunning j;
                          lastExecution := Some d;
                          statistics := statistics j |}).

Fixpoint for_each {A : Type} (f : A -> M unit) (l : list A) : M unit :=
  match l with
  | [] => mret tt
  | x :: l' => f x ;; for_each f l'
  end.

Definition zero_statistics : RunStatistics :=
  {| totalFarms := 0; successfulAnalyses := 0; failedAnalyses := 0;
     alertsGenerated := 0 |}.

Definition new_DailyAnalysisJob : DailyAnalysisJob :=
  {| isRunning := false; lastExecution := None; statistics := zero_statistics |}.

Definition error_message (e : Error) : string :=
  match e with mkError m => m end.

Definition is_string (expected : string) (s : option string) : bool :=
  match s with
  | Some v => String.eqb v expected
  | None => false
  end.

Definition _shouldForceAnalysis (farm : Farm) : bool :=
  is_string "high" (priority farm)
  || is_string "critical" (crop_stage farm)
  || is_string "high" (last_risk_level farm).

Section Run.

Variable env : Env.

(** [_getActiveFarms]: its own [catch] logs the failure and answers with
    the empty list. *)
Definition _getActiveFarms : M (list Farm) :=
  match farms_query env with
  | Return rows => mret rows
  | Throw _ => emit (LogError "Erro ao buscar fazendas ativas:") ;; mret []
  end.

Definition _saveAnalysisError (farm : Farm) (e : Error) : M unit :=
  if error_insert_throws env farm
  then emit (LogError "Erro ao salvar erro de análise:")
  else emit (InsertError (id farm) e).

(** The messages of [alertService.processAnalysisAlerts] for a farm. *)
Definition send_alerts (farm : Farm) : M unit :=
  for_each (fun call => emit (SendMessage call.1 call.2)) (alert_calls env farm).

Definition _analyzeFarmDaily (farm : Farm) : M unit :=
  emit (AnalyzeFarm farm) ;;
  emit (LogInfo ("🔍 Analisando fazenda: " +:+ name farm
                 +:+ " (" +:+ crop_type farm +:+ ")")) ;;
  if recent_analysis env farm && negb (_shouldForceAnalysis farm)
  then emit (LogInfo ("⏭️  Análise recente encontrada para " +:+ name farm
                      +:+ ", pulando..."))
  else
    match pipeline env farm with
    | Return None =>
        emit (LogWarn ("📡 Nenhuma imagem recente disponível para " +:+ name farm))
    | Return (Some alerts) =>
        send_alerts farm ;;
        modify_statistics
          (fun st => {| totalFarms := totalFarms st;
                        successfulAnalyses := S (successfulAnalyses st);
                        failedAnalyses := failedAnalyses st;
                        alertsGenerated := alertsGenerated st + alerts |}) ;;
        emit (LogInfo ("✅ Análise concluída: " +:+ name farm))
    | Throw e =>
        send_alerts farm ;;
        modify_statistics
          (fun st => {| totalFarms := totalFarms st;
                        successfulAnalyses := successfulAnalyses st;
                        failedAnalyses := S (failedAnalyses st);
                        alertsGenerated := alertsGenerated st |}) ;;
        emit (LogError ("❌ Erro na análise da fazenda " +:+ name farm +:+ ":")) ;;
        _saveAnalysisError farm e
    end.

(** The calls of a loop of [await sendMessage(...)] inside a [try] whose
    [catch] logs [failure]. *)
Fixpoint send_each (failure : string) (contacts : list string) (message : string)
  : M unit :=
  match contacts with
  | [] => mret tt
  | contact :: rest =>
      emit (SendMessage contact message) ;;
      if sendMessage_throws env contact
      then emit (LogError failure)
      else send_each failure rest message
  end.

Definition _sendAdminReport (report : Report) : M unit :=
  let adminContacts := ADMIN_WHATSAPP_CONTACTS env in
  let message :=
    "📊 *Relatório Diário AgroIA*

📅 Data: " +:+ date report +:+ "
🏭 Fazendas analisadas: " +:+ pretty (successfulAnalyses (totals report))
    +:+ "/" +:+ pretty (totalFarms (totals report)) +:+ "
📈 Taxa de sucesso: " +:+ Number_toString env (successRate report) +:+ "%
🚨 Alertas gerados: " +:+ pretty (alertsGenerated (totals report)) +:+ "
⏱️ Duração: "
    +:+ Number_toString env
          (JS.Math_round (JS.of_Z (duration report) / Fin 1000 / Fin 60)%js)
    +:+ " min

✅ Sistema funcionando normalmente" in
  send_each "Erro ao enviar relatório admin:" adminContacts message.

Definition _notifyAdminsError (timestamp : string) (e : Error) : M unit :=
  let adminContacts := ADMIN_WHATSAPP_CONTACTS env in
  let message :=
    "🚨 *Erro na Análise Diária AgroIA*

⚠️ A análise automática apresentou falhas
🕐 Timestamp: " +:+ timestamp +:+ "
❌ Erro: " +:+ error_message e +:+ "

🔧 Verificar logs do sistema para mais detalhes" in
  send_each "Erro ao notificar admins:" adminContacts message.

Definition since_lastExecution (j : DailyAnalysisJob) : Z :=
  match lastExecution j with
  | Some started => (clock_end env - started)%Z
  | None => 0%Z
  end.

Definition _generateDailyReport : M unit :=
  j ← get_job ;
  let st := statistics j in
  let report :=
    {| date := today env;
       totals := st;
       duration := since_lastExecution j;
       successRate :=
         if (0 <? totalFarms st)%nat
         then JS.toFixed 2 (JS.of_nat (successfulAnalyses st)
                            / JS.of_nat (totalFarms st) * Fin 100)%js
         else Fin 0 |} in
  if report_insert_throws env
  then emit (LogError "Erro ao gerar relatório diário:")
  else
    emit (InsertReport report) ;;
    emit (LogInfo "📊 Relatório diário gerado") ;;
    if ADMIN_REPORTS_ENABLED env then _sendAdminReport report else mret tt.

Definition batchSize : nat := 5.

(** The [for] loop over the batches, from index [i]; [fuel] bounds the
    number of iterations. *)
Fixpoint process_batches (fuel i : nat) (farms : list Farm) : M unit :=
  match fuel with
  | O => mret tt
  | S fuel' =>
      if (i <? length farms)%nat then
        let batch := take batchSize (drop i farms) in
        emit (LogInfo ("📊 Processando lote " +:+ pretty (i / batchSize + 1)%nat
                       +:+ "/" +:+ pretty ((length farms + batchSize - 1) / batchSize)%nat)) ;;
        for_each _analyzeFarmDaily batch ;;
        (if (i + batchSize <? length farms)%nat then emit (Sleep 30000) else mret tt) ;;
        process_batches fuel' (i + batchSize) farms
      else mret tt
  end.

(** The [try] block of [runDailySatelliteAnalysis], in two parts: what runs
    before the first [await], and the rest. *)
Definition run_prologue : M unit :=
  set_isRunning true ;;
  set_lastExecution (clock_start env) ;;
  emit (LogInfo "🚀 Iniciando análise diária automática de satélite") ;;
  modify_statistics (fun _ => zero_statistics).

Definition run_body : M (result unit) :=
  run_prologue ;;
  farms ← _getActiveFarms ;
  modify_statistics
    (fun st => {| totalFarms := length farms;
                  successfulAnalyses := successfulAnalyses st;
                  failedAnalyses := failedAnalyses st;
                  alertsGenerated := alertsGenerated st |}) ;;
  emit (LogInfo ("📋 " +:+ pretty (length farms)
                 +:+ " fazendas encontradas para análise")) ;;
  if Nat.eqb (length farms) 0
  then emit (LogInfo "Nenhuma fazenda ativa encontrada") ;; mret (Return tt)
  else
    process_batches (length farms) 0 farms ;;
    _generateDailyReport ;;
    emit (LogInfo "✅ Análise diária concluída com sucesso") ;;
    mret (Return tt).

Definition runDailySatelliteAnalysis : M unit :=
  j ← get_job ;
  if isRunning j
  then emit (LogWarn "Análise diária já está em execução, pulando...")
  else
    outcome ← run_body ;
    match outcome with
    | Return _ => mret tt
    | Throw e =>
        emit (LogError "❌ Erro na execução da análise diária:") ;;
        _notifyAdminsError (now_text env) e
    end ;;
    set_isRunning false.

End Run.

End Job.

(** ** NDVIAnalysisService: the colour image *)

Module NDVIImage.

(** The three channel values [r], [g], [b] that the callback of
    [_applyNDVIColorPalette] assigns; they are integer literals. *)
Definition colour (value : number) : Z * Z * Z :=
  let ndvi := (value / Fin (1275 # 10) - Fin 1)%js in
  if (ndvi <? Fin (- (1 # 10)))%js then (0, 0, 255)%Z
  else if (ndvi <? Fin (1 # 10))%js then (139, 69, 19)%Z
  else if (ndvi <? Fin (3 # 10))%js then (255, 255, 0)%Z
  else if (ndvi <? Fin (6 # 10))%js then (144, 238, 144)%Z
  else (0, 100, 0)%Z.

(** [_applyNDVIColorPalette]: [forEach] with [colorizedData.push(r, g, b)]. *)
Definition _applyNDVIColorPalette (ndviData : list number) : list Z :=
  foldl (fun colorizedData value =>
           let '(r, g, b) := colour value in colorizedData ++ [r; g; b])
        [] ndviData.

End NDVIImage.

(** ** DailyAnalysisJob: the simulated analysis *)

Module Mock.

(** The zones of the simulated analysis: the count of the dense zone is a
    rounded product, so a number like the percentages. *)
Record Zone : Type := { count : number; percentage : number }.

Record Zones : Type := {
  water : Zone;
  bare_soil : Zone;
  sparse_vegetation : Zone;
  moderate_vegetation : Zone;
  dense_vegetation : Zone
}.

Record Analysis : Type := {
  timestamp : Date;
  statistics : NDVI.Statistics;
  zones : Zones;
  alerts : list NDVI.NDVIAlert
}.

(** What a lookup in the object literal [baseValues] gives: the number of
    an own key, or a member inherited from [Object.prototype] (a function,
    or the prototype itself), or [undefined]. *)
Inductive Lookup : Type :=
| Own (value : number)
| Inherited
| Undefined.

(** The names that every object literal inherits. *)
Definition inherited_names : list string :=
  ["constructor"; "__proto__"; "hasOwnProperty"; "isPrototypeOf";
   "propertyIsEnumerable"; "toLocaleString"; "toString"; "valueOf";
   "__defineGetter__"; "__defineSetter__"; "__lookupGetter__"; "__lookupSetter__"].

Section Job.

(** [String.prototype.toLowerCase] and the printing of a number inside a
    template literal. *)
Variable toLowerCase : string -> string.
Variable Number_toString : number -> string.

(** [baseValues[key]]. *)
Definition baseValues (key : string) : Lookup :=
  if String.eqb key "soja" then Own (Double.literal (7 # 10))
  else if String.eqb key "milho" then Own (Double.literal (65 # 100))
  else if String.eqb key "algodao" then Own (Double.literal (6 # 10))
  else if String.eqb key "cana" then Own (Double.literal (75 # 100))
  else if String.eqb key "cafe" then Own (Double.literal (8 # 10))
  else if String.eqb key "citrus" then Own (Double.literal (75 # 100))
  else if String.eqb key "pastagem" then Own (Double.literal (5 # 10))
  else if existsb (String.eqb key) inherited_names then Inherited
  else Undefined.

(** [baseValues[cropType?.toLowerCase()] || 0.6]: the own values and the
    inherited members are truthy; without a crop type the key is
    [undefined], which is no key of the object. *)
Definition _getBaseNDVIForCrop (cropType : option string) : Lookup :=
  match cropType with
  | None => Own (Double.literal (6 # 10))
  | Some c =>
      match baseValues (toLowerCase c) with
      | Undefined => Own (Double.literal (6 # 10))
      | found => found
      end
  end.

(** [_getSeasonalVariation]; [month] is [new Date().getMonth()]. *)
Definition _getSeasonalVariation (month : nat) : number :=
  if (3 <=? month)%nat && (month <=? 8)%nat
  then JS.neg (Double.literal (1 # 10))
  else Double.literal (1 # 10).

Definition _generateMockZones (averageNDVI : number) : Zones :=
  {| water := {| count := Fin 50; percentage := Fin 1 |};
     bare_soil :=
       {| count :=
            if (averageNDVI <? Double.literal (3 # 10))%js then Fin 800 else Fin 200;
          percentage :=
            if (averageNDVI <? Double.literal (3 # 10))%js then Fin 16 else Fin 4 |};
     sparse_vegetation := {| count := Fin 500; percentage := Fin 10 |};
     moderate_vegetation := {| count := Fin 1500; percentage := Fin 30 |};
     dense_vegetation :=
       {| count := JS.Math_round (Double.mul (Fin 2950) averageNDVI);
          percentage := JS.Math_round (Double.mul (Fin 59) averageNDVI) |} |}.

Definition _generateNDVIAlerts (averageNDVI : number) : list NDVI.NDVIAlert :=
  if (averageNDVI <? Double.literal (3 # 10))%js then
    [ {| NDVI.type := "LOW_VEGETATION_INDEX";
         NDVI.severity := high_sev;
         NDVI.message :=
           "NDVI crítico (" +:+ Number_toString averageNDVI
           +:+ "). Possível problema severo na cultura.";
         NDVI.recommendation := "Inspeção de campo urgente necessária." |} ]
  else if (averageNDVI <? Double.literal (5 # 10))%js then
    [ {| NDVI.type := "MODERATE_STRESS";
         NDVI.severity := medium_sev;
         NDVI.message :=
           "NDVI abaixo do esperado (" +:+ Number_toString averageNDVI
           +:+ "). Monitoramento recomendado.";
         NDVI.recommendation := "Verificar irrigação e nutrição das plantas." |} ]
  else if (averageNDVI >? Double.literal (7 # 10))%js then
    [ {| NDVI.type := "HEALTHY_VEGETATION";
         NDVI.severity := info_sev;
         NDVI.message :=
           "Excelente condição da cultura (NDVI: " +:+ Number_toString averageNDVI
           +:+ ").";
         NDVI.recommendation := "Manter práticas atuais de manejo." |} ]
  else [].

(** The mean before rounding, from which the zones and alerts are made:
    [Math.max(0, Math.min(1, baseNDVI + seasonalVariation +
    randomVariation))].  With an inherited member for [baseNDVI] the sum is
    a text that is no numeral, which [Math.min] turns into NaN. *)
Definition mock_average (crop_type : option string) (month : nat) (random : number)
  : number :=
  let seasonalVariation := _getSeasonalVariation month in
  let randomVariation :=
    Double.mul (Double.sub random (Fin (1 # 2))) (Double.literal (1 # 10)) in
  match _getBaseNDVIForCrop crop_type with
  | Own baseNDVI =>
      JS.Math_max
        [Fin 0;
         JS.Math_min
           [Fin 1; Double.add (Double.add baseNDVI seasonalVariation) randomVariation]]
  | _ => NaN
  end.

(** [_generateMockNDVIAnalysis]; [now] is the clock reading, [month] its
    month, [random1] and [random2] the two draws of [Math.random()]. *)
Definition _generateMockNDVIAnalysis (now : Date) (month : nat)
  (random1 random2 : number) (crop_type : option string) : Analysis :=
  let average := mock_average crop_type month random1 in
  {| timestamp := now;
     statistics :=
       {| NDVI.average := Double.toFixed 3 average;
          NDVI.min := JS.Math_max [Fin 0; Double.sub average (Double.literal (3 # 10))];
          NDVI.max := JS.Math_min [Fin 1; Double.add average (Double.literal (2 # 10))];
          NDVI.std :=
            Double.add (Double.literal (1 # 10))
                       (Double.mul random2 (Double.literal (1 # 10)));
          NDVI.validPixels := None;
          NDVI.totalPixels := None |};
     zones := _generateMockZones average;
     alerts := _generateNDVIAlerts average |}.

End Job.

End Mock.

(** ** Sentinel2Service: the latest image *)

Module Sentinel2.

(** An image of a search result; [sensingDate] is the time value of
    [new Date(image.sensingDate)], for images whose date parses. *)
Record Image : Type := {
  id : string;
  title : string;
  sensingDate : Z;
  cloudCoverage : number
}.

(** [getLatestImage]; [search] is the outcome of [searchImages] over the
    last [maxDaysBack] days.  The [catch] block logs and rethrows. *)
Definition getLatestImage (search : result (list Image)) : result (option Image) :=
  match search with
  | Throw e => Throw e
  | Return images =>
      if Nat.eqb (length images) 0 then Return None
      else
        let images :=
          Alerts.Array_sort (fun a b => (sensingDate b - sensingDate a)%Z) images in
        Return (head images)
  end.

End Sentinel2.

(** ** ClaudeVisionService: an answer without JSON *)

Module Vision.

Section Service.

(** [String.prototype.toLowerCase] and [String.prototype.substring]. *)
Variable toLowerCase : string -> string.
Variable substring : string -> nat -> nat -> string.

Definition riskKeywords : list string :=
  ["problema"; "estresse"; "doença"; "praga"; "falha"; "erosão"].

Definition healthyKeywords : list string :=
  ["saudável"; "vigorosa"; "boa"; "excelente"; "uniforme"].

Definition hasRiskIndicators (text : string) : bool :=
  existsb (fun keyword => Alerts.includes (toLowerCase text) keyword) riskKeywords.

Definition hasHealthyIndicators (text : string) : bool :=
  existsb (fun keyword => Alerts.includes (toLowerCase text) keyword) healthyKeywords.

Definition riskLevel (text : string) : string :=
  if hasRiskIndicators text && negb (hasHealthyIndicators text) then "high"
  else if hasHealthyIndicators text && negb (hasRiskIndicators text) then "low"
  else "medium".

(** [_createStructuredAnalysis], with the fields that the alert service
    reads. *)
Definition _createStructuredAnalysis (text : string) : Alerts.ClaudeAnalysis :=
  {| Alerts.summary := Some (substring text 0 200 +:+ "...");
     Alerts.findings :=
       Some [ {| Alerts.f_type := Some "general_observation";
                 Alerts.f_description := substring text 0 150;
                 Alerts.f_severity := riskLevel text |} ];
     Alerts.recommendations :=
       [ {| Alerts.action := Some "Revisar análise completa";
            Alerts.description :=
              Some "Consultar texto completo da análise para detalhes específicos" |} ];
     Alerts.riskAssessment := Some {| Alerts.overallRisk := Some (riskLevel text) |};
     Alerts.confidence := Fin 75 |}.

End Service.

End Vision.

(** * Specification-side definitions and sample inputs *)

(** A sample as a rational. *)
Definition byteQ (b : byte) : Q := inject_Z (Z.of_N (Byte.to_N b)).

(** A sample normalised to [0,1]. *)
Definition normalised (b : byte) : Q := byteQ b / 255.

(** The index of one pixel as the specification words it: the normalised
    difference of the two normalised samples, and 0 for a zero
    denominator. *)
Definition exact_index (n r : byte) : Q :=
  if Qeq_bool (normalised n + normalised r) 0 then 0
  else (normalised n - normalised r) / (normalised n + normalised r).

(** The rational a finite number holds. *)
Definition to_Q (x : number) : Q :=
  match x with
  | Fin q => q
  | _ => 0
  end.

#[local] Instance ZoneName_eq_dec : EqDecision NDVI.ZoneName.
Proof. solve_decision. Defined.





(** Among [alerts], the alerts of type [ty]: exactly one, of severity
    [sev], when [fired]; none otherwise. *)
Definition rule_outcome (fired : bool) (ty : string) (sev : Severity)
  (alerts : list NDVI.NDVIAlert) : Prop :=
  let of_type := List.filter (fun a => String.eqb (NDVI.type a) ty) alerts in
  if fired
  then exists a, of_type = [a] /\ NDVI.severity a = sev
  else of_type = [].

(** Two rasters of two pixels, one of one pixel, and a service with the
    default thresholds. *)
Definition raster_2x1 : BandRaster :=
  {| width := 2; height := 1; raw := ["!"%byte; x00] |}.

Definition raster_2x1' : BandRaster :=
  {| width := 2; height := 1; raw := [x1f; x00] |}.

Definition raster_1x1 : BandRaster :=
  {| width := 1; height := 1; raw := [x1f] |}.

Definition default_service : NDVI.NDVIAnalysisService :=
  NDVI.new_NDVIAnalysisService NaN NaN NaN.

(** A printer of numbers that prints nothing. *)
Definition no_text (x : number) : string := EmptyString.



Local Close Scope Q_scope.

#[local] Instance Severity_eq_dec : EqDecision Severity.
Proof. solve_decision. Defined.

(** The key of the data model. *)
Definition alert_key (a : Alerts.Alert) : string * string * Severity :=
  (Alerts.farmId a, Alerts.type a, Alerts.severity a).

(** [b] is the first element of [l] with its key. *)
Definition first_with_key {K : Type} (key : Alerts.Alert -> K)
  (l : list Alerts.Alert) (b : Alerts.Alert) : Prop :=
  exists i, l !! i = Some b
            /\ forall j a, (j < i)%nat -> l !! j = Some a -> key a <> key b.

(** The comparator [(a, b) => rank(b) - rank(a)]. *)
Definition by_rank_descending {A : Type} (rank : A -> Z) (a b : A) : Z :=
  (rank b - rank a)%Z.

(** The order of a list sorted with it. *)
Definition descending {A : Type} (rank : A -> Z) (a b : A) : Prop :=
  (rank b <= rank a)%Z.

(** The key of a saved row. *)
Definition row_key (r : Alerts.AlertRow) : string * string * Severity :=
  (Alerts.farm_id r, Alerts.alert_type r, Alerts.row_severity r).

(** The severity rank of an alert. *)
Definition alert_rank (a : Alerts.Alert) : Z := Alerts.priorityOrder (Alerts.severity a).




(** A farm with an owner's phone and one with no phone on record, a high
    and a medium alert, and a transport that never fails. *)
Definition farm0 : Alerts.FarmInfo :=
  {| Alerts.id := "farm-1"; Alerts.name := "Boa Vista"; Alerts.cropType := "soja";
     Alerts.ownerPhone := Some "5511999990000"; Alerts.technicalContacts := [] |}.


Definition stress0 : Alerts.Alert :=
  {| Alerts.farmId := "farm-1"; Alerts.type := "LOW_VEGETATION_INDEX";
     Alerts.severity := high_sev; Alerts.title := "Baixo Vigor Vegetativo - soja";
     Alerts.message := "NDVI baixo"; Alerts.recommendation := Some "Verificar";
     Alerts.source := "ndvi_analysis"; Alerts.data := Alerts.RiskData None;
     Alerts.timestamp := 0%Z |}.

Definition variability0 : Alerts.Alert :=
  {| Alerts.farmId := "farm-1"; Alerts.type := "HIGH_VARIABILITY";
     Alerts.severity := medium_sev; Alerts.title := "Desuniformidade na Cultura";
     Alerts.message := "Alta variabilidade"; Alerts.recommendation := Some "Investigar";
     Alerts.source := "ndvi_analysis"; Alerts.data := Alerts.RiskData None;
     Alerts.timestamp := 0%Z |}.


Definition never_throws (c : Alerts.Call) : bool := false.

(** An action that leaves the [isRunning] flag as it found it. *)
Definition keeps_flag {A : Type} (m : Job.M A) : Prop :=
  forall s, Job.isRunning (Job.job (m s).2) = Job.isRunning (Job.job s).

(** The line logged by a start request that finds a run in progress. *)
Definition warning : Job.Event :=
  Job.LogWarn "Análise diária já está em execução, pulando...".

(** What a run leaves in the log when the list of farms is empty. *)
Definition empty_run_log : list Job.Event :=
  [Job.LogInfo "🚀 Iniciando análise diária automática de satélite";
   Job.LogInfo "📋 0 fazendas encontradas para análise";
   Job.LogInfo "Nenhuma fazenda ativa encontrada"].

(** The line logged when the farm listing fails. *)
Definition listing_error_log : Job.Event :=
  Job.LogError "Erro ao buscar fazendas ativas:".

(** The job after a run over no farms. *)
Definition idle_after_empty_run (env : Job.Env) : Job.DailyAnalysisJob :=
  {| Job.isRunning := false;
     Job.lastExecution := Some (Job.clock_start env);
     Job.statistics := Job.zero_statistics |}.

(** An environment with one administrator contact configured, for a given
    answer of the farm listing. *)
Definition environment (listing : result (list Job.Farm)) : Job.Env :=
  {| Job.farms_query := listing;
     Job.recent_analysis := fun _ => false;
     Job.pipeline := fun _ => Return None;
     Job.alert_calls := fun _ => [];
     Job.error_insert_throws := fun _ => false;
     Job.report_insert_throws := false;
     Job.ADMIN_REPORTS_ENABLED := true;
     Job.ADMIN_WHATSAPP_CONTACTS := ["5511999990000"];
     Job.sendMessage_throws := fun _ => false;
     Job.clock_start := 1000%Z;
     Job.clock_end := 2000%Z;
     Job.today := "2026-11-02";
     Job.now_text := "02/11/2026, 06:00:00";
     Job.Number_toString := fun _ => EmptyString |}.

Definition failing_listing : Job.Env :=
  environment (Throw (mkError "connection refused")).

Definition empty_listing : Job.Env := environment (Return []).

(** A fresh job, and a job in the middle of a run. *)
Definition idle : Job.State :=
  {| Job.job := Job.new_DailyAnalysisJob; Job.trace := [] |}.

Definition running : Job.State :=
  {| Job.job := {| Job.isRunning := true;
                   Job.lastExecution := Some 1000%Z;
                   Job.statistics :=
                     {| Job.totalFarms := 12; Job.successfulAnalyses := 3;
                        Job.failedAnalyses := 1; Job.alertsGenerated := 4 |} |};
     Job.trace := [] |}.

(** Numbered farms, and the events that count pauses and analyses. *)
Definition farm_number (n : nat) : Job.Farm :=
  {| Job.id := pretty n; Job.name := "Fazenda " +:+ pretty n; Job.crop_type := "soja";
     Job.priority := None; Job.crop_stage := None; Job.last_risk_level := None |}.

Definition is_sleep (e : Job.Event) : bool :=
  match e with Job.Sleep _ => true | _ => false end.

Definition is_launch (e : Job.Event) : bool :=
  match e with Job.AnalyzeFarm _ => true | _ => false end.

(** ** The daily job: what a run adds to the trace and to the job object *)

(** The farms a run works on: the rows of the listing, or none when the
    listing fails. *)
Definition farms_of (env : Job.Env) : list Job.Farm :=
  match Job.farms_query env with
  | Return rows => rows
  | Throw _ => []
  end.

(** The events of a trace seen through [view], and an action that adds
    [xs] to them whatever the state.  The calls of one batch are started in
    the order of the batch and settle together before the loop goes on, so
    the order of the launches among themselves, the place of the pauses and
    of the report, and the counters do not depend on how the calls of a
    batch interleave. *)
Definition seen {X : Type} (view : Job.Event -> option X) (s : Job.State) : list X :=
  omap view (Job.trace s).

Definition adds {X A : Type} (view : Job.Event -> option X) (m : Job.M A)
  (xs : list X) : Prop :=
  forall s, seen view (m s).2 = seen view s ++ xs.

Definition launch_view (e : Job.Event) : option Job.Farm :=
  match e with Job.AnalyzeFarm farm => Some farm | _ => None end.

Definition sleep_view (e : Job.Event) : option Z :=
  match e with Job.Sleep ms => Some ms | _ => None end.


Definition message_view (e : Job.Event) : option string :=
  match e with Job.SendMessage phone _ => Some phone | _ => None end.

(** The number of pauses of a run over [n] farms. *)
Definition pauses (n : nat) : nat := ((n + Job.batchSize - 1) / Job.batchSize - 1)%nat.

(** An action that changes the job object by [f] whatever the state. *)
Definition updates {A : Type} (m : Job.M A)
  (f : Job.DailyAnalysisJob -> Job.DailyAnalysisJob) : Prop :=
  forall s, Job.job (m s).2 = f (Job.job s).

(** How the analysis of one farm ends, as far as the counters go. *)
Inductive FarmOutcome : Type :=
| Skipped
| Analysed (alerts : nat)
| Failed.

Definition farm_outcome (env : Job.Env) (farm : Job.Farm) : FarmOutcome :=
  if Job.recent_analysis env farm && negb (Job._shouldForceAnalysis farm)
  then Skipped
  else match Job.pipeline env farm with
       | Return None => Skipped
       | Return (Some alerts) => Analysed alerts
       | Throw _ => Failed
       end.

Definition is_analysed (o : FarmOutcome) : bool :=
  match o with Analysed _ => true | _ => false end.

Definition is_failed (o : FarmOutcome) : bool :=
  match o with Failed => true | _ => false end.

Definition alerts_of (o : FarmOutcome) : nat :=
  match o with Analysed alerts => alerts | _ => 0%nat end.

(** The counters of a run over [farms], counted from the outcomes. *)
Definition tally (env : Job.Env) (farms : list Job.Farm) : Job.RunStatistics :=
  let outcomes := map (farm_outcome env) farms in
  {| Job.totalFarms := length farms;
     Job.successfulAnalyses := length (List.filter is_analysed outcomes);
     Job.failedAnalyses := length (List.filter is_failed outcomes);
     Job.alertsGenerated := list_sum (map alerts_of outcomes) |}.

Definition count_outcome (o : FarmOutcome) (j : Job.DailyAnalysisJob)
  : Job.DailyAnalysisJob :=
  let st := Job.statistics j in
  {| Job.isRunning := Job.isRunning j;
     Job.lastExecution := Job.lastExecution j;
     Job.statistics :=
       {| Job.totalFarms := Job.totalFarms st;
          Job.successfulAnalyses :=
            ((if is_analysed o then 1 else 0) + Job.successfulAnalyses st)%nat;
          Job.failedAnalyses := ((if is_failed o then 1 else 0) + Job.failedAnalyses st)%nat;
          Job.alertsGenerated := (Job.alertsGenerated st + alerts_of o)%nat |} |}.

Definition count_outcomes (env : Job.Env) (farms : list Job.Farm)
  (j : Job.DailyAnalysisJob) : Job.DailyAnalysisJob :=
  foldl (fun j farm => count_outcome (farm_outcome env farm) j) j farms.

Definition started (env : Job.Env) : Job.DailyAnalysisJob :=
  {| Job.isRunning := true;
     Job.lastExecution := Some (Job.clock_start env);
     Job.statistics :=
       {| Job.totalFarms := length (farms_of env);
          Job.successfulAnalyses := 0;
          Job.failedAnalyses := 0;
          Job.alertsGenerated := 0 |} |}.


(** The contacts a loop of sends reaches: up to the first send that fails,
    that one included. *)
Fixpoint attempted (env : Job.Env) (contacts : list string) : list string :=
  match contacts with
  | [] => []
  | contact :: rest =>
      contact :: (if Job.sendMessage_throws env contact then [] else attempted env rest)
  end.

(** The messages that the alert service sends for a farm during a run:
    those of its alert processing, when the analysis was not skipped and
    an image was found. *)
Definition farm_messages (env : Job.Env) (farm : Job.Farm) : list string :=
  if Job.recent_analysis env farm && negb (Job._shouldForceAnalysis farm) then []
  else match Job.pipeline env farm with
       | Return None => []
       | _ => map fst (Job.alert_calls env farm)
       end.


(** A day with seven farms: the second has a recent analysis, the third
    fails, the fourth has no image, the others give two alerts each; the
    second administrator cannot be reached. *)
Definition seven_farms : list Job.Farm := map farm_number (seq 1 7).

Definition busy_day : Job.Env :=
  {| Job.farms_query := Return seven_farms;
     Job.recent_analysis := fun farm => String.eqb (Job.id farm) "2";
     Job.pipeline := fun farm =>
       if String.eqb (Job.id farm) "3" then Throw (mkError "timeout")
       else if String.eqb (Job.id farm) "4" then Return None
       else Return (Some 2%nat);
     Job.alert_calls := fun farm =>
       if String.eqb (Job.id farm) "5"
       then [("5511988880005", "alerta"); ("5511977770005", "alerta")]
       else [];
     Job.error_insert_throws := fun _ => false;
     Job.report_insert_throws := false;
     Job.ADMIN_REPORTS_ENABLED := true;
     Job.ADMIN_WHATSAPP_CONTACTS := ["5511999990000"; "5511999990001"; "5511999990002"];
     Job.sendMessage_throws := fun phone => String.eqb phone "5511999990001";
     Job.clock_start := 1000%Z;
     Job.clock_end := 2000%Z;
     Job.today := "2026-11-02";
     Job.now_text := "02/11/2026, 06:00:00";
     Job.Number_toString := fun _ => EmptyString |}.

Definition error_view (e : Job.Event) : option (string * Error) :=
  match e with Job.InsertError farm err => Some (farm, err) | _ => None end.

(** The error row a farm leaves: one when its analysis throws and the
    INSERT of the error succeeds. *)
Definition recorded_failure (env : Job.Env) (farm : Job.Farm) : list (string * Error) :=
  if Job.recent_analysis env farm && negb (Job._shouldForceAnalysis farm) then []
  else match Job.pipeline env farm with
       | Throw e => if Job.error_insert_throws env farm then [] else [(Job.id farm, e)]
       | Return _ => []
       end.

(** ** Alerts: what is saved, advised and sent *)

(** The alerts whose INSERT succeeds. *)
Definition accepted (insert_throws : Alerts.Alert -> bool) (alerts : list Alerts.Alert)
  : list Alerts.Alert :=
  List.filter (fun a => negb (insert_throws a)) alerts.

(** An alert that leads to no message: not of high severity and not of the
    type the positive update looks for. *)
Definition quiet (a : Alerts.Alert) : Prop :=
  Alerts.is_high a = false /\ Alerts.is_healthy_crop a = false.

Definition general_advice : string :=
  "Consultar texto completo da análise para detalhes específicos".

(** A recommendation list whose first entry has no text. *)
Definition sample_recommendations : list Alerts.Recommendation :=
  [ {| Alerts.action := Some "Irrigar"; Alerts.description := None |};
    {| Alerts.action := Some "Adubar";
       Alerts.description := Some "Aplicar nitrogênio em cobertura" |} ].

(** Two bands of a dense canopy: full reflectance in the near infrared,
    none in the red. *)
Definition lush_nir : BandRaster := {| width := 2; height := 1; raw := [xff; xff] |}.

Definition lush_red : BandRaster := {| width := 2; height := 1; raw := [x00; x00] |}.

(** Three images, the two newest taken at the same time. *)
Definition image_at (name : string) (taken : Z) : Sentinel2.Image :=
  {| Sentinel2.id := name; Sentinel2.title := name;
     Sentinel2.sensingDate := taken; Sentinel2.cloudCoverage := Fin 0%Q |}.

Definition sample_images : list Sentinel2.Image :=
  [image_at "a" 100; image_at "b" 300; image_at "c" 300].

Local Open Scope Q_scope.

(** ** The grey levels and colours of the image *)


(** The index that the palette reads back from a grey level. *)
Definition index_of_level (v : Z) : Q := inject_Z v / (1275 # 10) - 1.

Definition blue : Z * Z * Z := (0, 0, 255)%Z.
Definition brown : Z * Z * Z := (139, 69, 19)%Z.
Definition yellow : Z * Z * Z := (255, 255, 0)%Z.
Definition light_green : Z * Z * Z := (144, 238, 144)%Z.
Definition dark_green : Z * Z * Z := (0, 100, 0)%Z.

Definition palette : list (Z * Z * Z) := [blue; brown; yellow; light_green; dark_green].

Definition channels (c : Z * Z * Z) : list Z := let '(r, g, b) := c in [r; g; b].

(** ** Binary64: error bounds, statistics, percentages and samples *)

(** [v] is a rounding of [q] as far as the bounds below need it: within
    the relative error [u] and the absolute error [eta] of [q], and of its
    sign. *)
Definition near (q v : Q) : Prop :=
  - (Double.u * Qabs q + Double.eta) <= v - q <= Double.u * Qabs q + Double.eta
  /\ (0 <= q -> 0 <= v) /\ (q <= 0 -> v <= 0).

(** A bound on the error of one rounding of a result of size at most 2. *)
Definition ulp2 : Q := 1 # 1000000000000000.

(** The bound on the error of a running sum, per value added. *)
Definition drift : Q := 1 # 1048576.

(** A number that is zero or above, [+Infinity] included. *)
Definition nonneg (x : number) : Prop := num_le (Fin 0) x.

(** The statistics of data without a valid value. *)
Definition no_valid_statistics : NDVI.Statistics :=
  {| NDVI.average := Fin 0; NDVI.min := Fin 0; NDVI.max := Fin 0; NDVI.std := Fin 0;
     NDVI.validPixels := None; NDVI.totalPixels := None |}.


(** What is checked of the pixel of every pair of samples: what
    [Binary64.pixel_ok] checks; the index is a finite value in [-1,1],
    within [2^-51] of the exact quotient; its grey level is an integer of
    0..255 from which the palette reads back an index within 1/255 of the
    exact one. *)
Definition pixel_checked (n r : byte) : bool :=
  let p := Binary64.ndvi_pixel (Binary64.of_byte n) (Binary64.of_byte r) in
  Binary64.pixel_ok n r
  &&
  match Binary64.to_number p, Binary64.grey_level p with
  | Fin q, Fin g =>
      Qle_bool (-1) q && Qle_bool q 1
      && Qle_bool (Qabs (q - exact_index n r)) (Double.two_power (-51))
      && Qeq_bool g (inject_Z (Qfloor g))
      && (0 <=? Qfloor g)%Z && (Qfloor g <=? 255)%Z
      && Qle_bool (Qabs (index_of_level (Qfloor g) - exact_index n r)) (1 # 255)
  | _, _ => false
  end.

(** The pixel loop with [Double]'s operations, to compare it with the
    hardware. *)
Definition double_pixel (n r : byte) : number :=
  let nir := Double.div (JS.of_Z (Z.of_N (Byte.to_N n))) (Fin 255) in
  let red := Double.div (JS.of_Z (Z.of_N (Byte.to_N r))) (Fin 255) in
  let denominator := Double.add nir red in
  if negb (JS.strict_eqb denominator (Fin 0))
  then Double.div (Double.sub nir red) denominator
  else Fin 0.

Definition number_eqb (x y : number) : bool :=
  match x, y with
  | NaN, NaN => true
  | Inf s, Inf t => Bool.eqb s t
  | Fin a, Fin b => Qeq_bool a b
  | _, _ => false
  end.

(** The service with the default thresholds, and an interpreter that takes
    125000 arguments in a call. *)
Definition binary64_service : NDVI.NDVIAnalysisService :=
  NDVI64.new_NDVIAnalysisService NaN NaN NaN.

Definition sample_argument_limit : Z := 125000.

(** One pixel, decoded with two channels (grey and alpha) for the
    near-infrared band and with one for the red band. *)
Definition grey_alpha_nir : BandRaster :=
  {| width := 1; height := 1; raw := [x80; xff] |}.

Definition grey_red : BandRaster := {| width := 1; height := 1; raw := [x40] |}.

(** Six pixels of the same samples, 67 and 253. *)
Definition six_nir : BandRaster :=
  {| width := 3; height := 2; raw := [x43; x43; x43; x43; x43; x43] |}.

Definition six_red : BandRaster :=
  {| width := 3; height := 2; raw := [xfd; xfd; xfd; xfd; xfd; xfd] |}.

Definition six_pixels : list number :=
  NDVI64._computeNDVIPixels (raw six_nir) (raw six_red).

Local Close Scope Q_scope.

Local Open Scope Q_scope.

(** * Properties *)

(** ** Binary64: the pixel loop checked on every pair of samples *)

Lemma all_bytes_complete (b : byte) : In b Binary64.all_bytes.
Proof.
  assert (H : existsb (Byte.eqb b) Binary64.all_bytes = true)
    by (destruct b; vm_compute; reflexivity).
  apply existsb_exists in H as (c & Hin & Heq).
  apply Byte.byte_dec_bl in Heq. now subst.
Qed.

(** ** Rationals: order and rounding *)

Lemma Qle_bool_false (a b : Q) : Qle_bool a b = false <-> b < a.
Proof.
  split; intros H.
  - apply Qnot_le_lt. intros Hle. apply Qle_bool_iff in Hle. congruence.
  - destruct (Qle_bool a b) eqn:E; [|reflexivity].
    apply Qle_bool_iff in E. apply Qlt_not_le in H. contradiction.
Qed.

Lemma Qeq_bool_false (a b : Q) : Qeq_bool a b = false <-> ~ a == b.
Proof.
  split; intros H.
  - intros Heq. apply Qeq_bool_iff in Heq. congruence.
  - destruct (Qeq_bool a b) eqn:E; [|reflexivity].
    apply Qeq_bool_iff in E. contradiction.
Qed.

(** Turns the boolean comparisons of [Q] in the context and the goal into
    propositions. *)
Ltac Qbool :=
  repeat match goal with
         | H : Qle_bool _ _ = true |- _ => apply Qle_bool_iff in H
         | H : Qle_bool _ _ = false |- _ => apply Qle_bool_false in H
         | H : Qeq_bool _ _ = true |- _ => apply Qeq_bool_iff in H
         | H : Qeq_bool _ _ = false |- _ => apply Qeq_bool_false in H
         | H : negb _ = true |- _ => apply negb_true_iff in H
         | H : negb _ = false |- _ => apply negb_false_iff in H
         | H : _ && _ = true |- _ => apply andb_true_iff in H; destruct H
         | |- Qle_bool _ _ = true => apply Qle_bool_iff
         | |- Qle_bool _ _ = false => apply Qle_bool_false
         | |- Qeq_bool _ _ = true => apply Qeq_bool_iff
         | |- Qeq_bool _ _ = false => apply Qeq_bool_false
         | |- negb _ = true => apply negb_true_iff
         | |- negb _ = false => apply negb_false_iff
         end.

Lemma byteQ_bounds (b : byte) : 0 <= byteQ b <= 255.
Proof.
  unfold byteQ. pose proof (Byte.to_N_bounded b) as H.
  split.
  - change 0 with (inject_Z 0). rewrite <- Zle_Qle. lia.
  - change 255 with (inject_Z 255). rewrite <- Zle_Qle. lia.
Qed.

Lemma normalised_bounds (b : byte) : 0 <= normalised b <= 1.
Proof.
  unfold normalised. pose proof (byteQ_bounds b) as [H0 H1]. split.
  - apply Qle_shift_div_l; lra.
  - apply Qle_shift_div_r; lra.
Qed.

Lemma ratio_bounds (a b : Q) :
  0 <= a -> 0 <= b -> ~ a + b == 0 -> -1 <= (a - b) / (a + b) <= 1.
Proof.
  intros Ha Hb Hne.
  assert (Hpos : 0 < a + b).
  { destruct (Qlt_le_dec 0 (a + b)) as [H | H]; [exact H |].
    exfalso. apply Hne. lra. }
  split.
  - apply Qle_shift_div_l; lra.
  - apply Qle_shift_div_r; lra.
Qed.

Lemma exact_index_bounds (n r : byte) : -1 <= exact_index n r <= 1.
Proof.
  unfold exact_index.
  destruct (Qeq_bool _ _) eqn:E; [lra |].
  Qbool.
  apply ratio_bounds; try apply normalised_bounds. exact E.
Qed.

(** ** Numbers: finite values *)

Lemma valid_value_Fin (x : number) :
  NDVI.valid_value x = true <-> exists q, x = Fin q /\ -1 <= q <= 1.
Proof.
  unfold NDVI.valid_value. split.
  - destruct x as [| s | q]; simpl; try discriminate.
    + destruct s; discriminate.
    + intros H. Qbool. exists q. auto.
  - intros (q & -> & H1 & H2). simpl.
    apply andb_true_iff. split; Qbool; assumption.
Qed.

Lemma valid_values_Fin (l : list number) :
  let vs := filter (fun val => NDVI.valid_value val = true) l in
  vs = map Fin (map to_Q vs) /\ Forall (fun q => -1 <= q <= 1) (map to_Q vs).
Proof.
  induction l as [| x l [IH1 IH2]]; simpl.
  - split; constructor.
  - rewrite filter_cons. destruct (decide (NDVI.valid_value x = true)) as [Hx | Hx].
    + apply valid_value_Fin in Hx as (q & -> & Hq). simpl. split.
      * f_equal. exact IH1.
      * constructor; assumption.
    + split; assumption.
Qed.

Lemma inject_nat_pos (n : nat) : (0 < n)%nat -> 0 < inject_Z (Z.of_nat n).
Proof.
  intros H. change 0 with (inject_Z 0). rewrite <- Zlt_Qlt. lia.
Qed.

Lemma div_of_nat (a : Q) (n : nat) :
  (0 < n)%nat -> (Fin a / JS.of_nat n)%js = Fin (a / inject_Z (Z.of_nat n)).
Proof.
  intros H. unfold JS.of_nat, JS.of_Z. simpl.
  destruct (Qeq_bool (inject_Z (Z.of_nat n)) 0) eqn:E; [| reflexivity].
  Qbool. pose proof (inject_nat_pos n H). lra.
Qed.

(** ** Sums, minimum and maximum of finite values *)

Lemma foldl_Qplus_bounds (lo hi a : Q) (qs : list Q) :
  Forall (fun q => lo <= q <= hi) qs ->
  a + inject_Z (Z.of_nat (length qs)) * lo <= foldl Qplus a qs
  /\ foldl Qplus a qs <= a + inject_Z (Z.of_nat (length qs)) * hi.
Proof.
  intros H. revert a. induction H as [| q qs [Hlo Hhi] _ IH]; intros a.
  - cbn [foldl length]. change (inject_Z (Z.of_nat 0)) with 0. split; lra.
  - cbn [foldl length]. destruct (IH (a + q)) as [IH1 IH2].
    rewrite Nat2Z.inj_succ. unfold Z.succ. rewrite inject_Z_plus.
    change (inject_Z 1) with 1.
    set (n := inject_Z (Z.of_nat (length qs))) in *.
    split.
    + eapply Qle_trans; [| exact IH1]. lra.
    + eapply Qle_trans; [exact IH2 |]. lra.
Qed.

Lemma Math_min_Fin (q : Q) (qs : list Q) :
  exists m, JS.Math_min (map Fin (q :: qs)) = Fin m
            /\ In m (q :: qs) /\ Forall (fun x => m <= x) (q :: qs).
Proof.
  revert q. induction qs as [| q' qs IH]; intros q.
  - exists q. simpl. repeat split; auto. constructor; [lra | constructor].
  - destruct (IH q') as (m & Hm & Hin & Hall).
    change (JS.Math_min (map Fin (q :: q' :: qs)))
      with (JS.min2 (Fin q) (JS.Math_min (map Fin (q' :: qs)))).
    rewrite Hm. simpl.
    destruct (Qle_bool q m) eqn:E; simpl; Qbool.
    + exists q. repeat split; auto. constructor; [lra |].
      eapply Forall_impl; [exact Hall |]. simpl. intros x Hx. lra.
    + exists m. repeat split; [right; exact Hin |].
      constructor; [lra | exact Hall].
Qed.

Lemma Math_max_Fin (q : Q) (qs : list Q) :
  exists m, JS.Math_max (map Fin (q :: qs)) = Fin m
            /\ In m (q :: qs) /\ Forall (fun x => x <= m) (q :: qs).
Proof.
  revert q. induction qs as [| q' qs IH]; intros q.
  - exists q. simpl. repeat split; auto. constructor; [lra | constructor].
  - destruct (IH q') as (m & Hm & Hin & Hall).
    change (JS.Math_max (map Fin (q :: q' :: qs)))
      with (JS.max2 (Fin q) (JS.Math_max (map Fin (q' :: qs)))).
    rewrite Hm. simpl.
    destruct (Qle_bool m q) eqn:E; simpl; Qbool.
    + exists q. repeat split; auto. constructor; [lra |].
      eapply Forall_impl; [exact Hall |]. simpl. intros x Hx. lra.
    + exists m. repeat split; [right; exact Hin |].
      constructor; [lra | exact Hall].
Qed.

(** The mean of a non-empty list lies between a lower and an upper bound of
    its elements. *)
Lemma mean_bounds (lo hi : Q) (qs : list Q) :
  (0 < length qs)%nat ->
  Forall (fun q => lo <= q <= hi) qs ->
  lo <= foldl Qplus 0 qs / inject_Z (Z.of_nat (length qs)) <= hi.
Proof.
  intros Hn H.
  pose proof (inject_nat_pos _ Hn) as Hpos.
  destruct (foldl_Qplus_bounds lo hi 0 qs H) as [H1 H2].
  split.
  - apply Qle_shift_div_l; [exact Hpos | lra].
  - apply Qle_shift_div_r; [exact Hpos | lra].
Qed.

Lemma Qsquare_nonneg (t : Q) : 0 <= t * t.
Proof.
  unfold Qle, Qmult. simpl. rewrite Z.mul_1_r. apply Z.square_nonneg.
Qed.

(** ** Decimal rounding *)

Lemma pow10_pos (d : nat) : 0 < inject_Z (JS.pow10 d).
Proof.
  change 0 with (inject_Z 0). rewrite <- Zlt_Qlt.
  unfold JS.pow10. apply Z.pow_pos_nonneg; lia.
Qed.

Lemma fixed_digits_mono (d : nat) (x y : Q) :
  x <= y -> (JS.fixed_digits d x <= JS.fixed_digits d y)%Z.
Proof.
  intros H. unfold JS.fixed_digits. apply Qfloor_resp_le.
  pose proof (pow10_pos d) as HP.
  apply Qplus_le_l. apply Qmult_le_compat_r; [exact H | lra].
Qed.

Lemma fixed_digits_nonneg (d : nat) (x : Q) : 0 <= x -> (0 <= JS.fixed_digits d x)%Z.
Proof.
  intros H. change 0%Z with (Qfloor 0). unfold JS.fixed_digits.
  apply Qfloor_resp_le. pose proof (pow10_pos d) as HP.
  assert (0 <= x * inject_Z (JS.pow10 d)) by (apply Qmult_le_0_compat; lra).
  lra.
Qed.

Lemma scaled_mono (d : nat) (m n : Z) :
  (m <= n)%Z -> inject_Z m / inject_Z (JS.pow10 d) <= inject_Z n / inject_Z (JS.pow10 d).
Proof.
  intros H. pose proof (pow10_pos d) as HP.
  apply Qle_shift_div_l; [exact HP |].
  unfold Qdiv. rewrite <- Qmult_assoc, (Qmult_comm (/ _)), Qmult_inv_r, Qmult_1_r by lra.
  rewrite <- Zle_Qle. exact H.
Qed.

Lemma scaled_nonneg (d : nat) (n : Z) :
  (0 <= n)%Z -> 0 <= inject_Z n / inject_Z (JS.pow10 d).
Proof.
  intros H. pose proof (pow10_pos d) as HP.
  apply Qle_shift_div_l; [exact HP |].
  rewrite Qmult_0_l. change 0 with (inject_Z 0). rewrite <- Zle_Qle. exact H.
Qed.

(** Rounding to [d] decimals keeps the order. *)
Lemma Qfixed_mono (d : nat) (x y : Q) : x <= y -> JS.Qfixed d x <= JS.Qfixed d y.
Proof.
  intros H. unfold JS.Qfixed.
  destruct (Qle_bool 0 x) eqn:Ex; destruct (Qle_bool 0 y) eqn:Ey; Qbool.
  - apply scaled_mono, fixed_digits_mono, H.
  - lra.
  - pose proof (scaled_nonneg d _ (fixed_digits_nonneg d (- x) ltac:(lra))).
    pose proof (scaled_nonneg d _ (fixed_digits_nonneg d y Ey)).
    lra.
  - apply Qopp_le_compat. apply scaled_mono, fixed_digits_mono. lra.
Qed.

Lemma Qfixed_0 (d : nat) : JS.Qfixed d 0 == 0.
Proof.
  unfold JS.Qfixed. simpl. unfold JS.fixed_digits.
  rewrite Qmult_0_l. reflexivity.
Qed.

(** Rounding moves a value by at most half a unit of the last digit. *)
Lemma fixed_digits_error (d : nat) (q : Q) :
  - (1 # 2) <= inject_Z (JS.fixed_digits d q) - q * inject_Z (JS.pow10 d) <= 1 # 2.
Proof.
  unfold JS.fixed_digits.
  set (t := q * inject_Z (JS.pow10 d) + (1 # 2)).
  pose proof (Qfloor_le t) as H1. pose proof (Qlt_floor t) as H2.
  rewrite inject_Z_plus in H2. change (inject_Z 1) with 1 in H2.
  subst t. split; lra.
Qed.


Lemma toFixed_small (d : nat) (q : Q) :
  Qabs q < inject_Z (10 ^ 21) -> JS.toFixed d (Fin q) = Fin (JS.Qfixed d q).
Proof.
  intros H. unfold JS.toFixed.
  destruct (Qle_bool (inject_Z (10 ^ 21)) (Qabs q)) eqn:E; [| reflexivity].
  Qbool. lra.
Qed.


(** ** Binary64: rounding *)

Lemma two_power_pos (z : Z) : 0 < Double.two_power z.
Proof. apply Qpower_0_lt. reflexivity. Qed.

Lemma two_power_add (x y : Z) :
  Double.two_power (x + y) == Double.two_power x * Double.two_power y.
Proof. apply Qpower_plus. discriminate. Qed.

Lemma two_power_opp (x : Z) : Double.two_power (- x) == / Double.two_power x.
Proof. apply Qpower_opp. Qed.

Lemma two_power_le (x y : Z) : (x <= y)%Z -> Double.two_power x <= Double.two_power y.
Proof. intros H. apply Qpower_le_compat_l; [exact H | discriminate]. Qed.

Lemma two_power_lt_inv (x y : Z) : Double.two_power x < Double.two_power y -> (x < y)%Z.
Proof. intros H. apply (Qpower_lt_compat_l_inv 2); [exact H | reflexivity]. Qed.

Lemma two_power_Z (n : Z) : (0 <= n)%Z -> inject_Z (2 ^ n) == Double.two_power n.
Proof. intros H. apply (Zpower_Qpower 2 n H). Qed.

(** [log2 a] is not above the logarithm. *)
Lemma log2_lower (a : Q) : 0 < a -> Double.two_power (Double.log2 a) <= a.
Proof.
  intros Ha. unfold Double.log2.
  set (l := (Z.log2 (Qnum a) - Z.log2 (Zpos (Qden a)))%Z).
  destruct (Qle_bool (Double.two_power l) a) eqn:E; [apply Qle_bool_iff, E |].
  destruct a as [n d]. unfold Qlt in Ha. cbn [Qnum Qden] in Ha, l.
  rewrite Z.mul_0_l, Z.mul_1_r in Ha.
  assert (Hn : (2 ^ Z.log2 n <= n)%Z) by (apply Z.log2_spec; exact Ha).
  assert (Hd : (Zpos d < 2 ^ (Z.succ (Z.log2 (Zpos d))))%Z)
    by (apply Z.log2_spec; reflexivity).
  pose proof (Z.log2_nonneg n) as Hln.
  pose proof (Z.log2_nonneg (Zpos d)) as Hld.
  (* 2^(l-1) * d < 2^ln <= n *)
  assert (E1 : Double.two_power (l - 1)
               == Double.two_power (Z.log2 n)
                  * / Double.two_power (Z.succ (Z.log2 (Zpos d)))).
  { rewrite <- two_power_opp, <- two_power_add. subst l. f_equiv. lia. }
  rewrite E1, <- !two_power_Z by lia.
  set (A := (2 ^ Z.log2 n)%Z) in *.
  set (B := (2 ^ Z.succ (Z.log2 (Zpos d)))%Z) in *.
  assert (HB : 0 < inject_Z B).
  { rewrite <- (Zlt_Qlt 0). lia. }
  apply Qle_shift_div_r; [exact HB |].
  unfold Qle, Qmult, inject_Z. simpl. rewrite !Z.mul_1_r.
  apply Z.le_trans with (n * Zpos d)%Z; [nia | nia].
Qed.

Lemma nearest_even_error (x : Q) :
  - (1 # 2) <= inject_Z (Double.nearest_even x) - x <= 1 # 2.
Proof.
  unfold Double.nearest_even.
  pose proof (Qfloor_le x) as Hle.
  pose proof (Qlt_floor x) as Hlt.
  rewrite inject_Z_plus in Hlt. change (inject_Z 1) with 1 in Hlt.
  destruct (Qcompare (x - inject_Z (Qfloor x)) (1 # 2)) eqn:E.
  - apply Qeq_alt in E.
    destruct (Z.even (Qfloor x));
      [| rewrite inject_Z_plus; change (inject_Z 1) with 1]; split; lra.
  - apply Qlt_alt in E. split; lra.
  - apply Qgt_alt in E. rewrite inject_Z_plus. change (inject_Z 1) with 1.
    split; lra.
Qed.

Lemma nearest_even_nonneg (x : Q) : 0 <= x -> (0 <= Double.nearest_even x)%Z.
Proof.
  intros Hx. unfold Double.nearest_even.
  assert (H0 : (0 <= Qfloor x)%Z).
  { change 0%Z with (Qfloor 0). apply Qfloor_resp_le, Hx. }
  destruct (Qcompare _ _); [destruct (Z.even _) | |]; lia.
Qed.

Lemma log2_below (a : Q) (k : Z) : 0 < a -> a < Double.two_power k -> (Double.log2 a < k)%Z.
Proof.
  intros Ha Hk. apply two_power_lt_inv.
  eapply Qle_lt_trans; [apply log2_lower, Ha | exact Hk].
Qed.

Lemma exponent_error (a : Q) :
  0 < a ->
  Double.two_power (Double.exponent a) * (1 # 2) <= Double.u * a + Double.eta.
Proof.
  intros Ha. unfold Double.exponent.
  pose proof (two_power_pos (-1075)) as Heta. fold Double.eta in Heta.
  destruct (Z.max_spec (Double.log2 a - 52) (-1074)) as [[_ ->] | [_ ->]].
  - assert (E : Double.two_power (-1074) * (1 # 2) == Double.eta) by reflexivity.
    rewrite E.
    assert (0 <= Double.u * a); [| lra].
    apply Qmult_le_0_compat; [apply Qlt_le_weak, two_power_pos | lra].
  - replace (Double.log2 a - 52)%Z with (Double.log2 a + -52)%Z by lia.
    rewrite two_power_add.
    pose proof (log2_lower a Ha) as Hl.
    assert (E : Double.two_power (-52) * (1 # 2) == Double.u) by reflexivity.
    rewrite <- Qmult_assoc, E.
    pose proof (two_power_pos (-53)) as Hu. fold Double.u in Hu.
    assert (Double.two_power (Double.log2 a) * Double.u <= Double.u * a); [| lra].
    rewrite (Qmult_comm Double.u). apply Qmult_le_compat_r; lra.
Qed.

Lemma magnitude_spec (a : Q) :
  0 < a -> a < Double.two_power 1023 ->
  let e := Double.exponent a in
  let m := Double.nearest_even (a * Double.two_power (- e)) in
  (1024 <=? Z.log2 m + e)%Z = false
  /\ 0 <= inject_Z m * Double.two_power e
  /\ - (Double.u * a + Double.eta) <= inject_Z m * Double.two_power e - a
     <= Double.u * a + Double.eta.
Proof.
  intros Ha Hmax e m.
  pose proof (nearest_even_error (a * Double.two_power (- e))) as Hm. fold m in Hm.
  pose proof (two_power_pos e) as He.
  pose proof (exponent_error a Ha) as Herr. fold e in Herr.
  assert (Hinv : Double.two_power (- e) * Double.two_power e == 1).
  { rewrite <- two_power_add. replace (- e + e)%Z with 0%Z by lia. reflexivity. }
  set (t := Double.two_power e) in *.
  set (s := Double.two_power (- e)) in *.
  assert (Hv : - (t * (1 # 2)) <= inject_Z m * t - a <= t * (1 # 2)).
  { assert (E : inject_Z m * t - a == (inject_Z m - a * s) * t).
    { transitivity (inject_Z m * t - a * (s * t)); [rewrite Hinv; ring | ring]. }
    rewrite E. destruct Hm as [Hm1 Hm2]. split.
    - assert (E1 : - (t * (1 # 2)) == - (1 # 2) * t) by ring.
      rewrite E1. apply Qmult_le_compat_r; lra.
    - assert (E1 : t * (1 # 2) == (1 # 2) * t) by ring.
      rewrite E1. apply Qmult_le_compat_r; lra. }
  assert (Hm0 : (0 <= m)%Z).
  { apply nearest_even_nonneg. apply Qmult_le_0_compat; [lra |].
    apply Qlt_le_weak, two_power_pos. }
  split; [| split; [| lra]].
  - apply Z.leb_gt.
    assert (Hu1 : Double.u * a + Double.eta < Double.two_power 1023).
    { assert (Double.u * a <= (1 # 2) * a).
      { apply Qmult_le_compat_r; [| lra]. unfold Double.u. vm_compute. discriminate. }
      assert (Double.eta <= (1 # 2) * Double.two_power 1023) by (vm_compute; discriminate).
      lra. }
    destruct (Z.eq_dec m 0%Z) as [Hz | Hm_ne].
    + rewrite Hz. simpl.
      assert (Hl : (Double.log2 a < 1023)%Z) by (apply log2_below; assumption).
      subst e. unfold Double.exponent. lia.
    + assert (Hlog : (2 ^ Z.log2 m <= m)%Z) by (apply Z.log2_spec; lia).
      apply two_power_lt_inv.
      rewrite two_power_add. fold t.
      rewrite <- two_power_Z by apply Z.log2_nonneg.
      assert (Hle : inject_Z (2 ^ Z.log2 m) * t <= inject_Z m * t).
      { apply Qmult_le_compat_r; [rewrite <- Zle_Qle; exact Hlog | lra]. }
      assert (E1024 : Double.two_power 1024 == 2 * Double.two_power 1023) by reflexivity.
      rewrite E1024. lra.
  - apply Qmult_le_0_compat; [rewrite <- (Zle_Qle 0); exact Hm0 | lra].
Qed.

Lemma nearest_spec (q : Q) :
  Qabs q < Double.two_power 1023 -> exists v, Double.nearest q = Fin v /\ near q v.
Proof.
  intros Hmax. unfold Double.nearest.
  destruct (Qeq_bool q 0) eqn:Hz.
  - apply Qeq_bool_eq in Hz. exists 0. split; [reflexivity |].
    pose proof (two_power_pos (-1075)) as Heta. fold Double.eta in Heta.
    pose proof (two_power_pos (-53)) as Hu. fold Double.u in Hu.
    assert (Ea : Qabs q == 0) by (rewrite Hz; reflexivity).
    unfold near. rewrite Ea. repeat split; lra.
  - assert (Hne : ~ q == 0) by (intros E; apply Qeq_eq_bool in E; congruence).
    assert (Ha : 0 < Qabs q).
    { destruct (Qlt_le_dec 0 (Qabs q)) as [H | H]; [exact H |].
      exfalso. apply Hne. destruct (Qlt_le_dec q 0) as [Hq | Hq].
      - rewrite Qabs_neg in H by lra. lra.
      - rewrite Qabs_pos in H by lra. lra. }
    destruct (magnitude_spec (Qabs q) Ha Hmax) as (Hover & Hv0 & Hv).
    cbv zeta. rewrite Hover.
    set (v := inject_Z _ * _) in *.
    unfold JS.Qnegative. rewrite Hz. simpl negb. rewrite andb_true_r.
    destruct (Qle_bool q 0) eqn:Hs.
    + apply Qle_bool_iff in Hs.
      exists (Qred (- v)). split; [reflexivity |]. unfold near.
      rewrite Qred_correct. rewrite (Qabs_neg q Hs) in *. repeat split; lra.
    + apply Qle_bool_false in Hs.
      exists (Qred v). split; [reflexivity |]. unfold near.
      rewrite Qred_correct. rewrite (Qabs_pos q) in * by lra. repeat split; lra.
Qed.

Lemma round_spec (q : Q) :
  Qabs q < Double.two_power 1023 -> exists v, Double.round q = Fin v /\ near q v.
Proof.
  intros Hmax. unfold Double.round.
  pose proof (Qred_correct q) as E.
  destruct (nearest_spec (Qred q)) as (v & Hv & Hnear); [rewrite E; exact Hmax |].
  exists v. split; [exact Hv |]. unfold near in *. rewrite E in Hnear. exact Hnear.
Qed.

Lemma round_proper (q q' : Q) : q == q' -> Double.round q = Double.round q'.
Proof. intros E. unfold Double.round. rewrite (Qred_complete q q' E). reflexivity. Qed.

(** The form in which the error bound is used: [M] bounds the exact
    result. *)
Lemma round_bound (q M : Q) :
  - M <= q <= M -> M < Double.two_power 1023 ->
  exists v, Double.round q = Fin v
            /\ - (Double.u * M + Double.eta) <= v - q <= Double.u * M + Double.eta
            /\ (0 <= q -> 0 <= v) /\ (q <= 0 -> v <= 0).
Proof.
  intros [H1 H2] HM.
  assert (Ha : Qabs q <= M) by (apply Qabs_Qle_condition; split; assumption).
  destruct (round_spec q) as (v & Hv & (Hlo & Hhi) & Hs1 & Hs2); [lra |].
  exists v. split; [exact Hv |].
  pose proof (two_power_pos (-53)) as Hu. fold Double.u in Hu.
  assert (Double.u * Qabs q <= Double.u * M).
  { rewrite !(Qmult_comm Double.u). apply Qmult_le_compat_r; lra. }
  repeat split; try assumption; lra.
Qed.
(** The constants of the error bounds. *)
Lemma u_value : Double.u == 1 # 9007199254740992.
Proof. reflexivity. Qed.

Lemma eta_bounds : 0 < Double.eta <= 1 # 1267650600228229401496703205376.
Proof.
  split; [apply two_power_pos |].
  change (1 # 1267650600228229401496703205376) with (Double.two_power (-100)).
  apply two_power_le. lia.
Qed.

Lemma two_power_1023_large : 1000000000000 < Double.two_power 1023.
Proof.
  apply Qlt_le_trans with (Double.two_power 40); [reflexivity |].
  apply two_power_le. lia.
Qed.

(** Rounding a result that is at most [M <= 10^12] in size. *)
Lemma round_small (q M : Q) :
  - M <= q <= M -> M <= 1000000000000 ->
  exists v, Double.round q = Fin v
            /\ - (Double.u * M + Double.eta) <= v - q <= Double.u * M + Double.eta
            /\ (0 <= q -> 0 <= v) /\ (q <= 0 -> v <= 0).
Proof.
  intros H HM. apply round_bound; [exact H |].
  pose proof two_power_1023_large. lra.
Qed.

(** Rounding keeps the sign, also when it overflows. *)
Lemma nearest_nonneg (q : Q) : 0 <= q -> num_le (Fin 0) (Double.nearest q).
Proof.
  intros Hq. unfold Double.nearest, num_le.
  destruct (Qeq_bool q 0) eqn:Hz; [reflexivity |].
  assert (Hneg : JS.Qnegative q = false).
  { unfold JS.Qnegative. rewrite Hz. Qbool.
    destruct (Qle_bool q 0) eqn:E; [Qbool; exfalso; apply Hz; lra | reflexivity]. }
  cbv zeta. rewrite Hneg.
  destruct (1024 <=? _)%Z; [reflexivity |].
  simpl. Qbool. rewrite Qred_correct.
  apply Qmult_le_0_compat; [| apply Qlt_le_weak, two_power_pos].
  rewrite <- (Zle_Qle 0). apply nearest_even_nonneg.
  apply Qmult_le_0_compat; [apply Qabs_nonneg | apply Qlt_le_weak, two_power_pos].
Qed.

Lemma round_nonneg (q : Q) : 0 <= q -> num_le (Fin 0) (Double.round q).
Proof.
  intros Hq. apply nearest_nonneg. rewrite Qred_correct. exact Hq.
Qed.

(** ** Binary64: decimal texts *)

Lemma Qfixed_digits (d : nat) (q : Q) :
  JS.Qfixed d q == inject_Z (Double.digits d q) / inject_Z (JS.pow10 d).
Proof.
  pose proof (pow10_pos d) as HP.
  unfold JS.Qfixed, Double.digits. destruct (Qle_bool 0 q); [reflexivity |].
  rewrite inject_Z_opp. field. lra.
Qed.

Lemma digits_error (d : nat) (q : Q) :
  - (1 # 2) <= inject_Z (Double.digits d q) - q * inject_Z (JS.pow10 d) <= 1 # 2.
Proof.
  unfold Double.digits. destruct (Qle_bool 0 q).
  - apply fixed_digits_error.
  - pose proof (fixed_digits_error d (- q)) as H. rewrite inject_Z_opp.
    split; lra.
Qed.

Lemma digits_mono (d : nat) (x y : Q) :
  x <= y -> (Double.digits d x <= Double.digits d y)%Z.
Proof.
  intros H. pose proof (pow10_pos d) as HP.
  pose proof (Qfixed_mono d x y H) as Hm. rewrite !Qfixed_digits in Hm.
  rewrite Zle_Qle.
  apply (Qmult_le_r _ _ (/ inject_Z (JS.pow10 d))); [apply Qinv_lt_0_compat, HP |].
  exact Hm.
Qed.

(** [parseFloat(x.toFixed(d))] of a finite value below 1e21 is the double
    of its decimal digits. *)
Lemma toFixed_decimal (d : nat) (q : Q) :
  Qabs q < inject_Z (10 ^ 21) ->
  Double.toFixed d (Fin q) = Double.decimal d (Double.digits d q).
Proof.
  intros H. unfold Double.toFixed, Double.decimal.
  rewrite toFixed_small by exact H. simpl.
  apply round_proper, Qfixed_digits.
Qed.

(** Decimals of at most [d = 4] places between -2 and 2 keep their order
    when parsed. *)
Lemma decimal_order (m n : Z) :
  (-20000 <= m <= n)%Z -> (n <= 20000)%Z ->
  num_le (Double.decimal 4 m) (Double.decimal 4 n).
Proof.
  intros [Hm Hmn] Hn. unfold Double.decimal.
  change (inject_Z (JS.pow10 4)) with 10000.
  destruct (Z.eq_dec m n) as [-> | Hne].
  - assert (Hb : -2 <= inject_Z n / 10000 <= 2).
    { rewrite Zle_Qle in Hm, Hn. change (inject_Z (-20000)) with (-20000) in Hm.
      change (inject_Z 20000) with 20000 in Hn.
      split; [apply Qle_shift_div_l | apply Qle_shift_div_r]; lra. }
    destruct (round_small (inject_Z n / 10000) 2) as (v & -> & _); [lra | lra |].
    unfold num_le. simpl. Qbool. lra.
  - assert (Hlt : (m + 1 <= n)%Z) by lia.
    rewrite Zle_Qle in Hm, Hn, Hlt. rewrite inject_Z_plus in Hlt.
    change (inject_Z (-20000)) with (-20000) in Hm.
    change (inject_Z 20000) with 20000 in Hn.
    change (inject_Z 1) with 1 in Hlt.
    set (x := inject_Z m) in *. set (y := inject_Z n) in *.
    assert (Hx : -2 <= x / 10000 <= 2).
    { split; [apply Qle_shift_div_l | apply Qle_shift_div_r]; lra. }
    assert (Hy : -2 <= y / 10000 <= 2).
    { split; [apply Qle_shift_div_l | apply Qle_shift_div_r]; lra. }
    assert (Hgap : x / 10000 + (1 # 10000) <= y / 10000).
    { apply Qle_shift_div_l; [lra |].
      assert (E : (x / 10000 + (1 # 10000)) * 10000 == x + 1) by (field; lra).
      rewrite E. exact Hlt. }
    destruct (round_small (x / 10000) 2) as (v & -> & Hv & _); [lra | lra |].
    destruct (round_small (y / 10000) 2) as (w & -> & Hw & _); [lra | lra |].
    pose proof u_value as Hu. pose proof eta_bounds as He.
    unfold num_le. simpl. Qbool. lra.
Qed.

(** ** Binary64: the running sum *)

Lemma add_Fin (a b : Q) : Double.add (Fin a) (Fin b) = Double.round (a + b).
Proof. reflexivity. Qed.

Lemma sum_error (qs : list Q) (k : nat) (s0 S0 : Q) :
  Forall (fun q => -1 <= q <= 1) qs ->
  (Z.of_nat k + Z.of_nat (length qs) <= 2 ^ 32)%Z ->
  - inject_Z (Z.of_nat k) <= S0 <= inject_Z (Z.of_nat k) ->
  - (inject_Z (Z.of_nat k) * drift) <= s0 - S0 <= inject_Z (Z.of_nat k) * drift ->
  exists s,
    foldl (fun acc val => Double.add acc val) (Fin s0) (map Fin qs) = Fin s
    /\ - (inject_Z (Z.of_nat (k + length qs)) * drift)
       <= s - foldl Qplus S0 qs
       <= inject_Z (Z.of_nat (k + length qs)) * drift.
Proof.
  intros Hqs. revert k s0 S0.
  induction Hqs as [| x qs Hx _ IH]; intros k s0 S0 Hlen HS Hs.
  - exists s0. simpl. rewrite Nat.add_0_r. split; [reflexivity | exact Hs].
  - cbn [map foldl]. rewrite add_Fin.
    cbn [length] in Hlen.
    assert (Hk : inject_Z (Z.of_nat k) <= 4294967295).
    { change 4294967295 with (inject_Z 4294967295). rewrite <- Zle_Qle. lia. }
    assert (Hk0 : 0 <= inject_Z (Z.of_nat k)).
    { change 0 with (inject_Z 0). rewrite <- Zle_Qle. lia. }
    set (K := inject_Z (Z.of_nat k)) in *.
    unfold drift in *.
    destruct (round_small (s0 + x) 4294971393) as (s1 & -> & Hs1 & _); [lra | lra |].
    pose proof u_value as Hu. pose proof eta_bounds as He.
    destruct (IH (S k) s1 (S0 + x)) as (s & Hfold & Hbound).
    + lia.
    + rewrite Nat2Z.inj_succ. unfold Z.succ. rewrite inject_Z_plus.
      change (inject_Z 1) with 1. fold K. lra.
    + rewrite Nat2Z.inj_succ. unfold Z.succ. rewrite inject_Z_plus.
      change (inject_Z 1) with 1. fold K. lra.
    + exists s. split; [exact Hfold |].
      cbn [length foldl].
      replace (k + S (length qs))%nat with (S k + length qs)%nat by lia.
      exact Hbound.
Qed.

(** ** Binary64: signs *)

Lemma nonneg_Fin (q : Q) : nonneg (Fin q) <-> 0 <= q.
Proof. unfold nonneg, num_le. simpl. apply Qle_bool_iff. Qed.

Lemma rounded_nonneg (x : number) : nonneg x -> nonneg (Double.rounded x).
Proof.
  destruct x as [| s | q]; simpl; try (intros H; exact H).
  intros H. apply round_nonneg, nonneg_Fin, H.
Qed.

Lemma add_nonneg (x y : number) : nonneg x -> nonneg y -> nonneg (Double.add x y).
Proof.
  intros Hx Hy. apply rounded_nonneg.
  destruct x as [| [] | a], y as [| [] | b]; try discriminate; try reflexivity.
  apply nonneg_Fin in Hx, Hy. apply nonneg_Fin. simpl. lra.
Qed.

(** A square is not negative, whatever the rounding; the square of NaN is
    NaN. *)
Lemma pow2_nonneg (x : number) : x <> NaN -> nonneg (Double.pow2 x).
Proof.
  intros Hx. apply rounded_nonneg.
  destruct x as [| [] | a]; try reflexivity; [contradiction |].
  apply nonneg_Fin. simpl. apply Qsquare_nonneg.
Qed.

Lemma rounded_not_NaN (x : number) : x <> NaN -> Double.rounded x <> NaN.
Proof.
  destruct x as [| s | q]; simpl; try (intros H; exact H).
  intros _. unfold Double.round, Double.nearest.
  destruct (Qeq_bool _ _); [discriminate |].
  cbv zeta. destruct (1024 <=? _)%Z; discriminate.
Qed.

Lemma sub_Fin_not_NaN (a b : Q) : Double.sub (Fin a) (Fin b) <> NaN.
Proof. apply rounded_not_NaN. discriminate. Qed.

Lemma div_nonneg (x : number) (n : nat) :
  (0 < n)%nat -> nonneg x -> nonneg (Double.div x (JS.of_nat n)).
Proof.
  intros Hn Hx. apply rounded_nonneg.
  pose proof (inject_nat_pos n Hn) as Hpos.
  destruct x as [| [] | a]; try discriminate.
  - unfold JS.of_nat, JS.of_Z. simpl. unfold JS.Qnegative.
    destruct (Qle_bool (inject_Z (Z.of_nat n)) 0) eqn:E; [Qbool; lra | reflexivity].
  - rewrite div_of_nat by exact Hn. apply nonneg_Fin in Hx. apply nonneg_Fin.
    apply Qle_shift_div_l; [exact Hpos | lra].
Qed.

Lemma sqrt_nonneg (x : number) : nonneg x -> nonneg (Double.sqrt x).
Proof.
  destruct x as [| [] | q]; try discriminate; [intros _; reflexivity |].
  intros Hq. apply nonneg_Fin in Hq. unfold Double.sqrt.
  assert (Hneg : JS.Qnegative q = false).
  { unfold JS.Qnegative. destruct (Qeq_bool q 0) eqn:Hz; [apply andb_false_r |].
    destruct (Qle_bool q 0) eqn:E; [Qbool; exfalso; apply Hz; lra | reflexivity]. }
  rewrite Hneg. destruct (Qeq_bool q 0); [reflexivity |].
  cbv zeta. apply nonneg_Fin. rewrite Qred_correct.
  apply Qmult_le_0_compat; [| apply Qlt_le_weak, two_power_pos].
  rewrite <- (Zle_Qle 0).
  pose proof (Z.sqrt_nonneg (Qfloor (q * Double.two_power (- (2 * (Double.log2 q / 2 - 52)))))).
  destruct (Qcompare _ _); [destruct (Z.even _) | |]; lia.
Qed.

Lemma toFixed_nonneg (d : nat) (x : number) : nonneg x -> nonneg (Double.toFixed d x).
Proof.
  intros Hx. apply rounded_nonneg.
  destruct x as [| [] | q]; try discriminate; [reflexivity |].
  apply nonneg_Fin in Hx. unfold JS.toFixed.
  destruct (Qle_bool _ _); apply nonneg_Fin; [exact Hx |].
  rewrite <- (Qfixed_0 d). apply Qfixed_mono, Hx.
Qed.

Lemma squares_nonneg (avg : number) (qs : list Q) (acc : number) :
  nonneg acc ->
  (exists a, avg = Fin a) ->
  nonneg (foldl (fun acc val => Double.add acc (Double.pow2 (Double.sub val avg)))
                acc (map Fin qs)).
Proof.
  intros Hacc [a ->]. revert acc Hacc.
  induction qs as [| q qs IH]; intros acc Hacc; [exact Hacc |].
  cbn [map foldl]. apply IH, add_nonneg; [exact Hacc |].
  apply pow2_nonneg, sub_Fin_not_NaN.
Qed.

(** ** The engine: statistics *)

Lemma Z_of_Q_lt (m n : Z) : inject_Z m - 2 < inject_Z n -> (m - 1 <= n)%Z.
Proof.
  intros H.
  assert (H' : inject_Z (m - 2) < inject_Z n).
  { unfold Z.sub. rewrite inject_Z_plus. exact H. }
  rewrite <- Zlt_Qlt in H'. lia.
Qed.

Lemma digits_unit (q : Q) : -1 <= q <= 1 -> (-10000 <= Double.digits 4 q <= 10000)%Z.
Proof.
  intros [H1 H2].
  pose proof (digits_mono 4 _ _ H1) as Hlo.
  pose proof (digits_mono 4 _ _ H2) as Hhi.
  change (Double.digits 4 (-1)) with (-10000)%Z in Hlo.
  change (Double.digits 4 1) with 10000%Z in Hhi.
  lia.
Qed.

Section Statistics64.

Variable argument_limit : Z.

Let _calculateStatistics := NDVI64._calculateStatistics argument_limit.

(** C10, as amended.  For index data of fewer than 2^32 values (the limit
    of an array): the number of valid values is at most the number of
    values; with no valid value the average, minimum, maximum and deviation
    are zero; with more valid values than the interpreter takes as
    arguments, [Math.min(...validValues)] throws its RangeError; otherwise
    statistics are returned whose minimum, average and maximum are
    four-decimal numbers with min <= max and the average at most one unit
    of the fourth decimal outside [min, max], whose deviation is not
    negative, and whose counts are those of the valid and of all values. *)
Theorem statistics_bounds (ndviData : list number) :
  (Z.of_nat (length ndviData) < 2 ^ 32)%Z ->
  let valid := length (filter (fun val => NDVI.valid_value val = true) ndviData) in
  (valid <= length ndviData)%nat
  /\ (valid = 0%nat -> _calculateStatistics ndviData = Return no_valid_statistics)
  /\ ((0 < valid)%nat -> (argument_limit < Z.of_nat valid)%Z ->
      _calculateStatistics ndviData = Throw NDVI64.spread_error)
  /\ ((0 < valid)%nat -> (Z.of_nat valid <= argument_limit)%Z ->
      exists st nmin navg nmax,
        _calculateStatistics ndviData = Return st
        /\ NDVI.min st = Double.decimal 4 nmin
        /\ NDVI.average st = Double.decimal 4 navg
        /\ NDVI.max st = Double.decimal 4 nmax
        /\ (nmin <= nmax)%Z
        /\ (nmin - 1 <= navg <= nmax + 1)%Z
        /\ num_le (NDVI.min st) (NDVI.max st)
        /\ num_le (Fin 0) (NDVI.std st)
        /\ NDVI.validPixels st = Some valid
        /\ NDVI.totalPixels st = Some (length ndviData)).
Proof.
  intros Hlen valid.
  assert (Hle : (valid <= length ndviData)%nat) by apply length_filter.
  split; [exact Hle |].
  subst _calculateStatistics. unfold NDVI64._calculateStatistics. cbv zeta.
  destruct (valid_values_Fin ndviData) as [Hvs Hall].
  fold valid.
  set (vs := filter (fun val => NDVI.valid_value val = true) ndviData) in *.
  split; [| split].
  - intros ->. reflexivity.
  - intros Hpos Hlimit.
    destruct (Nat.eqb_spec valid 0) as [E | _]; [lia |].
    apply Z.ltb_lt in Hlimit. rewrite Hlimit. reflexivity.
  - intros Hpos Hlimit.
    destruct (Nat.eqb_spec valid 0) as [E | _]; [lia |].
    apply Z.ltb_ge in Hlimit. rewrite Hlimit.
    destruct (map to_Q vs) as [| q qs] eqn:Hqs.
    { subst valid. rewrite Hvs in Hpos. simpl in Hpos. lia. }
    assert (Hn : valid = length (q :: qs)).
    { subst valid. rewrite Hvs, length_map. reflexivity. }
    rewrite Hvs.
    destruct (Math_min_Fin q qs) as (lo & Hmin & Hlo_in & Hlo).
    destruct (Math_max_Fin q qs) as (hi & Hmax & Hhi_in & Hhi).
    remember (q :: qs) as l eqn:Hl.
    (* the sum and the mean *)
    destruct (sum_error l 0 0 0 Hall) as (s & Hs & Hs_err).
    { rewrite <- Hn. lia. }
    { change (inject_Z (Z.of_nat 0)) with 0. lra. }
    { change (inject_Z (Z.of_nat 0)) with 0. lra. }
    rewrite Hs. rewrite Nat.add_0_l, <- Hn in Hs_err.
    assert (Hall' : Forall (fun q => -1 <= q <= 1) l) by exact Hall.
    rewrite Hmin, Hmax.
    rewrite Forall_forall in Hall'.
    pose proof (Hall' lo (proj2 (list_elem_of_In _ _) Hlo_in)) as Hlo_range.
    pose proof (Hall' hi (proj2 (list_elem_of_In _ _) Hhi_in)) as Hhi_range.
    assert (Hbetween : Forall (fun x => lo <= x <= hi) l).
    { rewrite Forall_forall in Hlo, Hhi. apply Forall_forall. intros x Hx.
      split; [apply Hlo | apply Hhi]; exact Hx. }
    pose proof (mean_bounds lo hi l ltac:(rewrite <- Hn; exact Hpos) Hbetween) as Hmean.
    rewrite <- Hn in Hmean.
    pose proof (inject_nat_pos valid Hpos) as Hvalid.
    set (n := inject_Z (Z.of_nat valid)) in *.
    assert (Hquot : - drift <= s / n - foldl Qplus 0 l / n <= drift).
    { assert (E : s / n - foldl Qplus 0 l / n == (s - foldl Qplus 0 l) / n)
        by (field; lra).
      rewrite E. split; [apply Qle_shift_div_l | apply Qle_shift_div_r]; lra. }
    unfold drift in Hquot.
    destruct (round_small (s / n) 2) as (a & Ha & Ha_err & _); [lra | lra |].
    assert (Havg : Double.div (Fin s) (JS.of_nat valid) = Fin a).
    { unfold Double.div. rewrite div_of_nat by exact Hpos. exact Ha. }
    rewrite Havg.
    pose proof u_value as Hu. pose proof eta_bounds as He.
    assert (Ha_range : lo - (1 # 500000) <= a <= hi + (1 # 500000)) by lra.
    eexists. exists (Double.digits 4 lo), (Double.digits 4 a), (Double.digits 4 hi).
    split; [reflexivity |]. cbn [NDVI.min NDVI.max NDVI.average NDVI.std
                                 NDVI.validPixels NDVI.totalPixels].
    assert (Hsmall : forall x, -2 <= x <= 2 -> Qabs x < inject_Z (10 ^ 21)).
    { intros x Hx. apply Qle_lt_trans with 2; [| reflexivity].
      apply Qabs_Qle_condition. split; lra. }
    rewrite !toFixed_decimal by (apply Hsmall; lra).
    assert (Hord : (Double.digits 4 lo <= Double.digits 4 hi)%Z).
    { apply digits_mono. rewrite Forall_forall in Hlo. apply Hlo, list_elem_of_In, Hhi_in. }
    pose proof (digits_unit lo Hlo_range) as Dlo.
    pose proof (digits_unit hi Hhi_range) as Dhi.
    pose proof (digits_error 4 lo) as Elo.
    pose proof (digits_error 4 hi) as Ehi.
    pose proof (digits_error 4 a) as Ea.
    change (inject_Z (JS.pow10 4)) with 10000 in Elo, Ehi, Ea.
    split; [reflexivity |]. split; [reflexivity |]. split; [reflexivity |].
    split; [exact Hord |].
    split.
    { split.
      - apply Z_of_Q_lt. lra.
      - assert (H : (Double.digits 4 a - 1 <= Double.digits 4 hi)%Z)
          by (apply Z_of_Q_lt; lra).
        lia. }
    split; [apply decimal_order; lia |].
    split.
    { apply toFixed_nonneg, sqrt_nonneg, div_nonneg; [exact Hpos |].
      apply squares_nonneg; [reflexivity | eexists; reflexivity]. }
    split; reflexivity.
Qed.

End Statistics64.

(** ** The engine: percentages *)


(** ** The engine: zones *)

Section ZoneFacts.

Variable this : NDVI.NDVIAnalysisService.

Let th := NDVI.thresholds this.





End ZoneFacts.

Lemma ltb_no_cycle (x y z : number) :
  JS.ltb x y = true -> JS.ltb y z = true -> JS.ltb z x = true -> False.
Proof.
  destruct x as [| sx | x], y as [| sy | y], z as [| sz | z]; simpl;
    try discriminate;
    repeat match goal with s : bool |- _ => destruct s end; simpl;
    try discriminate;
    intros; Qbool; lra.
Qed.

(** ** Binary64: every pair of samples *)

Lemma all_pixels_checked :
  forallb (fun n => forallb (pixel_checked n) Binary64.all_bytes) Binary64.all_bytes
  = true.
Proof. vm_compute. reflexivity. Qed.

Lemma pixel_checked_true (n r : byte) : pixel_checked n r = true.
Proof.
  pose proof all_pixels_checked as H.
  rewrite forallb_forall in H.
  specialize (H n (all_bytes_complete n)).
  rewrite forallb_forall in H.
  exact (H r (all_bytes_complete r)).
Qed.

(** What the check establishes for one pair of samples. *)
Lemma pixel_facts (n r : byte) :
  let p := Binary64.ndvi_pixel (Binary64.of_byte n) (Binary64.of_byte r) in
  exists (q : Q) (k : Z),
    Binary64.to_number p = Fin q
    /\ -1 <= q <= 1
    /\ Qabs (q - exact_index n r) <= Double.two_power (-51)
    /\ Binary64.grey_level p = Fin (inject_Z k)
    /\ (0 <= k <= 255)%Z
    /\ Qabs (index_of_level k - exact_index n r) <= 1 # 255.
Proof.
  intros p. pose proof (pixel_checked_true n r) as H.
  unfold pixel_checked in H. fold p in H.
  apply andb_true_iff in H as [_ H].
  destruct (Binary64.to_number p) as [| s | q]; try discriminate.
  destruct (Binary64.grey_level p) as [| s | g] eqn:Hg; try discriminate.
  repeat (apply andb_true_iff in H; destruct H as [H ?]).
  Qbool.
  assert (Hint : exists k, Fin g = Fin (inject_Z k) /\ k = Qfloor g).
  { unfold Binary64.grey_level, JS.Math_round in Hg.
    destruct (Binary64.to_number _) as [| s | v]; try discriminate.
    injection Hg as <-. eexists. split; [reflexivity |].
    symmetry. apply Qfloor_Z. }
  destruct Hint as (k & -> & ->).
  exists q, (Qfloor g). repeat split; try assumption; lia.
Qed.

(** A sample past the end of the red buffer is [undefined], and the index
    and its grey level are NaN. *)
Lemma pixel_without_red (n : byte) :
  let p := Binary64.ndvi_pixel (Binary64.of_byte n) nan in
  Binary64.to_number p = NaN /\ Binary64.grey_level p = NaN.
Proof. destruct n; vm_compute; split; reflexivity. Qed.

Lemma pixels64_length (nirData redData : list byte) :
  length (NDVI64._computeNDVIPixels nirData redData) = length nirData.
Proof.
  unfold NDVI64._computeNDVIPixels, Binary64._computeNDVIPixels.
  rewrite length_map, length_imap. reflexivity.
Qed.

Lemma pixels64_lookup (nirData redData : list byte) (i : nat) (n : byte) :
  nirData !! i = Some n ->
  NDVI64._computeNDVIPixels nirData redData !! i
  = Some (Binary64.to_number
            (Binary64.ndvi_pixel (Binary64.of_byte n) (Binary64.sample redData i))).
Proof.
  intros Hn. unfold NDVI64._computeNDVIPixels, Binary64._computeNDVIPixels.
  rewrite list_lookup_fmap, list_lookup_imap, Hn. simpl.
  unfold Binary64.sample at 1. rewrite Hn. reflexivity.
Qed.

Lemma levels_lookup (nirData redData : list byte) (i : nat) (n : byte) :
  nirData !! i = Some n ->
  Binary64._normalizeNDVIData (Binary64._computeNDVIPixels nirData redData) !! i
  = Some (Binary64.grey_level
            (Binary64.ndvi_pixel (Binary64.of_byte n) (Binary64.sample redData i))).
Proof.
  intros Hn. unfold Binary64._normalizeNDVIData, Binary64._computeNDVIPixels.
  rewrite list_lookup_fmap, list_lookup_imap, Hn. simpl.
  unfold Binary64.sample at 1. rewrite Hn. reflexivity.
Qed.

Lemma pixels64_valid (nirData redData : list byte) :
  length nirData = length redData ->
  Forall (fun x => NDVI.valid_value x = true) (NDVI64._computeNDVIPixels nirData redData).
Proof.
  intros Hlen. apply Forall_lookup_2. intros i x Hx.
  assert (Hi : (i < length nirData)%nat).
  { rewrite <- (pixels64_length nirData redData). eapply lookup_lt_Some, Hx. }
  destruct (lookup_lt_is_Some_2 nirData i Hi) as [n Hn].
  rewrite Hlen in Hi. destruct (lookup_lt_is_Some_2 redData i Hi) as [r Hr].
  rewrite (pixels64_lookup _ _ _ _ Hn) in Hx. injection Hx as <-.
  unfold Binary64.sample. rewrite Hr.
  destruct (pixel_facts n r) as (q & k & -> & Hq & _).
  apply valid_value_Fin. exists q. split; [reflexivity | exact Hq].
Qed.

Lemma filter_valid_all (l : list number) :
  Forall (fun x => NDVI.valid_value x = true) l ->
  filter (fun val => NDVI.valid_value val = true) l = l.
Proof.
  induction 1 as [| x l Hx _ IH]; [reflexivity |].
  rewrite filter_cons, decide_True by exact Hx. f_equal. exact IH.
Qed.

Section Engine64.

Variable Number_toString : number -> string.
Variable this : NDVI.NDVIAnalysisService.
Variable argument_limit : Z.

Let calculateNDVI := NDVI64.calculateNDVI Number_toString this argument_limit.
Let _calculateStatistics := NDVI64._calculateStatistics argument_limit.
Let _identifyVegetationZones := NDVI64._identifyVegetationZones this.
Let _generateAlerts := NDVI64._generateAlerts Number_toString this.
Let th := NDVI.thresholds this.

(** The result of [calculateNDVI] is built from the pixel loop: when the
    dimensions agree and the statistics are returned, each part of the
    result is the function of the source applied to the pixels. *)
Lemma calculateNDVI_parts (now : Date) (nirBand redBand : BandRaster)
  (st : NDVI.Statistics) :
  width nirBand = width redBand -> height nirBand = height redBand ->
  let pixels := NDVI64._computeNDVIPixels (raw nirBand) (raw redBand) in
  _calculateStatistics pixels = Return st ->
  calculateNDVI now nirBand redBand
  = Return {| NDVI.timestamp := now;
              NDVI.dimensions := {| NDVI.dim_width := width nirBand;
                                    NDVI.dim_height := height nirBand |};
              NDVI.statistics := st;
              NDVI.zones :=
                _identifyVegetationZones pixels (width nirBand) (height nirBand);
              NDVI.alerts :=
                _generateAlerts st
                  (_identifyVegetationZones pixels (width nirBand) (height nirBand));
              NDVI.ndviData :=
                Binary64._normalizeNDVIData
                  (Binary64._computeNDVIPixels (raw nirBand) (raw redBand)) |}.
Proof.
  intros Hw Hh pixels Hst.
  subst calculateNDVI _calculateStatistics. unfold NDVI64.calculateNDVI.
  rewrite Hw, Hh, !Nat.eqb_refl. cbn [negb orb]. cbv zeta.
  fold pixels. rewrite Hst. rewrite <- Hw, <- Hh. reflexivity.
Qed.

Lemma calculateNDVI_throws (now : Date) (nirBand redBand : BandRaster) (e : Error) :
  width nirBand = width redBand -> height nirBand = height redBand ->
  _calculateStatistics (NDVI64._computeNDVIPixels (raw nirBand) (raw redBand)) = Throw e ->
  calculateNDVI now nirBand redBand = Throw e.
Proof.
  intros Hw Hh Hst.
  subst calculateNDVI _calculateStatistics. unfold NDVI64.calculateNDVI.
  rewrite Hw, Hh, !Nat.eqb_refl. cbn [negb orb]. cbv zeta.
  rewrite Hst. reflexivity.
Qed.

(** What [calculateNDVI] returns was computed by the steps of the source:
    any result has the parts that the pixel loop gives. *)
Lemma calculateNDVI_Return64 (now : Date) (nirBand redBand : BandRaster)
  (res : NDVI.NDVIResult) :
  calculateNDVI now nirBand redBand = Return res ->
  let pixels := NDVI64._computeNDVIPixels (raw nirBand) (raw redBand) in
  width nirBand = width redBand /\ height nirBand = height redBand
  /\ _calculateStatistics pixels = Return (NDVI.statistics res)
  /\ NDVI.zones res = _identifyVegetationZones pixels (width nirBand) (height nirBand)
  /\ NDVI.ndviData res
     = Binary64._normalizeNDVIData
         (Binary64._computeNDVIPixels (raw nirBand) (raw redBand)).
Proof.
  subst calculateNDVI _calculateStatistics _identifyVegetationZones.
  intros H pixels. unfold NDVI64.calculateNDVI in H.
  destruct (Nat.eqb_spec (width nirBand) (width redBand)) as [Hw | Hw];
    [| discriminate].
  destruct (Nat.eqb_spec (height nirBand) (height redBand)) as [Hh | Hh];
    [| discriminate].
  cbn [negb orb] in H. cbv zeta in H. fold pixels in H.
  destruct (NDVI64._calculateStatistics argument_limit pixels) as [st |];
    [| discriminate].
  injection H as <-. simpl. auto.
Qed.

(** C1, as amended.  For two bands of equal width and height whose
    buffers hold the same number of samples: there is one index per
    sample; the index of a pair of samples is a finite double in [-1,1],
    the binary64 value of (nir - red) / (nir + red) on the samples divided
    by 255, which is within 2^-51 of the exact quotient, and it is 0 when
    the denominator is zero.  [calculateNDVI] builds its result from these
    indices: when their number does not exceed the argument limit of the
    interpreter, it returns the statistics, the zones, the alerts and the
    grey levels that the functions of the source compute from them; beyond
    the limit it throws the RangeError of [Math.min(...validValues)]. *)
Theorem pixel_index_of_equal_buffers (now : Date) (nirBand redBand : BandRaster) :
  width nirBand = width redBand -> height nirBand = height redBand ->
  length (raw nirBand) = length (raw redBand) ->
  let pixels := NDVI64._computeNDVIPixels (raw nirBand) (raw redBand) in
  length pixels = length (raw nirBand)
  /\ (forall i n r,
        raw nirBand !! i = Some n -> raw redBand !! i = Some r ->
        exists q,
          pixels !! i = Some (Fin q)
          /\ -1 <= q <= 1
          /\ Qabs (q - exact_index n r) <= Double.two_power (-51)
          /\ (normalised n + normalised r == 0 -> q == 0))
  /\ ((Z.of_nat (length pixels) <= argument_limit)%Z ->
      exists res st,
        calculateNDVI now nirBand redBand = Return res
        /\ _calculateStatistics pixels = Return st
        /\ NDVI.statistics res = st
        /\ NDVI.zones res
           = _identifyVegetationZones pixels (width nirBand) (height nirBand)
        /\ NDVI.alerts res = _generateAlerts st (NDVI.zones res)
        /\ NDVI.ndviData res
           = Binary64._normalizeNDVIData
               (Binary64._computeNDVIPixels (raw nirBand) (raw redBand)))
  /\ ((0 < length pixels)%nat -> (argument_limit < Z.of_nat (length pixels))%Z ->
      calculateNDVI now nirBand redBand = Throw NDVI64.spread_error).
Proof.
  intros Hw Hh Hlen pixels.
  pose proof (pixels64_valid _ _ Hlen) as Hvalid. fold pixels in Hvalid.
  pose proof (filter_valid_all _ Hvalid) as Hfilter.
  split; [apply pixels64_length |]. split; [| split].
  - intros i n r Hn Hr. subst pixels.
    rewrite (pixels64_lookup _ _ _ _ Hn). unfold Binary64.sample. rewrite Hr.
    destruct (pixel_facts n r) as (q & k & Hq & Hrange & Hclose & _).
    exists q. rewrite Hq. split; [reflexivity |]. split; [exact Hrange |].
    split; [exact Hclose |].
    intros Hzero.
    assert (Hex : exact_index n r == 0).
    { unfold exact_index. apply Qeq_bool_iff in Hzero. rewrite Hzero. reflexivity. }
    assert (Hnr : n = x00 /\ r = x00).
    { pose proof (normalised_bounds n) as Bn. pose proof (normalised_bounds r) as Br.
      assert (Zn : normalised n == 0) by lra.
      assert (Zr : normalised r == 0) by lra.
      clear - Zn Zr. split; [destruct n | destruct r]; try reflexivity;
        vm_compute in Zn, Zr; discriminate. }
    destruct Hnr as [-> ->]. vm_compute in Hq. injection Hq as <-. reflexivity.
  - intros Hlimit.
    assert (Hst : exists st, _calculateStatistics pixels = Return st).
    { subst _calculateStatistics. unfold NDVI64._calculateStatistics. cbv zeta.
      rewrite Hfilter. destruct (Nat.eqb _ 0); [eexists; reflexivity |].
      apply Z.ltb_ge in Hlimit. rewrite Hlimit. eexists; reflexivity. }
    destruct Hst as [st Hst].
    eexists. exists st. split; [apply (calculateNDVI_parts now _ _ st Hw Hh Hst) |].
    split; [exact Hst |]. repeat split.
  - intros Hpos Hlimit.
    apply calculateNDVI_throws; [exact Hw | exact Hh |].
    fold pixels. subst _calculateStatistics. unfold NDVI64._calculateStatistics.
    cbv zeta. rewrite Hfilter.
    destruct (Nat.eqb_spec (length pixels) 0) as [E | _]; [lia |].
    apply Z.ltb_lt in Hlimit. rewrite Hlimit. reflexivity.
Qed.

End Engine64.

Section Zones64.

Variable Number_toString : number -> string.
Variable this : NDVI.NDVIAnalysisService.
Variable argument_limit : Z.

Let calculateNDVI := NDVI64.calculateNDVI Number_toString this argument_limit.
Let th := NDVI.thresholds this.




(** X14.  The pixel data of a result are the grey levels of the indices,
    one per sample of the near-infrared buffer: where the red buffer has
    the sample too, an integer from 0 to 255 from which the palette's
    reading (level / 127.5 - 1) recovers the exact index within 1/255;
    where the red buffer has no such sample, NaN. *)
Theorem result_data_are_grey_levels (now : Date) (nirBand redBand : BandRaster)
  (res : NDVI.NDVIResult) :
  calculateNDVI now nirBand redBand = Return res ->
  length (NDVI.ndviData res) = length (raw nirBand)
  /\ forall i n,
       raw nirBand !! i = Some n ->
       match raw redBand !! i with
       | Some r =>
           exists k,
             NDVI.ndviData res !! i = Some (Fin (inject_Z k))
             /\ (0 <= k <= 255)%Z
             /\ Qabs (index_of_level k - exact_index n r) <= 1 # 255
       | None => NDVI.ndviData res !! i = Some NaN
       end.
Proof.
  intros Hres.
  destruct (calculateNDVI_Return64 _ _ _ _ _ _ _ Hres) as (_ & _ & _ & _ & ->).
  split.
  { unfold Binary64._normalizeNDVIData, Binary64._computeNDVIPixels.
    rewrite length_map, length_imap. reflexivity. }
  intros i n Hn. rewrite (levels_lookup _ _ _ _ Hn).
  unfold Binary64.sample.
  destruct (raw redBand !! i) as [r |].
  - destruct (pixel_facts n r) as (q & k & _ & _ & _ & Hk & Hrange & Hclose).
    exists k. rewrite Hk. auto.
  - f_equal. apply pixel_without_red.
Qed.

End Zones64.

(** ** The engine: dimension check *)

Section DimensionCheck.

Variable Number_toString : number -> string.

Variable this : NDVI.NDVIAnalysisService.

Let calculateNDVI := NDVI.calculateNDVI Number_toString this.

(** C2.  When the two rasters differ in width or in height, [calculateNDVI]
    throws the dimension error, whatever the clock and the samples: the
    outcome is the exception, and no result record is returned. *)
Theorem calculateNDVI_dimension_mismatch (now : Date) (nirBand redBand : BandRaster) :
  width nirBand <> width redBand \/ height nirBand <> height redBand ->
  calculateNDVI now nirBand redBand = Throw NDVI.dimension_error
  /\ (forall r, calculateNDVI now nirBand redBand <> Return r).
Proof.
  intros Hdiff.
  assert (Hthrow : calculateNDVI now nirBand redBand = Throw NDVI.dimension_error).
  { subst calculateNDVI. unfold NDVI.calculateNDVI.
    destruct (Nat.eqb_spec (width nirBand) (width redBand)) as [Hw | Hw];
      destruct (Nat.eqb_spec (height nirBand) (height redBand)) as [Hh | Hh];
      simpl; try reflexivity.
    destruct Hdiff; contradiction. }
  split; [exact Hthrow | intros r Hr; rewrite Hthrow in Hr; discriminate].
Qed.

End DimensionCheck.

(** ** The engine: alerts *)

Section AlertRules.

Variable Number_toString : number -> string.

Variable this : NDVI.NDVIAnalysisService.

Let th := NDVI.thresholds this.

Let _generateAlerts := NDVI._generateAlerts Number_toString this.


End AlertRules.

(** ** The engine: determinism *)

Section Determinism.

Variable Number_toString : number -> string.

Variable this : NDVI.NDVIAnalysisService.

Let calculateNDVI := NDVI.calculateNDVI Number_toString this.

(** C5, as amended.  For fixed rasters and a fixed service instance
    (which holds the thresholds), two invocations agree on everything but
    the time stamp, which is the clock reading of the invocation: both
    throw the same error, or both return results with the same dimensions,
    statistics, zones, alerts and pixel data. *)
Theorem calculateNDVI_same_up_to_timestamp (now1 now2 : Date)
  (nirBand redBand : BandRaster) :
  match calculateNDVI now1 nirBand redBand, calculateNDVI now2 nirBand redBand with
  | Return r1, Return r2 =>
      NDVI.timestamp r1 = now1 /\ NDVI.timestamp r2 = now2
      /\ NDVI.dimensions r1 = NDVI.dimensions r2
      /\ NDVI.statistics r1 = NDVI.statistics r2
      /\ NDVI.zones r1 = NDVI.zones r2
      /\ NDVI.alerts r1 = NDVI.alerts r2
      /\ NDVI.ndviData r1 = NDVI.ndviData r2
  | Throw e1, Throw e2 => e1 = e2
  | _, _ => False
  end.
Proof.
  subst calculateNDVI. unfold NDVI.calculateNDVI.
  destruct (negb (width nirBand =? width redBand)%nat
            || negb (height nirBand =? height redBand)%nat);
    simpl; auto 10.
Qed.

End Determinism.

(** C5, as stated, fails: the result carries the clock reading. *)
Lemma calculateNDVI_depends_on_clock :
  NDVI.calculateNDVI no_text default_service 0%Z raster_1x1 raster_1x1
  <> NDVI.calculateNDVI no_text default_service 1%Z raster_1x1 raster_1x1.
Proof.
  intros H.
  assert (Ht : forall r1 r2 : NDVI.NDVIResult,
             Return r1 = Return r2 -> NDVI.timestamp r1 = NDVI.timestamp r2)
    by (intros r1 r2 [= ->]; reflexivity).
  apply Ht in H. vm_compute in H. discriminate H.
Qed.

(** ** The engine: instances *)

(** C1, as stated, fails: the two bands of one pixel have the same width
    and height, but the near-infrared band was decoded with two channels
    and the red band with one.  The second index is computed from a sample
    that the red buffer does not have, and is NaN; so is its grey level in
    the result. *)
Lemma unequal_channels_give_NaN :
  width grey_alpha_nir = width grey_red /\ height grey_alpha_nir = height grey_red
  /\ (exists res,
         NDVI64.calculateNDVI no_text binary64_service sample_argument_limit 0%Z
           grey_alpha_nir grey_red = Return res
         /\ NDVI.ndviData res !! 1%nat = Some NaN)
  /\ NDVI64._computeNDVIPixels (raw grey_alpha_nir) (raw grey_red) !! 1%nat = Some NaN
  /\ ~ Forall (fun x => exists q, x = Fin q /\ -1 <= q <= 1)
              (NDVI64._computeNDVIPixels (raw grey_alpha_nir) (raw grey_red)).
Proof.
  split; [reflexivity |]. split; [reflexivity |].
  split; [eexists; split; vm_compute; reflexivity |].
  assert (H : NDVI64._computeNDVIPixels (raw grey_alpha_nir) (raw grey_red) !! 1%nat
              = Some NaN) by (vm_compute; reflexivity).
  split; [exact H |].
  intros Hall. rewrite Forall_lookup in Hall.
  destruct (Hall 1%nat NaN H) as (q & Hq & _). discriminate Hq.
Qed.

Lemma pixel_index_of_equal_buffers_witness :
  width raster_2x1 = width raster_2x1' /\ height raster_2x1 = height raster_2x1'
  /\ length (raw raster_2x1) = length (raw raster_2x1')
  /\ (exists q,
        NDVI64._computeNDVIPixels (raw raster_2x1) (raw raster_2x1') !! 0%nat
        = Some (Fin q)
        /\ -1 <= q <= 1
        /\ Qabs (q - exact_index "!"%byte x1f) <= Double.two_power (-51))
  /\ exists res,
       NDVI64.calculateNDVI no_text binary64_service sample_argument_limit 0%Z
         raster_2x1 raster_2x1' = Return res.
Proof.
  assert (H1 : width raster_2x1 = width raster_2x1') by reflexivity.
  assert (H2 : height raster_2x1 = height raster_2x1') by reflexivity.
  assert (H3 : length (raw raster_2x1) = length (raw raster_2x1')) by reflexivity.
  split; [exact H1 |]. split; [exact H2 |]. split; [exact H3 |].
  destruct (pixel_index_of_equal_buffers no_text binary64_service sample_argument_limit
              0%Z raster_2x1 raster_2x1' H1 H2 H3) as (_ & Hpix & Hres & _).
  split.
  - destruct (Hpix 0%nat "!"%byte x1f eq_refl eq_refl) as (q & Hq & Hrange & Hclose & _).
    exists q. auto.
  - destruct Hres as (res & _ & Hres & _); [vm_compute; discriminate |].
    exists res. exact Hres.
Defined.

(** The rounded operations of [Double] give what the hardware gives: on
    sixteen pairs of samples, those of the instances among them, the pixel
    loop written with [Double] computes the pixel of [Binary64]. *)
Example double_agrees_with_hardware :
  forallb (fun '(n, r) =>
             number_eqb (double_pixel n r)
                        (Binary64.to_number
                           (Binary64.ndvi_pixel (Binary64.of_byte n) (Binary64.of_byte r))))
          [(x43, xfd); (x80, x40); ("!"%byte, x1f); (x15, x0e); (x01, x09);
           (xff, x00); (x00, xff); (x00, x00); (x01, x02); (x02, x01); (x03, x07);
           (xfe, xff); (x7f, x80); (x64, x32); (x0a, xf5); (xc8, x37)]
  = true.
Proof. vm_compute. reflexivity. Qed.

Lemma calculateNDVI_dimension_mismatch_witness :
  (width raster_2x1 <> width raster_1x1 \/ height raster_2x1 <> height raster_1x1)
  /\ NDVI.calculateNDVI no_text default_service 0%Z raster_2x1 raster_1x1
     = Throw NDVI.dimension_error.
Proof.
  assert (H : width raster_2x1 <> width raster_1x1
              \/ height raster_2x1 <> height raster_1x1) by (left; simpl; lia).
  split; [exact H |].
  apply (calculateNDVI_dimension_mismatch no_text default_service
           0%Z raster_2x1 raster_1x1 H).
Defined.

(** C10, as stated, fails: six pixels of the samples 67 and 253 all have
    the index -0.5812500000000000444 (the double nearest to -0.58125), so
    the minimum and the maximum are -0.5813; their running sum divided by
    six is -0.5812499999999999334, and the average -0.5812, above the
    maximum. *)
Lemma average_above_maximum :
  Forall (fun x => NDVI.valid_value x = true) six_pixels
  /\ exists st,
       NDVI64._calculateStatistics sample_argument_limit six_pixels = Return st
       /\ NDVI.min st = Double.decimal 4 (-5813)
       /\ NDVI.max st = Double.decimal 4 (-5813)
       /\ NDVI.average st = Double.decimal 4 (-5812)
       /\ ~ (num_le (NDVI.min st) (NDVI.average st)
             /\ num_le (NDVI.average st) (NDVI.max st)).
Proof.
  split; [repeat constructor |].
  eexists. split; [vm_compute; reflexivity |].
  split; [vm_compute; reflexivity |]. split; [vm_compute; reflexivity |].
  split; [vm_compute; reflexivity |].
  intros [_ H]. vm_compute in H. discriminate H.
Qed.

Lemma statistics_bounds_witness :
  (Z.of_nat (length six_pixels) < 2 ^ 32)%Z
  /\ exists st,
       NDVI64._calculateStatistics sample_argument_limit six_pixels = Return st
       /\ num_le (NDVI.min st) (NDVI.max st)
       /\ num_le (Fin 0) (NDVI.std st)
       /\ NDVI.validPixels st = Some 6%nat.
Proof.
  assert (H : (Z.of_nat (length six_pixels) < 2 ^ 32)%Z) by (vm_compute; reflexivity).
  split; [exact H |].
  destruct (statistics_bounds sample_argument_limit six_pixels H) as (_ & _ & _ & Hmain).
  destruct Hmain as (st & nmin & navg & nmax & Hst & _ & _ & _ & _ & _ & Hmm & Hstd & Hv & _);
    [vm_compute; lia | vm_compute; discriminate |].
  exists st. split; [exact Hst |]. split; [exact Hmm |]. split; [exact Hstd |].
  exact Hv.
Defined.




Local Close Scope Q_scope.

(** ** Aggregation: the key of the [seen] set *)

Lemma list_ascii_app (s t : string) :
  String.list_ascii_of_string (s +:+ t) = String.list_ascii_of_string s ++ String.list_ascii_of_string t.
Proof. induction s as [| c s IH]; simpl; [reflexivity | f_equal; exact IH]. Qed.

Lemma list_ascii_inj (s t : string) :
  String.list_ascii_of_string s = String.list_ascii_of_string t -> s = t.
Proof.
  intros H. rewrite <- (String.string_of_list_ascii_of_string s),
              <- (String.string_of_list_ascii_of_string t), H. reflexivity.
Qed.

(** The text [type-severity] determines both parts: the four severities
    end in different letters. *)
Lemma key_text_inj (t1 t2 : string) (s1 s2 : Severity) :
  t1 +:+ "-" +:+ severity_string s1 = t2 +:+ "-" +:+ severity_string s2 ->
  t1 = t2 /\ s1 = s2.
Proof.
  intros H. apply (f_equal String.list_ascii_of_string) in H.
  rewrite !list_ascii_app in H.
  apply (f_equal (@rev _)) in H. rewrite !rev_app_distr in H.
  destruct s1, s2; simpl in H; try discriminate H;
    (split; [| reflexivity]);
    apply list_ascii_inj, rev_inj;
    repeat match type of H with _ :: _ = _ :: _ => injection H as H end; exact H.
Qed.

Lemma dedup_key_alert_key (a b : Alerts.Alert) :
  Alerts.farmId a = Alerts.farmId b ->
  Alerts.dedup_key a = Alerts.dedup_key b <-> alert_key a = alert_key b.
Proof.
  intros Hfarm. unfold Alerts.dedup_key, alert_key. split.
  - intros H. apply key_text_inj in H as [-> ->]. rewrite Hfarm. reflexivity.
  - intros [= _ -> ->]. reflexivity.
Qed.

(** ** Aggregation: removing duplicates *)

Lemma filter_unseen_elem (seen : gset string) (l : list Alerts.Alert) (x : Alerts.Alert) :
  x ∈ Alerts.filter_unseen seen l -> x ∈ l /\ Alerts.dedup_key x ∉ seen.
Proof.
  revert seen. induction l as [| a l IH]; intros seen; simpl.
  - intros H. inversion H.
  - destruct (decide (Alerts.dedup_key a ∈ seen)) as [Ha | Ha].
    + intros H. destruct (IH _ H) as [H1 H2]. split; [right; exact H1 | exact H2].
    + intros H. apply elem_of_cons in H as [Heq | H].
      * subst x. split; [left | exact Ha].
      * destruct (IH _ H) as [H1 H2]. split; [right; exact H1 |].
        intros Hs. apply H2, elem_of_union. right. exact Hs.
Qed.

Lemma filter_unseen_sublist (seen : gset string) (l : list Alerts.Alert) :
  sublist (Alerts.filter_unseen seen l) l.
Proof.
  revert seen. induction l as [| a l IH]; intros seen; simpl.
  - constructor.
  - destruct (decide (Alerts.dedup_key a ∈ seen)).
    + apply sublist_cons, IH.
    + apply sublist_skip, IH.
Qed.

Lemma filter_unseen_NoDup (seen : gset string) (l : list Alerts.Alert) :
  NoDup (map Alerts.dedup_key (Alerts.filter_unseen seen l)).
Proof.
  revert seen. induction l as [| a l IH]; intros seen; simpl.
  - constructor.
  - destruct (decide (Alerts.dedup_key a ∈ seen)); [apply IH |].
    simpl. constructor; [| apply IH].
    intros Hin. apply list_elem_of_fmap in Hin as (x & Hk & Hx).
    apply filter_unseen_elem in Hx as [_ Hx]. rewrite <- Hk in Hx. set_solver.
Qed.

Lemma filter_unseen_covers (seen : gset string) (l : list Alerts.Alert) (x : Alerts.Alert) :
  x ∈ l -> Alerts.dedup_key x ∉ seen ->
  exists y, y ∈ Alerts.filter_unseen seen l /\ Alerts.dedup_key y = Alerts.dedup_key x.
Proof.
  revert seen. induction l as [| a l IH]; intros seen Hx Hseen.
  - inversion Hx.
  - simpl. destruct (decide (Alerts.dedup_key a ∈ seen)) as [Ha | Ha].
    + apply elem_of_cons in Hx as [Heq | Hx]; [subst x; contradiction |].
      apply IH; assumption.
    + destruct (decide (Alerts.dedup_key x = Alerts.dedup_key a)) as [E | E].
      * exists a. split; [left | symmetry; exact E].
      * apply elem_of_cons in Hx as [Heq | Hx]; [subst x; congruence |].
        assert (Hnew : Alerts.dedup_key x ∉ {[Alerts.dedup_key a]} ∪ seen).
        { intros Hs. apply elem_of_union in Hs as [Hs | Hs]; [| contradiction].
          apply elem_of_singleton in Hs. contradiction. }
        destruct (IH _ Hx Hnew) as (y & Hy & Hk).
        exists y. split; [right; exact Hy | exact Hk].
Qed.

Lemma filter_unseen_first (seen : gset string) (l : list Alerts.Alert) (b : Alerts.Alert) :
  b ∈ Alerts.filter_unseen seen l -> first_with_key Alerts.dedup_key l b.
Proof.
  revert seen. induction l as [| a l IH]; intros seen; simpl.
  - intros H. inversion H.
  - assert (Hshift : forall seen', b ∈ Alerts.filter_unseen seen' l ->
                       Alerts.dedup_key a <> Alerts.dedup_key b ->
                       first_with_key Alerts.dedup_key (a :: l) b).
    { intros seen' Hb Hne. destruct (IH seen' Hb) as (i & Hi & Hfirst).
      exists (S i). split; [exact Hi |].
      intros [| j] x Hj Hx; simpl in Hx.
      - injection Hx as <-. exact Hne.
      - apply (Hfirst j); [lia | exact Hx]. }
    destruct (decide (Alerts.dedup_key a ∈ seen)) as [Ha | Ha].
    + intros Hb. apply (Hshift seen Hb).
      apply filter_unseen_elem in Hb as [_ Hb]. congruence.
    + intros Hb. apply elem_of_cons in Hb as [Heq | Hb].
      * subst b. exists 0%nat. split; [reflexivity | intros j x Hj; lia].
      * apply (Hshift _ Hb).
        apply filter_unseen_elem in Hb as [_ Hb]. set_solver.
Qed.

(** ** Aggregation: the stable sort *)

Section Sort.

Context {A : Type} (rank : A -> Z).

Let cmp := by_rank_descending rank.

Let desc := descending rank.

Lemma sort_insert_perm (x : A) (l : list A) : Alerts.sort_insert cmp x l ≡ₚ x :: l.
Proof.
  induction l as [| y l IH]; simpl; [reflexivity |].
  destruct (cmp x y <=? 0)%Z; [reflexivity |].
  rewrite IH. apply Permutation_swap.
Qed.

Lemma Array_sort_perm (l : list A) : Alerts.Array_sort cmp l ≡ₚ l.
Proof.
  induction l as [| x l IH]; simpl; [reflexivity |].
  rewrite sort_insert_perm, IH. reflexivity.
Qed.

Lemma sort_insert_sorted (x : A) (l : list A) :
  StronglySorted desc l -> StronglySorted desc (Alerts.sort_insert cmp x l).
Proof.
  induction 1 as [| y l Hl IH Hy]; simpl.
  - repeat constructor.
  - destruct (Z.leb_spec (cmp x y) 0) as [Hc | Hc];
      unfold cmp, by_rank_descending in Hc.
    + constructor; [constructor; assumption |].
      constructor; [unfold desc, descending; lia |].
      eapply Forall_impl; [exact Hy |].
      unfold desc, descending. intros z Hz. lia.
    + constructor; [exact IH |].
      rewrite sort_insert_perm.
      constructor; [unfold desc, descending; lia | exact Hy].
Qed.

Lemma Array_sort_sorted (l : list A) : StronglySorted desc (Alerts.Array_sort cmp l).
Proof.
  induction l as [| x l IH]; simpl; [constructor | apply sort_insert_sorted, IH].
Qed.

(** Stability: the elements of one rank keep their order. *)
Lemma sort_insert_rank (r : Z) (x : A) (l : list A) :
  filter (fun a => rank a = r) (Alerts.sort_insert cmp x l)
  = filter (fun a => rank a = r) (x :: l).
Proof.
  induction l as [| y l IH]; simpl; [reflexivity |].
  destruct (Z.leb_spec (cmp x y) 0) as [Hle | Hgt]; [reflexivity |].
  unfold cmp, by_rank_descending in Hgt.
  rewrite (filter_cons _ y), IH, !filter_cons.
  destruct (decide (rank y = r)), (decide (rank x = r)); try reflexivity. lia.
Qed.

Lemma Array_sort_rank (r : Z) (l : list A) :
  filter (fun a => rank a = r) (Alerts.Array_sort cmp l)
  = filter (fun a => rank a = r) l.
Proof.
  induction l as [| x l IH]; simpl; [reflexivity |].
  rewrite sort_insert_rank, !filter_cons, IH. reflexivity.
Qed.

End Sort.

(** ** Aggregation: persistence *)

Lemma priorityOrder_inj (s t : Severity) :
  Alerts.priorityOrder s = Alerts.priorityOrder t -> s = t.
Proof. destruct s, t; simpl; intros H; congruence. Qed.

Lemma NoDup_map_transfer {A K1 K2 : Type} (k1 : A -> K1) (k2 : A -> K2) (l : list A) :
  (forall a b, a ∈ l -> b ∈ l -> k2 a = k2 b -> k1 a = k1 b) ->
  NoDup (map k1 l) -> NoDup (map k2 l).
Proof.
  induction l as [| a l IH]; intros Hk Hnd; [constructor |].
  simpl in *. apply NoDup_cons in Hnd as [Ha Hl].
  constructor.
  - intros Hm. apply Ha. apply list_elem_of_fmap in Hm as (b & Hab & Hb).
    apply list_elem_of_fmap. exists b. split; [| exact Hb].
    apply Hk; [left | right; exact Hb | exact Hab].
  - apply IH; [| exact Hl]. intros x y Hx Hy. apply Hk; right; assumption.
Qed.

Section Aggregation.

Variable toLowerCase : string -> string.

Variable now : Date.

Variable insert_throws : Alerts.Alert -> bool.

Variable sendMessage_throws : Alerts.Call -> bool.

Lemma _saveAlerts_from_spec (farm : string) (alerts : list Alerts.Alert)
  (acc table : list Alerts.AlertRow) :
  exists new,
    Alerts._saveAlerts_from insert_throws farm alerts acc table
    = (acc ++ new, table ++ new)
    /\ sublist (map row_key new)
               (map (fun a => (farm, Alerts.type a, Alerts.severity a)) alerts).
Proof.
  revert acc table. induction alerts as [| a alerts IH]; intros acc table; simpl.
  - exists []. rewrite !app_nil_r. split; [reflexivity | constructor].
  - destruct (insert_throws a).
    + destruct (IH acc table) as (new & Heq & Hsub).
      exists new. split; [exact Heq | apply sublist_cons, Hsub].
    + destruct (IH (acc ++ [Alerts.row_of farm a])
                   (table ++ [Alerts.row_of farm a]))
        as (new & Heq & Hsub).
      exists (Alerts.row_of farm a :: new).
      rewrite Heq, <- !app_assoc. split; [reflexivity |].
      simpl. apply sublist_skip, Hsub.
Qed.

Lemma _processNDVIAlerts_farm (ndviAnalysis : option NDVI.NDVIResult)
  (farmInfo : Alerts.FarmInfo) :
  Forall (fun a => Alerts.farmId a = Alerts.id farmInfo)
         (Alerts._processNDVIAlerts now ndviAnalysis farmInfo).
Proof.
  unfold Alerts._processNDVIAlerts. destruct ndviAnalysis as [analysis |]; [| constructor].
  apply Forall_fmap, Forall_true. reflexivity.
Qed.

Lemma _processClaudeAlerts_farm (claudeAnalysis : option Alerts.ClaudeAnalysis)
  (farmInfo : Alerts.FarmInfo) :
  Forall (fun a => Alerts.farmId a = Alerts.id farmInfo)
         (Alerts._processClaudeAlerts toLowerCase now claudeAnalysis farmInfo).
Proof.
  unfold Alerts._processClaudeAlerts.
  destruct claudeAnalysis as [analysis |]; [| constructor].
  destruct (Alerts.findings analysis) as [fs |]; [| constructor].
  assert (H : Forall (fun a => Alerts.farmId a = Alerts.id farmInfo)
                     (map (Alerts.finding_alert toLowerCase now analysis farmInfo) fs))
    by (apply Forall_fmap, Forall_true; reflexivity).
  destruct (Alerts.riskAssessment analysis ≫= Alerts.overallRisk) as [risk |];
    [| exact H].
  destruct (String.eqb risk "high"); [| exact H].
  apply Forall_app. split; [exact H | repeat constructor].
Qed.

(** [processAnalysisAlerts] aggregates the alerts of the two analyses of
    one farm, those of the index analysis first: its alerts all carry the
    farm's id, and what it saves is what [_saveAlerts] saves of the
    prioritised list. *)
Lemma processAnalysisAlerts_aggregates
  (whatsappEnabled : bool) (today : string) (table : list Alerts.AlertRow)
  (farmInfo : Alerts.FarmInfo)
  (ndviAnalysis : option NDVI.NDVIResult)
  (claudeAnalysis : option Alerts.ClaudeAnalysis) :
  let ndviAlerts := Alerts._processNDVIAlerts now ndviAnalysis farmInfo in
  let claudeAlerts := Alerts._processClaudeAlerts toLowerCase now claudeAnalysis farmInfo in
  let kept := Alerts._prioritizeAlerts (ndviAlerts ++ claudeAlerts) in
  let out :=
    Alerts.processAnalysisAlerts toLowerCase now insert_throws sendMessage_throws
      whatsappEnabled today table farmInfo ndviAnalysis claudeAnalysis in
  Forall (fun a => Alerts.farmId a = Alerts.id farmInfo) (ndviAlerts ++ claudeAlerts)
  /\ (Alerts.savedAlerts out, Alerts.farm_alerts out)
     = Alerts._saveAlerts insert_throws (Alerts.id farmInfo) kept table.
Proof.
  intros ndviAlerts claudeAlerts kept out. split.
  - apply Forall_app. split;
      [apply _processNDVIAlerts_farm | apply _processClaudeAlerts_farm].
  - subst out. unfold Alerts.processAnalysisAlerts. cbv zeta.
    fold ndviAlerts claudeAlerts. fold kept.
    destruct (Alerts._saveAlerts _ _ _ _). reflexivity.
Qed.

(** C6.  For the alerts of one farm, those of the index analysis emitted
    before those of the vision analysis, each of one of the four
    severities: the alerts kept have pairwise different keys (farmId,
    type, severity); every key emitted is kept; each alert kept is the
    first one emitted with its key; the alerts kept are in descending
    order of severity rank, and within one severity in the order of
    emission; and the rows saved are rows of alerts kept, in their order,
    at most one per key. *)
Theorem aggregation_first_kept_and_sorted
  (farm : string) (table : list Alerts.AlertRow)
  (ndviAlerts claudeAlerts : list Alerts.Alert) :
  Forall (fun a => Alerts.farmId a = farm) (ndviAlerts ++ claudeAlerts) ->
  let emitted := ndviAlerts ++ claudeAlerts in
  let unique := Alerts._removeDuplicateAlerts emitted in
  let kept := Alerts._prioritizeAlerts emitted in
  let saved := Alerts._saveAlerts insert_throws farm kept table in
  NoDup (map alert_key kept)
  /\ (forall a, a ∈ emitted -> exists b, b ∈ kept /\ alert_key b = alert_key a)
  /\ (forall b, b ∈ kept -> first_with_key alert_key emitted b)
  /\ StronglySorted (descending alert_rank) kept
  /\ (sublist unique emitted
      /\ kept ≡ₚ unique
      /\ forall s, filter (fun a => Alerts.severity a = s) kept
                   = filter (fun a => Alerts.severity a = s) unique)
  /\ (sublist (map row_key saved.1) (map alert_key kept)
      /\ NoDup (map row_key saved.1))
  /\ saved.2 = table ++ saved.1.
Proof.
  intros Hfarm emitted unique kept saved. fold emitted in Hfarm.
  rewrite Forall_forall in Hfarm.
  assert (Hkey : forall a b, a ∈ emitted -> b ∈ emitted ->
                   Alerts.dedup_key a = Alerts.dedup_key b <-> alert_key a = alert_key b).
  { intros a b Ha Hb. apply dedup_key_alert_key.
    rewrite (Hfarm a Ha), (Hfarm b Hb). reflexivity. }
  assert (Hsub : sublist unique emitted) by apply filter_unseen_sublist.
  assert (Hin : forall a, a ∈ unique -> a ∈ emitted).
  { intros a Ha. eapply elem_of_sublist; eauto. }
  assert (Hperm : kept ≡ₚ unique) by apply (Array_sort_perm alert_rank).
  assert (Hnodup : NoDup (map alert_key kept)).
  { rewrite Hperm.
    apply (NoDup_map_transfer Alerts.dedup_key); [| apply filter_unseen_NoDup].
    intros a b Ha Hb Hk. apply Hkey; auto. }
  split; [exact Hnodup |].
  split.
  { intros a Ha.
    destruct (filter_unseen_covers ∅ emitted a Ha ltac:(set_solver)) as (b & Hb & Hk).
    exists b. split; [rewrite Hperm; exact Hb |].
    apply Hkey; [apply Hin, Hb | exact Ha | exact Hk]. }
  split.
  { intros b Hb. rewrite Hperm in Hb.
    destruct (filter_unseen_first ∅ emitted b Hb) as (i & Hi & Hfirst).
    exists i. split; [exact Hi |].
    intros j a Hj Ha Hk. apply (Hfirst j a Hj Ha).
    apply Hkey; [eapply list_elem_of_lookup_2; eauto | apply Hin, Hb | exact Hk]. }
  split; [apply (Array_sort_sorted alert_rank) |].
  split.
  { split; [exact Hsub |]. split; [exact Hperm |].
    intros s.
    rewrite (list_filter_iff (fun a => Alerts.severity a = s)
               (fun a => alert_rank a = Alerts.priorityOrder s) kept),
            (list_filter_iff (fun a => Alerts.severity a = s)
               (fun a => alert_rank a = Alerts.priorityOrder s) unique).
    - apply (Array_sort_rank alert_rank).
    - intros a. split; [intros <-; reflexivity | apply priorityOrder_inj].
    - intros a. split; [intros <-; reflexivity | apply priorityOrder_inj]. }
  subst saved. unfold Alerts._saveAlerts.
  destruct (_saveAlerts_from_spec farm kept [] table) as (new & Heq & Hnew).
  rewrite Heq. simpl.
  assert (Hrows : sublist (map row_key new) (map alert_key kept)).
  { replace (map alert_key kept)
      with (map (fun a => (farm, Alerts.type a, Alerts.severity a)) kept);
      [exact Hnew |].
    apply map_ext_in. intros a Ha. unfold alert_key.
    rewrite (Hfarm a); [reflexivity |].
    apply Hin. rewrite <- Hperm. apply list_elem_of_In, Ha. }
  split; [| reflexivity].
  split; [exact Hrows | eapply sublist_NoDup; eauto].
Qed.

End Aggregation.

Lemma aggregation_first_kept_and_sorted_witness :
  Forall (fun a => Alerts.farmId a = "farm-1") ([variability0; stress0] ++ [stress0])
  /\ Alerts._prioritizeAlerts ([variability0; stress0] ++ [stress0])
     = [stress0; variability0]
  /\ StronglySorted (descending alert_rank)
       (Alerts._prioritizeAlerts ([variability0; stress0] ++ [stress0])).
Proof.
  assert (H : Forall (fun a => Alerts.farmId a = "farm-1")
                     ([variability0; stress0] ++ [stress0]))
    by (repeat constructor).
  split; [exact H |]. split; [reflexivity |].
  destruct (aggregation_first_kept_and_sorted (fun _ => false) "farm-1" []
              [variability0; stress0] [stress0] H)
    as (_ & _ & _ & Hsorted & _).
  exact Hsorted.
Defined.

(** ** Notification *)

Lemma append_cons (c : Ascii.ascii) (s t : string) :
  String c s +:+ t = String c (s +:+ t).
Proof. reflexivity. Qed.









Section Notification.

Variable sendMessage_throws : Alerts.Call -> bool.

Let _sendWhatsAppAlerts := Alerts._sendWhatsAppAlerts sendMessage_throws.


End Notification.



(** ** The daily job *)

Lemma keeps_flag_ret {A : Type} (a : A) : keeps_flag (mret a : Job.M A).
Proof. intros s. reflexivity. Qed.

Lemma keeps_flag_bind {A B : Type} (m : Job.M A) (k : A -> Job.M B) :
  keeps_flag m -> (forall a, keeps_flag (k a)) -> keeps_flag (m ≫= k).
Proof.
  intros Hm Hk s. unfold mbind, Job.M_bind.
  specialize (Hm s). destruct (m s) as [a s']. simpl in *.
  rewrite Hk. exact Hm.
Qed.

Lemma keeps_flag_emit (e : Job.Event) : keeps_flag (Job.emit e).
Proof. intros s. reflexivity. Qed.

Lemma keeps_flag_statistics (f : Job.RunStatistics -> Job.RunStatistics) :
  keeps_flag (Job.modify_statistics f).
Proof. intros s. reflexivity. Qed.

Lemma keeps_flag_get_job : keeps_flag Job.get_job.
Proof. intros s. reflexivity. Qed.

Create HintDb flag.

#[local] Hint Resolve keeps_flag_ret keeps_flag_emit keeps_flag_statistics
  keeps_flag_get_job : flag.

Ltac flag :=
  repeat first
    [ solve [auto with flag]
    | progress cbv zeta
    | apply keeps_flag_bind; [| intros ?]
    | match goal with
      | |- keeps_flag (if ?c then _ else _) => destruct c
      | |- keeps_flag (match ?x with _ => _ end) => destruct x
      end ].

Lemma keeps_flag_for_each {A : Type} (f : A -> Job.M unit) (l : list A) :
  (forall x, keeps_flag (f x)) -> keeps_flag (Job.for_each f l).
Proof. intros Hf. induction l as [| x l IH]; simpl; flag. Qed.

Section RunFacts.

Variable env : Job.Env.

Lemma keeps_flag_send_each (failure : string) (contacts : list string) (message : string) :
  keeps_flag (Job.send_each env failure contacts message).
Proof. induction contacts as [| c l IH]; simpl; flag. Qed.

Lemma keeps_flag__getActiveFarms : keeps_flag (Job._getActiveFarms env).
Proof. unfold Job._getActiveFarms. flag. Qed.

Lemma keeps_flag_send_alerts (farm : Job.Farm) : keeps_flag (Job.send_alerts env farm).
Proof. apply keeps_flag_for_each. intros call. apply keeps_flag_emit. Qed.

#[local] Hint Resolve keeps_flag_send_each keeps_flag__getActiveFarms
  keeps_flag_send_alerts : flag.

Lemma keeps_flag__analyzeFarmDaily (farm : Job.Farm) :
  keeps_flag (Job._analyzeFarmDaily env farm).
Proof. unfold Job._analyzeFarmDaily, Job._saveAnalysisError. flag. Qed.

#[local] Hint Resolve keeps_flag_for_each keeps_flag__analyzeFarmDaily : flag.

Lemma keeps_flag_process_batches (fuel i : nat) (farms : list Job.Farm) :
  keeps_flag (Job.process_batches env fuel i farms).
Proof.
  revert i. induction fuel as [| fuel IH]; intros i; simpl; flag.
Qed.

Lemma keeps_flag__generateDailyReport : keeps_flag (Job._generateDailyReport env).
Proof.
  unfold Job._generateDailyReport, Job._sendAdminReport. flag.
Qed.

#[local] Hint Resolve keeps_flag_process_batches keeps_flag__generateDailyReport : flag.

(** From its first statement to the end of the [try] block, a run holds
    the flag: the prologue sets it before the first [await], and nothing
    after it clears it. *)
Lemma run_prologue_sets_flag (s : Job.State) :
  Job.isRunning (Job.job (Job.run_prologue env s).2) = true.
Proof. reflexivity. Qed.

Lemma run_body_holds_flag (s : Job.State) :
  Job.isRunning (Job.job (Job.run_body env s).2) = true.
Proof.
  unfold Job.run_body.
  change (Job.run_prologue env;; ?k) with (Job.run_prologue env ≫= fun _ => k).
  unfold mbind at 1, Job.M_bind at 1.
  destruct (Job.run_prologue env s) as [[] s'] eqn:E.
  assert (Hs' : Job.isRunning (Job.job s') = true).
  { pose proof (run_prologue_sets_flag s) as H. rewrite E in H. exact H. }
  rewrite <- Hs'.
  match goal with |- Job.isRunning (Job.job (?m s').2) = _ => assert (keeps_flag m) as Hk end.
  { flag. }
  apply Hk.
Qed.

(** The [try] block never throws: every callee catches its own errors, so
    the [catch] block of the run, which would notify the administrators,
    is never entered. *)
Lemma bind_value {A B : Type} (m : Job.M A) (k : A -> Job.M B) (P : B -> Prop)
  (s : Job.State) :
  (forall a s', P (k a s').1) -> P ((m ≫= k) s).1.
Proof.
  intros H. unfold mbind, Job.M_bind. destruct (m s) as [a s']. apply H.
Qed.

Lemma run_body_returns (s : Job.State) : (Job.run_body env s).1 = Return tt.
Proof.
  unfold Job.run_body.
  repeat (apply bind_value; intros ? ?).
  match goal with |- context [if ?c then _ else _] => destruct c end;
    repeat (apply bind_value; intros ? ?); reflexivity.
Qed.

(** C8.  A start request that finds the flag set returns at once: the job
    object, with its statistics, is left as it was, and the only thing
    done is to log the warning; in particular no farm is analysed. *)
Theorem start_while_running_is_noop (s : Job.State) :
  Job.isRunning (Job.job s) = true ->
  Job.runDailySatelliteAnalysis env s
  = (tt, {| Job.job := Job.job s; Job.trace := Job.trace s ++ [warning] |})
  /\ Job.statistics (Job.job (Job.runDailySatelliteAnalysis env s).2)
     = Job.statistics (Job.job s)
  /\ (forall farm,
        Job.AnalyzeFarm farm ∈ Job.trace (Job.runDailySatelliteAnalysis env s).2 ->
        Job.AnalyzeFarm farm ∈ Job.trace s).
Proof.
  intros Hrun.
  assert (Heq : Job.runDailySatelliteAnalysis env s
                = (tt, {| Job.job := Job.job s; Job.trace := Job.trace s ++ [warning] |})).
  { unfold Job.runDailySatelliteAnalysis, mbind, Job.M_bind, Job.get_job.
    rewrite Hrun. reflexivity. }
  rewrite Heq. simpl. split; [reflexivity |]. split; [reflexivity |].
  intros farm Hin. apply elem_of_app in Hin as [Hin | Hin]; [exact Hin |].
  apply list_elem_of_singleton in Hin. discriminate Hin.
Qed.

Lemma empty_listing_run (s : Job.State) :
  Job.isRunning (Job.job s) = false ->
  Job.farms_query env = Return [] ->
  Job.runDailySatelliteAnalysis env s
  = (tt, {| Job.job := idle_after_empty_run env;
            Job.trace := Job.trace s ++ empty_run_log |}).
Proof.
  intros Hidle Hq.
  unfold Job.runDailySatelliteAnalysis, Job.run_body, Job.run_prologue,
    Job._getActiveFarms, mbind, Job.M_bind, Job.get_job.
  rewrite Hidle, Hq. simpl. rewrite <- !app_assoc. reflexivity.
Qed.

(** C9, as amended.  When listing the farms fails, the failure is logged
    and the run goes on as with an empty list: no farm is analysed, no
    report is saved, no message is sent to anyone, and the job is idle
    again with all statistics at zero.  The events are those of a run over
    an empty list plus the error line. *)
Theorem listing_failure_is_empty_run (s : Job.State) (e : Error) :
  Job.isRunning (Job.job s) = false ->
  Job.farms_query env = Throw e ->
  Job.runDailySatelliteAnalysis env s
  = (tt, {| Job.job := idle_after_empty_run env;
            Job.trace := Job.trace s ++ take 1 empty_run_log ++ [listing_error_log]
                         ++ drop 1 empty_run_log |})
  /\ (forall ev, ev ∈ Job.trace (Job.runDailySatelliteAnalysis env s).2 ->
      ev ∈ Job.trace s
      \/ match ev with
         | Job.LogInfo _ | Job.LogError _ => True
         | _ => False
         end).
Proof.
  intros Hidle Hq.
  assert (Heq : Job.runDailySatelliteAnalysis env s
                = (tt, {| Job.job := idle_after_empty_run env;
                          Job.trace := Job.trace s ++ take 1 empty_run_log
                                       ++ [listing_error_log]
                                       ++ drop 1 empty_run_log |})).
  { unfold Job.runDailySatelliteAnalysis, Job.run_body, Job.run_prologue,
      Job._getActiveFarms, mbind, Job.M_bind, Job.get_job.
    rewrite Hidle, Hq. simpl. rewrite <- !app_assoc. reflexivity. }
  split; [exact Heq |].
  rewrite Heq. simpl. intros ev Hin.
  apply elem_of_app in Hin as [Hin | Hin]; [left; exact Hin | right].
  repeat (apply elem_of_cons in Hin as [-> | Hin]; [exact I |]).
  inversion Hin.
Qed.

End RunFacts.

(** C9, as stated, fails: the listing fails with an administrator contact
    configured, and yet no message is sent and the run ends like any run
    over an empty list, idle and without error. *)
Lemma listing_failure_not_notified :
  (exists e, Job.farms_query failing_listing = Throw e)
  /\ Job.ADMIN_WHATSAPP_CONTACTS failing_listing <> []
  /\ ~ (exists phone message,
          Job.SendMessage phone message
          ∈ Job.trace (Job.runDailySatelliteAnalysis failing_listing idle).2)
  /\ Job.job (Job.runDailySatelliteAnalysis failing_listing idle).2
     = Job.job (Job.runDailySatelliteAnalysis empty_listing idle).2.
Proof.
  split; [eexists; reflexivity |].
  split; [discriminate |].
  split; [| reflexivity].
  intros (phone & message & Hin).
  vm_compute in Hin.
  repeat (apply elem_of_cons in Hin as [Hin | Hin]; [discriminate Hin |]).
  inversion Hin.
Qed.

Lemma start_while_running_is_noop_witness :
  Job.isRunning (Job.job running) = true
  /\ Job.runDailySatelliteAnalysis failing_listing running
     = (tt, {| Job.job := Job.job running; Job.trace := [warning] |}).
Proof.
  assert (H : Job.isRunning (Job.job running) = true) by reflexivity.
  split; [exact H |].
  apply (start_while_running_is_noop failing_listing running H).
Defined.

Lemma listing_failure_is_empty_run_witness :
  Job.isRunning (Job.job idle) = false
  /\ Job.farms_query failing_listing = Throw (mkError "connection refused")
  /\ Job.runDailySatelliteAnalysis failing_listing idle
     = (tt, {| Job.job := idle_after_empty_run failing_listing;
               Job.trace := take 1 empty_run_log ++ [listing_error_log]
                            ++ drop 1 empty_run_log |}).
Proof.
  assert (H1 : Job.isRunning (Job.job idle) = false) by reflexivity.
  assert (H2 : Job.farms_query failing_listing = Throw (mkError "connection refused"))
    by reflexivity.
  split; [exact H1 |]. split; [exact H2 |].
  apply (listing_failure_is_empty_run failing_listing idle _ H1 H2).
Defined.

(** ** The daily job: batches *)

(** The loop over the batches ends because the index passes the end of the
    list, not because the fuel runs out: more fuel changes nothing. *)
Lemma process_batches_fuel (env : Job.Env) (farms : list Job.Farm) (fuel i : nat) :
  (length farms <= i + fuel * Job.batchSize)%nat ->
  Job.process_batches env (S fuel) i farms = Job.process_batches env fuel i farms.
Proof.
  revert i. induction fuel as [| fuel IH]; intros i Hlen.
  - simpl in *. destruct (Nat.ltb_spec i (length farms)); [lia | reflexivity].
  - change (Job.process_batches env (S (S fuel)) i farms)
      with (if (i <? length farms)%nat
            then Job.emit (Job.LogInfo
                   ("📊 Processando lote " +:+ pretty (i / Job.batchSize + 1)%nat
                    +:+ "/" +:+ pretty ((length farms + Job.batchSize - 1)
                                        / Job.batchSize)%nat)) ;;
                 Job.for_each (Job._analyzeFarmDaily env)
                   (take Job.batchSize (drop i farms)) ;;
                 (if (i + Job.batchSize <? length farms)%nat
                  then Job.emit (Job.Sleep 30000) else mret tt) ;;
                 Job.process_batches env (S fuel) (i + Job.batchSize) farms
            else mret tt).
    rewrite IH by (unfold Job.batchSize in *; lia). reflexivity.
Qed.

(** Twelve farms: every farm is analysed once, and the run pauses twice,
    between the three batches. *)
Example twelve_farms_two_pauses :
  let run :=
    Job.runDailySatelliteAnalysis (environment (Return (map farm_number (seq 1 12))))
                                  idle in
  length (List.filter is_launch (Job.trace run.2)) = 12%nat
  /\ length (List.filter is_sleep (Job.trace run.2)) = 2%nat
  /\ Job.isRunning (Job.job run.2) = false.
Proof. vm_compute. auto. Qed.

(** ** Notification: the healthy alert of the engine *)

(** The alert the engine emits for healthy vegetation has the type
    HEALTHY_VEGETATION, the positive update looks for HEALTHY_CROP: on its
    own it leads to no message. *)
Lemma healthy_vegetation_alert_sends_nothing (throws : Alerts.Call -> bool)
  (today : string) (farmInfo : Alerts.FarmInfo) (a : Alerts.Alert) :
  Alerts.type a = "HEALTHY_VEGETATION" -> Alerts.severity a = info_sev ->
  Alerts._sendWhatsAppAlerts throws today farmInfo [a] = [].
Proof.
  intros Ht Hs.
  unfold Alerts._sendWhatsAppAlerts, Alerts._sendPositiveUpdate,
    Alerts.is_high, Alerts.is_healthy_crop.
  simpl. rewrite Hs, Ht. reflexivity.
Qed.

(** ** The daily job: views of the trace *)

Section Views.

Context {X : Type} (view : Job.Event -> option X).

Lemma adds_ret {A : Type} (a : A) : adds view (mret a : Job.M A) [].
Proof. intros s. simpl. rewrite app_nil_r. reflexivity. Qed.

Lemma adds_emit (e : Job.Event) :
  adds view (Job.emit e) (match view e with Some x => [x] | None => [] end).
Proof.
  intros s. unfold seen. simpl. rewrite omap_app. simpl.
  destruct (view e); reflexivity.
Qed.

Lemma adds_emit_None (e : Job.Event) : view e = None -> adds view (Job.emit e) [].
Proof. intros H. pose proof (adds_emit e) as Ha. rewrite H in Ha. exact Ha. Qed.

Lemma adds_modify_job (f : Job.DailyAnalysisJob -> Job.DailyAnalysisJob) :
  adds view (Job.modify_job f) [].
Proof. intros s. unfold seen. simpl. rewrite app_nil_r. reflexivity. Qed.

Lemma adds_get_job : adds view Job.get_job [].
Proof. intros s. unfold seen. simpl. rewrite app_nil_r. reflexivity. Qed.

Lemma adds_bind {A B : Type} (m : Job.M A) (k : A -> Job.M B) (xs ys : list X) :
  adds view m xs -> (forall a, adds view (k a) ys) -> adds view (m ≫= k) (xs ++ ys).
Proof.
  intros Hm Hk s. unfold mbind, Job.M_bind.
  specialize (Hm s). destruct (m s) as [a s']. simpl in *.
  rewrite Hk, Hm, app_assoc. reflexivity.
Qed.

Lemma adds_bind_value {A B : Type} (m : Job.M A) (k : A -> Job.M B) (v : A)
  (xs ys : list X) :
  (forall s, (m s).1 = v) -> adds view m xs -> adds view (k v) ys ->
  adds view (m ≫= k) (xs ++ ys).
Proof.
  intros Hv Hm Hk s. unfold mbind, Job.M_bind.
  specialize (Hm s). specialize (Hv s). destruct (m s) as [a s']. simpl in *.
  subst a. rewrite Hk, Hm, app_assoc. reflexivity.
Qed.

Lemma adds_eq {A : Type} (m : Job.M A) (xs ys : list X) :
  adds view m xs -> xs = ys -> adds view m ys.
Proof. intros H <-. exact H. Qed.

Lemma adds_silent_bind {A B : Type} (m : Job.M A) (k : A -> Job.M B) :
  adds view m [] -> (forall a, adds view (k a) []) -> adds view (m ≫= k) [].
Proof. intros Hm Hk. apply (adds_bind m k [] []); assumption. Qed.

Lemma adds_for_each {A : Type} (f : A -> Job.M unit) (g : A -> list X) (l : list A) :
  (forall x, adds view (f x) (g x)) -> adds view (Job.for_each f l) (flat_map g l).
Proof.
  intros Hf. induction l as [| x l IH]; simpl.
  - apply adds_ret.
  - apply adds_bind; [apply Hf | intros _; exact IH].
Qed.

End Views.

Create HintDb silent.

#[local] Hint Resolve adds_ret adds_modify_job adds_get_job : silent.

(** Proves that an action adds nothing to a view. *)
Ltac silent :=
  repeat first
    [ solve [auto with silent]
    | progress cbv zeta
    | apply adds_silent_bind; [| intros ?]
    | apply adds_emit_None; reflexivity
    | match goal with
      | |- adds _ (if ?c then _ else _) _ => destruct c
      | |- adds _ (match ?x with _ => _ end) _ => destruct x
      end ].

Lemma silent_for_each {X A : Type} (view : Job.Event -> option X)
  (f : A -> Job.M unit) (l : list A) :
  (forall x, adds view (f x) []) -> adds view (Job.for_each f l) [].
Proof. intros Hf. induction l as [| x l IH]; simpl; silent. Qed.

(** The messages of the alert service are seen by no view that does not
    look at messages. *)
Lemma send_alerts_silent {X : Type} (view : Job.Event -> option X)
  (env : Job.Env) (farm : Job.Farm) :
  (forall phone message, view (Job.SendMessage phone message) = None) ->
  adds view (Job.send_alerts env farm) [].
Proof.
  intros H. apply silent_for_each. intros call. apply adds_emit_None, H.
Qed.

#[local] Hint Extern 1 (adds _ (Job.send_alerts _ _) []) =>
  apply send_alerts_silent; intros; reflexivity : silent.

Section RunViews.

Variable env : Job.Env.

Lemma _getActiveFarms_value (s : Job.State) :
  (Job._getActiveFarms env s).1 = farms_of env.
Proof.
  unfold Job._getActiveFarms, farms_of.
  destruct (Job.farms_query env); reflexivity.
Qed.

Lemma _getActiveFarms_silent {X : Type} (view : Job.Event -> option X) :
  (forall msg, view (Job.LogError msg) = None) ->
  adds view (Job._getActiveFarms env) [].
Proof.
  intros H. unfold Job._getActiveFarms.
  destruct (Job.farms_query env); [apply adds_ret |].
  apply adds_silent_bind; [apply adds_emit_None, H | intros _; apply adds_ret].
Qed.

Lemma run_prologue_silent {X : Type} (view : Job.Event -> option X) :
  (forall msg, view (Job.LogInfo msg) = None) ->
  adds view (Job.run_prologue env) [].
Proof.
  intros H. unfold Job.run_prologue, Job.set_isRunning, Job.set_lastExecution,
    Job.modify_statistics.
  repeat (apply adds_silent_bind; [| intros ?]);
    try apply adds_modify_job; apply adds_emit_None, H.
Qed.

(** *** Farms analysed *)

Lemma _analyzeFarmDaily_launch (farm : Job.Farm) :
  adds launch_view (Job._analyzeFarmDaily env farm) [farm].
Proof.
  unfold Job._analyzeFarmDaily.
  apply (adds_bind launch_view _ _ [farm] []); [apply (adds_emit launch_view) |].
  intros _. unfold Job._saveAnalysisError, Job.modify_statistics. silent.
Qed.

Lemma for_each_launch (batch : list Job.Farm) :
  adds launch_view (Job.for_each (Job._analyzeFarmDaily env) batch) batch.
Proof.
  pose proof (adds_for_each launch_view (Job._analyzeFarmDaily env)
                (fun farm => [farm]) batch _analyzeFarmDaily_launch) as H.
  replace (flat_map (fun farm => [farm]) batch) with batch in H; [exact H |].
  clear H. induction batch as [| x l IH]; simpl; [reflexivity | f_equal; exact IH].
Qed.

Lemma process_batches_launch (farms : list Job.Farm) (fuel i : nat) :
  (length farms <= i + fuel * Job.batchSize)%nat ->
  adds launch_view (Job.process_batches env fuel i farms) (drop i farms).
Proof.
  revert i. induction fuel as [| fuel IH]; intros i Hlen; simpl.
  - rewrite drop_ge by (simpl in Hlen; lia). apply adds_ret.
  - destruct (Nat.ltb_spec i (length farms)) as [Hi | Hi].
    + apply (adds_eq launch_view _
               ([] ++ take Job.batchSize (drop i farms)
                   ++ [] ++ drop (i + Job.batchSize) farms)).
      2:{ simpl. rewrite <- drop_drop. apply take_drop. }
      apply adds_bind; [apply adds_emit_None; reflexivity |].
      intros _. apply adds_bind; [apply for_each_launch |].
      intros _. apply adds_bind.
      * destruct (_ <? _)%nat; [apply adds_emit_None; reflexivity | apply adds_ret].
      * intros _. apply IH. unfold Job.batchSize in *. lia.
    + rewrite drop_ge by lia. apply adds_ret.
Qed.

(** *** Pauses *)

Lemma _analyzeFarmDaily_no_sleep (farm : Job.Farm) :
  adds sleep_view (Job._analyzeFarmDaily env farm) [].
Proof.
  unfold Job._analyzeFarmDaily, Job._saveAnalysisError, Job.modify_statistics. silent.
Qed.

Lemma pauses_more (n : nat) :
  (Job.batchSize < n)%nat -> pauses n = S (pauses (n - Job.batchSize)).
Proof.
  unfold pauses, Job.batchSize. intros H.
  pose proof (Nat.div_mod_eq (n + 5 - 1) 5).
  pose proof (Nat.mod_upper_bound (n + 5 - 1) 5).
  pose proof (Nat.div_mod_eq (n - 5 + 5 - 1) 5).
  pose proof (Nat.mod_upper_bound (n - 5 + 5 - 1) 5).
  lia.
Qed.

Lemma pauses_last (n : nat) : (n <= Job.batchSize)%nat -> pauses n = 0%nat.
Proof.
  unfold pauses, Job.batchSize. intros H.
  pose proof (Nat.div_mod_eq (n + 5 - 1) 5).
  pose proof (Nat.mod_upper_bound (n + 5 - 1) 5).
  lia.
Qed.

Lemma process_batches_sleep (farms : list Job.Farm) (fuel i : nat) :
  (length farms <= i + fuel * Job.batchSize)%nat ->
  adds sleep_view (Job.process_batches env fuel i farms)
       (replicate (pauses (length farms - i)) 30000%Z).
Proof.
  revert i. induction fuel as [| fuel IH]; intros i Hlen; simpl.
  - rewrite pauses_last by (simpl in Hlen; lia). apply adds_ret.
  - destruct (Nat.ltb_spec i (length farms)) as [Hi | Hi].
    + apply (adds_eq sleep_view _
               ([] ++ [] ++ (if (i + Job.batchSize <? length farms)%nat
                             then [30000%Z] else [])
                   ++ replicate (pauses (length farms - (i + Job.batchSize))) 30000%Z)).
      * apply adds_bind; [apply adds_emit_None; reflexivity |].
        intros _.
        apply adds_bind; [apply silent_for_each, _analyzeFarmDaily_no_sleep |].
        intros _. apply adds_bind.
        -- destruct (_ <? _)%nat; [apply (adds_emit sleep_view) | apply adds_ret].
        -- intros _. apply IH. unfold Job.batchSize in *. lia.
      * simpl app.
        destruct (Nat.ltb_spec (i + Job.batchSize) (length farms)) as [Hmore | Hlast].
        -- rewrite (pauses_more (length farms - i)) by lia.
           replace (length farms - i - Job.batchSize)%nat
             with (length farms - (i + Job.batchSize))%nat by lia.
           reflexivity.
        -- rewrite !pauses_last by lia. reflexivity.
    + rewrite pauses_last by lia. apply adds_ret.
Qed.

End RunViews.

(** ** The daily job: the counters *)

Lemma updates_ret {A : Type} (a : A) : updates (mret a : Job.M A) id.
Proof. intros s. reflexivity. Qed.

Lemma updates_emit (e : Job.Event) : updates (Job.emit e) id.
Proof. intros s. reflexivity. Qed.

Lemma updates_get_job : updates Job.get_job id.
Proof. intros s. reflexivity. Qed.

Lemma updates_modify_job (f : Job.DailyAnalysisJob -> Job.DailyAnalysisJob) :
  updates (Job.modify_job f) f.
Proof. intros s. reflexivity. Qed.

Lemma updates_ext {A : Type} (m : Job.M A) (f g : Job.DailyAnalysisJob -> Job.DailyAnalysisJob) :
  updates m f -> (forall j, f j = g j) -> updates m g.
Proof. intros H E s. rewrite H. apply E. Qed.

Lemma updates_bind {A B : Type} (m : Job.M A) (k : A -> Job.M B)
  (f g : Job.DailyAnalysisJob -> Job.DailyAnalysisJob) :
  updates m f -> (forall a, updates (k a) g) -> updates (m ≫= k) (fun j => g (f j)).
Proof.
  intros Hm Hk s. unfold mbind, Job.M_bind.
  specialize (Hm s). destruct (m s) as [a s']. simpl in *.
  rewrite Hk, Hm. reflexivity.
Qed.

Lemma updates_bind_value {A B : Type} (m : Job.M A) (k : A -> Job.M B) (v : A)
  (f g : Job.DailyAnalysisJob -> Job.DailyAnalysisJob) :
  (forall s, (m s).1 = v) -> updates m f -> updates (k v) g ->
  updates (m ≫= k) (fun j => g (f j)).
Proof.
  intros Hv Hm Hk s. unfold mbind, Job.M_bind.
  specialize (Hm s). specialize (Hv s). destruct (m s) as [a s']. simpl in *.
  subst a. rewrite Hk, Hm. reflexivity.
Qed.

Lemma unchanged_bind {A B : Type} (m : Job.M A) (k : A -> Job.M B) :
  updates m id -> (forall a, updates (k a) id) -> updates (m ≫= k) id.
Proof. intros Hm Hk. apply (updates_bind m k id id); assumption. Qed.

Create HintDb unchanged.

#[local] Hint Resolve updates_ret updates_emit updates_get_job : unchanged.

(** Proves that an action leaves the job object as it is. *)
Ltac unchanged :=
  repeat first
    [ solve [auto with unchanged]
    | progress cbv zeta
    | apply unchanged_bind; [| intros ?]
    | match goal with
      | |- updates (if ?c then _ else _) _ => destruct c
      | |- updates (match ?x with _ => _ end) _ => destruct x
      end ].

Lemma updates_for_each {A : Type} (f : A -> Job.M unit)
  (g : A -> Job.DailyAnalysisJob -> Job.DailyAnalysisJob) (l : list A) :
  (forall x, updates (f x) (g x)) ->
  updates (Job.for_each f l) (fun j => foldl (fun j x => g x j) j l).
Proof.
  intros Hf. induction l as [| x l IH]; simpl.
  - apply updates_ret.
  - apply (updates_bind _ _ (g x) (fun j => foldl (fun j x => g x j) j l));
      [apply Hf | intros _; exact IH].
Qed.

Section RunUpdates.

Variable env : Job.Env.

Lemma unchanged_send_each (failure : string) (contacts : list string) (message : string) :
  updates (Job.send_each env failure contacts message) id.
Proof. induction contacts as [| c l IH]; simpl; unchanged. Qed.

Lemma unchanged__generateDailyReport : updates (Job._generateDailyReport env) id.
Proof.
  unfold Job._generateDailyReport, Job._sendAdminReport.
  pose proof unchanged_send_each. unchanged.
Qed.

Lemma unchanged__getActiveFarms : updates (Job._getActiveFarms env) id.
Proof. unfold Job._getActiveFarms. unchanged. Qed.

Lemma unchanged_send_alerts (farm : Job.Farm) : updates (Job.send_alerts env farm) id.
Proof.
  unfold Job.send_alerts.
  induction (Job.alert_calls env farm) as [| call l IH]; simpl; unchanged.
Qed.

Lemma _analyzeFarmDaily_updates (farm : Job.Farm) :
  updates (Job._analyzeFarmDaily env farm) (count_outcome (farm_outcome env farm)).
Proof.
  intros s. unfold Job._analyzeFarmDaily, farm_outcome, Job._saveAnalysisError,
    count_outcome.
  destruct s as [[r l [t a f g]] tr].
  unfold mbind, Job.M_bind. simpl.
  destruct (_ && _); simpl.
  - rewrite Nat.add_0_r. reflexivity.
  - destruct (Job.pipeline env farm) as [[n |] | e]; simpl;
      try match goal with
          | |- context [Job.send_alerts env farm ?s0] =>
              pose proof (unchanged_send_alerts farm s0) as H;
              destruct (Job.send_alerts env farm s0) as [u [j' tr']];
              simpl in H; subst j'; simpl
          end.
    + reflexivity.
    + rewrite Nat.add_0_r. reflexivity.
    + destruct (Job.error_insert_throws env farm); simpl;
        rewrite Nat.add_0_r; reflexivity.
Qed.

Lemma process_batches_updates (farms : list Job.Farm) (fuel i : nat) :
  (length farms <= i + fuel * Job.batchSize)%nat ->
  updates (Job.process_batches env fuel i farms) (count_outcomes env (drop i farms)).
Proof.
  unfold count_outcomes.
  revert i. induction fuel as [| fuel IH]; intros i Hlen; simpl.
  - rewrite drop_ge by (simpl in Hlen; lia). apply updates_ret.
  - destruct (Nat.ltb_spec i (length farms)) as [Hi | Hi].
    + eapply updates_ext.
      * apply updates_bind; [apply updates_emit |].
        intros _. apply updates_bind;
          [apply (updates_for_each _ (fun farm => count_outcome (farm_outcome env farm))),
             _analyzeFarmDaily_updates |].
        intros _. apply (updates_bind _ _ id).
        -- destruct (_ <? _)%nat; [apply updates_emit | apply updates_ret].
        -- intros _. apply IH. unfold Job.batchSize in *. lia.
      * intros j. unfold id. rewrite <- foldl_app, <- drop_drop, take_drop.
        reflexivity.
    + rewrite drop_ge by lia. apply updates_ret.
Qed.

Lemma run_prologue_updates :
  updates (Job.run_prologue env)
          (fun _ => {| Job.isRunning := true;
                       Job.lastExecution := Some (Job.clock_start env);
                       Job.statistics := Job.zero_statistics |}).
Proof. intros s. reflexivity. Qed.

Lemma run_body_updates :
  updates (Job.run_body env) (fun _ => count_outcomes env (farms_of env) (started env)).
Proof.
  unfold Job.run_body.
  eapply updates_ext.
  - apply updates_bind; [apply run_prologue_updates |].
    intros _.
    apply (updates_bind_value _ _ (farms_of env));
      [apply _getActiveFarms_value | apply unchanged__getActiveFarms |].
    apply updates_bind; [apply updates_modify_job |].
    intros _. apply updates_bind; [apply updates_emit |].
    intros _.
    instantiate (1 := count_outcomes env (farms_of env)).
    destruct (farms_of env) as [| farm farms] eqn:E.
    + simpl. unchanged.
    + change (length (farm :: farms) =? 0)%nat with false. cbv iota.
      rewrite <- E.
      eapply updates_ext.
      * apply updates_bind; [apply (process_batches_updates _ _ 0) |].
        -- unfold Job.batchSize. lia.
        -- intros _. apply unchanged_bind; [apply unchanged__generateDailyReport |].
           intros _. unchanged.
      * intros j. reflexivity.
  - intros j. reflexivity.
Qed.

Lemma count_outcomes_statistics (farms : list Job.Farm) (j : Job.DailyAnalysisJob) :
  let outcomes := map (farm_outcome env) farms in
  let st := Job.statistics j in
  count_outcomes env farms j
  = {| Job.isRunning := Job.isRunning j;
       Job.lastExecution := Job.lastExecution j;
       Job.statistics :=
         {| Job.totalFarms := Job.totalFarms st;
            Job.successfulAnalyses :=
              (length (List.filter is_analysed outcomes) + Job.successfulAnalyses st)%nat;
            Job.failedAnalyses :=
              (length (List.filter is_failed outcomes) + Job.failedAnalyses st)%nat;
            Job.alertsGenerated :=
              (Job.alertsGenerated st + list_sum (map alerts_of outcomes))%nat |} |}.
Proof.
  unfold count_outcomes. revert j.
  induction farms as [| farm farms IH]; intros j; simpl.
  - destruct j as [r l [t a f g]]. simpl. rewrite Nat.add_0_r. reflexivity.
  - rewrite IH. unfold count_outcome. simpl.
    destruct (farm_outcome env farm); simpl; f_equal; f_equal; lia.
Qed.

Lemma run_idle (s : Job.State) :
  Job.isRunning (Job.job s) = false ->
  Job.runDailySatelliteAnalysis env s
  = (Job.run_body env ≫= fun _ => Job.set_isRunning false) s.
Proof.
  intros Hidle.
  unfold Job.runDailySatelliteAnalysis, mbind at 1, Job.M_bind at 1, Job.get_job.
  rewrite Hidle.
  unfold mbind, Job.M_bind.
  pose proof (run_body_returns env s) as Hret.
  destruct (Job.run_body env s) as [outcome s']. simpl in Hret. subst outcome.
  reflexivity.
Qed.

End RunUpdates.

(** ** The daily job: a whole run *)

Section Does.

Context {X : Type} (view : Job.Event -> option X).





End Does.

Section RunTheorems.

Variable env : Job.Env.


Lemma send_each_adds (failure : string) (contacts : list string) (message : string) :
  adds message_view (Job.send_each env failure contacts message) (attempted env contacts).
Proof.
  induction contacts as [| c l IH]; simpl.
  - apply adds_ret.
  - apply (adds_bind message_view _ _ [c]); [apply (adds_emit message_view) |].
    intros _. destruct (Job.sendMessage_throws env c); [| exact IH].
    apply adds_emit_None. reflexivity.
Qed.

Lemma send_each_silent {X : Type} (view : Job.Event -> option X)
  (failure : string) (contacts : list string) (message : string) :
  (forall phone body, view (Job.SendMessage phone body) = None) ->
  (forall msg, view (Job.LogError msg) = None) ->
  adds view (Job.send_each env failure contacts message) [].
Proof.
  intros Hsend Hlog. induction contacts as [| c l IH]; simpl.
  - apply adds_ret.
  - apply adds_silent_bind; [apply adds_emit_None, Hsend |].
    intros _. destruct (Job.sendMessage_throws env c); [| exact IH].
    apply adds_emit_None, Hlog.
Qed.

(** What the whole of [run_body] adds to a view that ignores the log, from
    what the batches and the report add. *)
Lemma run_body_adds {X : Type} (view : Job.Event -> option X) (xs ys : list X) :
  (forall msg, view (Job.LogInfo msg) = None) ->
  (forall msg, view (Job.LogError msg) = None) ->
  adds view (Job.process_batches env (length (farms_of env)) 0 (farms_of env)) xs ->
  adds view (Job._generateDailyReport env) ys ->
  adds view (Job.run_body env)
       (if Nat.eqb (length (farms_of env)) 0 then [] else xs ++ ys).
Proof.
  intros Hinfo Herror Hxs Hys. unfold Job.run_body.
  apply (adds_bind view _ _ []); [apply run_prologue_silent, Hinfo |].
  intros _.
  apply (adds_bind_value view _ _ (farms_of env) []);
    [apply _getActiveFarms_value | apply _getActiveFarms_silent, Herror |].
  apply (adds_bind view _ _ []); [apply adds_modify_job |].
  intros _. apply (adds_bind view _ _ []); [apply adds_emit_None, Hinfo |].
  intros _. destruct (Nat.eqb (length (farms_of env)) 0).
  - apply adds_silent_bind; [apply adds_emit_None, Hinfo | intros _; apply adds_ret].
  - apply adds_bind; [exact Hxs |].
    intros _. apply (adds_eq view _ (ys ++ [] ++ [])); [| apply app_nil_r].
    apply adds_bind; [exact Hys |].
    intros _. apply adds_bind; [apply adds_emit_None, Hinfo | intros _; apply adds_ret].
Qed.

(** A run that finds the job idle is the body followed by the release of
    the flag, so it adds to a view what the body adds. *)
Lemma run_adds {X : Type} (view : Job.Event -> option X) (xs : list X) (s : Job.State) :
  adds view (Job.run_body env) xs ->
  Job.isRunning (Job.job s) = false ->
  seen view (Job.runDailySatelliteAnalysis env s).2 = seen view s ++ xs.
Proof.
  intros Hbody Hidle. rewrite run_idle by exact Hidle.
  pose proof (adds_bind view (Job.run_body env) (fun _ => Job.set_isRunning false)
                xs [] Hbody (fun _ => adds_modify_job view _) s) as H.
  rewrite app_nil_r in H. exact H.
Qed.

Lemma _generateDailyReport_no_launch : adds launch_view (Job._generateDailyReport env) [].
Proof.
  unfold Job._generateDailyReport, Job._sendAdminReport.
  pose proof (fun f c m => send_each_silent launch_view f c m
                             (fun _ _ => eq_refl) (fun _ => eq_refl)).
  silent.
Qed.

Lemma _generateDailyReport_no_sleep : adds sleep_view (Job._generateDailyReport env) [].
Proof.
  unfold Job._generateDailyReport, Job._sendAdminReport.
  pose proof (fun f c m => send_each_silent sleep_view f c m
                             (fun _ _ => eq_refl) (fun _ => eq_refl)).
  silent.
Qed.

(** X1.  A run that finds the job idle starts the analysis of every listed
    farm exactly once, in the order of the listing, and of no other farm. *)
Theorem run_analyses_each_farm_once (s : Job.State) :
  Job.isRunning (Job.job s) = false ->
  seen launch_view (Job.runDailySatelliteAnalysis env s).2
  = seen launch_view s ++ farms_of env.
Proof.
  intros Hidle. apply run_adds; [| exact Hidle].
  eapply adds_eq.
  - apply (run_body_adds launch_view (drop 0 (farms_of env)) []); try reflexivity.
    + apply process_batches_launch. unfold Job.batchSize. lia.
    + apply _generateDailyReport_no_launch.
  - simpl. destruct (farms_of env); simpl; [reflexivity | rewrite app_nil_r; reflexivity].
Qed.

(** X2.  A run over n farms pauses 30 seconds between consecutive batches of
    five and nowhere else: ceil(n/5) - 1 pauses, none for an empty listing. *)
Theorem run_pauses_between_batches (s : Job.State) :
  Job.isRunning (Job.job s) = false ->
  seen sleep_view (Job.runDailySatelliteAnalysis env s).2
  = seen sleep_view s ++ replicate (pauses (length (farms_of env))) 30000%Z.
Proof.
  intros Hidle. apply run_adds; [| exact Hidle].
  eapply adds_eq.
  - apply (run_body_adds sleep_view
             (replicate (pauses (length (farms_of env) - 0)) 30000%Z) []);
      try reflexivity.
    + apply (process_batches_sleep env (farms_of env) _ 0). unfold Job.batchSize. lia.
    + apply _generateDailyReport_no_sleep.
  - rewrite Nat.sub_0_r, app_nil_r.
    destruct (farms_of env); reflexivity.
Qed.

Lemma outcomes_disjoint (outcomes : list FarmOutcome) :
  (length (List.filter is_analysed outcomes) + length (List.filter is_failed outcomes)
   <= length outcomes)%nat.
Proof.
  induction outcomes as [| o l IH]; simpl; [lia |].
  destruct o; simpl; lia.
Qed.

(** X3.  After a run that found the job idle the flag is released, the start
    time is the time the run began, and the counters are those of the
    outcomes: the number of listed farms, of farms analysed, of farms whose
    analysis threw, and the sum of the alerts of the analysed farms; farms
    skipped for a recent analysis or for want of an image count in
    neither, so analysed plus failed never exceeds the total. *)
Theorem run_final_state (s : Job.State) :
  Job.isRunning (Job.job s) = false ->
  let j := Job.job (Job.runDailySatelliteAnalysis env s).2 in
  j = {| Job.isRunning := false;
         Job.lastExecution := Some (Job.clock_start env);
         Job.statistics := tally env (farms_of env) |}
  /\ (Job.successfulAnalyses (Job.statistics j) + Job.failedAnalyses (Job.statistics j)
      <= Job.totalFarms (Job.statistics j))%nat.
Proof.
  intros Hidle j.
  assert (E : j = {| Job.isRunning := false;
                     Job.lastExecution := Some (Job.clock_start env);
                     Job.statistics := tally env (farms_of env) |}).
  { subst j. rewrite run_idle by exact Hidle.
    pose proof (updates_bind (Job.run_body env) (fun _ => Job.set_isRunning false) _ _
                  (run_body_updates env) (fun _ => updates_modify_job _) s) as H.
    rewrite H, count_outcomes_statistics. unfold tally, started. simpl.
    rewrite !Nat.add_0_r. reflexivity. }
  split; [exact E |].
  rewrite E. unfold tally. simpl.
  pose proof (outcomes_disjoint (map (farm_outcome env) (farms_of env))) as H.
  rewrite length_map in H. exact H.
Qed.



Lemma _generateDailyReport_messages :
  adds message_view (Job._generateDailyReport env)
       (if Job.report_insert_throws env then []
        else if Job.ADMIN_REPORTS_ENABLED env
             then attempted env (Job.ADMIN_WHATSAPP_CONTACTS env) else []).
Proof.
  unfold Job._generateDailyReport, Job._sendAdminReport.
  apply (adds_bind message_view _ _ []); [apply adds_get_job |].
  intros j. cbv zeta.
  destruct (Job.report_insert_throws env); [apply adds_emit_None; reflexivity |].
  apply (adds_bind message_view _ _ []); [apply adds_emit_None; reflexivity |].
  intros _. apply (adds_bind message_view _ _ []); [apply adds_emit_None; reflexivity |].
  intros _. destruct (Job.ADMIN_REPORTS_ENABLED env);
    [apply send_each_adds | apply adds_ret].
Qed.




End RunTheorems.

Lemma run_analyses_each_farm_once_witness :
  Job.isRunning (Job.job idle) = false
  /\ seen launch_view (Job.runDailySatelliteAnalysis busy_day idle).2
     = seen launch_view idle ++ farms_of busy_day.
Proof.
  split; [reflexivity | apply (run_analyses_each_farm_once busy_day idle); reflexivity].
Defined.

Lemma run_pauses_between_batches_witness :
  Job.isRunning (Job.job idle) = false
  /\ seen sleep_view (Job.runDailySatelliteAnalysis busy_day idle).2
     = seen sleep_view idle ++ replicate (pauses (length (farms_of busy_day))) 30000%Z.
Proof.
  split; [reflexivity | apply (run_pauses_between_batches busy_day idle); reflexivity].
Defined.

Lemma run_final_state_witness :
  Job.isRunning (Job.job idle) = false
  /\ let j := Job.job (Job.runDailySatelliteAnalysis busy_day idle).2 in
     j = {| Job.isRunning := false;
            Job.lastExecution := Some (Job.clock_start busy_day);
            Job.statistics := tally busy_day (farms_of busy_day) |}
     /\ (Job.successfulAnalyses (Job.statistics j) + Job.failedAnalyses (Job.statistics j)
         <= Job.totalFarms (Job.statistics j))%nat.
Proof.
  split; [reflexivity | apply (run_final_state busy_day idle); reflexivity].
Defined.



(** ** The daily job: failures *)

Section RunErrors.

Variable env : Job.Env.

Lemma process_batches_adds {X : Type} (view : Job.Event -> option X)
  (g : Job.Farm -> list X) (farms : list Job.Farm) (fuel i : nat) :
  (forall farm, adds view (Job._analyzeFarmDaily env farm) (g farm)) ->
  (forall msg, view (Job.LogInfo msg) = None) ->
  (forall ms, view (Job.Sleep ms) = None) ->
  (length farms <= i + fuel * Job.batchSize)%nat ->
  adds view (Job.process_batches env fuel i farms) (flat_map g (drop i farms)).
Proof.
  intros Hfarm Hlog Hsleep.
  revert i. induction fuel as [| fuel IH]; intros i Hlen; simpl.
  - rewrite drop_ge by (simpl in Hlen; lia). apply adds_ret.
  - destruct (Nat.ltb_spec i (length farms)) as [Hi | Hi].
    + apply (adds_eq view _
               ([] ++ flat_map g (take Job.batchSize (drop i farms))
                   ++ [] ++ flat_map g (drop (i + Job.batchSize) farms))).
      2:{ simpl. rewrite <- flat_map_app, <- drop_drop, take_drop. reflexivity. }
      apply adds_bind; [apply adds_emit_None, Hlog |].
      intros _. apply adds_bind; [apply adds_for_each, Hfarm |].
      intros _. apply adds_bind.
      * destruct (_ <? _)%nat; [apply adds_emit_None, Hsleep | apply adds_ret].
      * intros _. apply IH. unfold Job.batchSize in *. lia.
    + rewrite drop_ge by lia. apply adds_ret.
Qed.

Lemma _analyzeFarmDaily_errors (farm : Job.Farm) :
  adds error_view (Job._analyzeFarmDaily env farm) (recorded_failure env farm).
Proof.
  unfold Job._analyzeFarmDaily, recorded_failure, Job._saveAnalysisError,
    Job.modify_statistics.
  apply (adds_bind error_view _ _ []); [apply adds_emit_None; reflexivity |].
  intros _. apply (adds_bind error_view _ _ []); [apply adds_emit_None; reflexivity |].
  intros _. destruct (_ && _); [apply adds_emit_None; reflexivity |].
  destruct (Job.pipeline env farm) as [[n |] | e].
  - silent.
  - silent.
  - apply (adds_bind error_view _ _ []);
      [apply send_alerts_silent; reflexivity |].
    intros _. apply (adds_bind error_view _ _ []); [apply adds_modify_job |].
    intros _. apply (adds_bind error_view _ _ []); [apply adds_emit_None; reflexivity |].
    intros _. destruct (Job.error_insert_throws env farm).
    + apply adds_emit_None. reflexivity.
    + apply (adds_emit error_view).
Qed.

Lemma _generateDailyReport_no_error : adds error_view (Job._generateDailyReport env) [].
Proof.
  unfold Job._generateDailyReport, Job._sendAdminReport.
  pose proof (fun f c m => send_each_silent env error_view f c m
                             (fun _ _ => eq_refl) (fun _ => eq_refl)).
  silent.
Qed.

(** X6.  A run stores an error row for a farm exactly when the analysis of
    that farm throws (and the INSERT of the error itself succeeds): the row
    carries the farm's id and the error, each failing farm gets one, and
    no other farm gets any. *)
Theorem run_records_failures (s : Job.State) :
  Job.isRunning (Job.job s) = false ->
  seen error_view (Job.runDailySatelliteAnalysis env s).2
  ≡ₚ seen error_view s ++ flat_map (recorded_failure env) (farms_of env).
Proof.
  intros Hidle.
  rewrite (run_adds env error_view (flat_map (recorded_failure env) (farms_of env)) s);
    [reflexivity | | exact Hidle].
  eapply adds_eq.
  - apply (run_body_adds env error_view
             (flat_map (recorded_failure env) (drop 0 (farms_of env))) []);
      try reflexivity.
    + apply process_batches_adds; try reflexivity.
      * apply _analyzeFarmDaily_errors.
      * unfold Job.batchSize. lia.
    + apply _generateDailyReport_no_error.
  - simpl. rewrite app_nil_r.
    destruct (farms_of env); reflexivity.
Qed.

End RunErrors.

(** *** Messages *)

Section RunMessages.

Variable env : Job.Env.

Lemma send_alerts_messages (farm : Job.Farm) :
  adds message_view (Job.send_alerts env farm) (map fst (Job.alert_calls env farm)).
Proof.
  unfold Job.send_alerts.
  eapply adds_eq.
  - apply (adds_for_each message_view _ (fun call => [call.1])).
    intros call. apply (adds_emit message_view).
  - induction (Job.alert_calls env farm) as [| c l IH]; simpl; [| rewrite IH];
      reflexivity.
Qed.

Lemma _analyzeFarmDaily_messages (farm : Job.Farm) :
  adds message_view (Job._analyzeFarmDaily env farm) (farm_messages env farm).
Proof.
  unfold Job._analyzeFarmDaily, farm_messages, Job._saveAnalysisError,
    Job.modify_statistics.
  apply (adds_bind message_view _ _ []); [apply adds_emit_None; reflexivity |].
  intros _. apply (adds_bind message_view _ _ []); [apply adds_emit_None; reflexivity |].
  intros _. destruct (_ && _); [apply adds_emit_None; reflexivity |].
  destruct (Job.pipeline env farm) as [[n |] | e].
  - apply (adds_eq message_view _ (map fst (Job.alert_calls env farm) ++ []));
      [| apply app_nil_r].
    apply adds_bind; [apply send_alerts_messages | intros _; silent].
  - silent.
  - apply (adds_eq message_view _ (map fst (Job.alert_calls env farm) ++ []));
      [| apply app_nil_r].
    apply adds_bind; [apply send_alerts_messages | intros _; silent].
Qed.

(** X5.  The WhatsApp messages of a run are, first, those that the alert
    service sends for the farms: for each farm whose analysis went past the
    image search, the messages of its alert processing (the analyses of
    one batch run side by side, so these are given up to their order);
    then, after the daily report was stored and only when administrator
    reports are enabled, one message per administrator contact in the
    configured order, stopping at the first send that throws.  A run with
    no farm sends nothing, and a failed report INSERT or disabled reports
    leave only the messages for the farms. *)
Theorem run_messages (s : Job.State) :
  Job.isRunning (Job.job s) = false ->
  exists for_farms,
    seen message_view (Job.runDailySatelliteAnalysis env s).2
    = seen message_view s ++ for_farms
      ++ (if Nat.eqb (length (farms_of env)) 0 then []
          else if Job.report_insert_throws env then []
               else if Job.ADMIN_REPORTS_ENABLED env
                    then attempted env (Job.ADMIN_WHATSAPP_CONTACTS env) else [])
    /\ for_farms ≡ₚ flat_map (farm_messages env) (farms_of env).
Proof.
  intros Hidle. exists (flat_map (farm_messages env) (farms_of env)).
  split; [| reflexivity].
  apply run_adds; [| exact Hidle].
  eapply adds_eq.
  - apply (run_body_adds env message_view
             (flat_map (farm_messages env) (drop 0 (farms_of env)))
             (if Job.report_insert_throws env then []
              else if Job.ADMIN_REPORTS_ENABLED env
                   then attempted env (Job.ADMIN_WHATSAPP_CONTACTS env) else []));
      try reflexivity.
    + apply process_batches_adds; try reflexivity.
      * apply _analyzeFarmDaily_messages.
      * unfold Job.batchSize. lia.
    + apply _generateDailyReport_messages.
  - simpl. destruct (farms_of env); reflexivity.
Qed.

End RunMessages.

Lemma run_messages_witness :
  Job.isRunning (Job.job idle) = false
  /\ seen message_view (Job.runDailySatelliteAnalysis busy_day idle).2
     = ["5511988880005"; "5511977770005"; "5511999990000"; "5511999990001"].
Proof.
  split; [reflexivity |].
  destruct (run_messages busy_day idle eq_refl) as (for_farms & Hseen & _).
  reflexivity.
Defined.

Lemma run_records_failures_witness :
  Job.isRunning (Job.job idle) = false
  /\ seen error_view (Job.runDailySatelliteAnalysis busy_day idle).2
     ≡ₚ seen error_view idle ++ flat_map (recorded_failure busy_day) (farms_of busy_day).
Proof.
  split; [reflexivity | apply (run_records_failures busy_day idle); reflexivity].
Defined.

(** ** Alerts: persistence and recommendations *)

Section SaveAlerts.

Variable insert_throws : Alerts.Alert -> bool.

Lemma _saveAlerts_from_rows (farm : string) (alerts : list Alerts.Alert)
  (acc table : list Alerts.AlertRow) :
  let rows := map (Alerts.row_of farm) (accepted insert_throws alerts) in
  Alerts._saveAlerts_from insert_throws farm alerts acc table
  = (acc ++ rows, table ++ rows).
Proof.
  revert acc table. induction alerts as [| a alerts IH]; intros acc table; simpl.
  - rewrite !app_nil_r. reflexivity.
  - unfold accepted. simpl. destruct (insert_throws a); simpl.
    + apply IH.
    + rewrite IH. rewrite <- !app_assoc. reflexivity.
Qed.

(** X11.  [_saveAlerts] saves exactly the alerts whose INSERT succeeds: a
    failing INSERT drops that alert alone and the loop goes on.  The rows
    returned are those of the accepted alerts, in their order, each with
    the farm's id and the columns of its alert, and the table grows by
    exactly these rows.  (What the database adds to a row by itself, its
    generated [id], is not part of a row here.) *)
Theorem _saveAlerts_saves_accepted (farm : string) (alerts : list Alerts.Alert)
  (table : list Alerts.AlertRow) :
  let rows := map (Alerts.row_of farm) (accepted insert_throws alerts) in
  Alerts._saveAlerts insert_throws farm alerts table = (rows, table ++ rows)
  /\ length rows = length (accepted insert_throws alerts)
  /\ ((forall a, a ∈ alerts -> insert_throws a = false) ->
      length rows = length alerts).
Proof.
  intros rows. split; [| split].
  - apply (_saveAlerts_from_rows farm alerts [] table).
  - subst rows. apply length_map.
  - intros Hok. subst rows. rewrite length_map. unfold accepted.
    clear table. induction alerts as [| a l IH]; simpl; [reflexivity |].
    rewrite (Hok a) by apply list_elem_of_here. simpl. f_equal.
    apply IH. intros b Hb. apply Hok, list_elem_of_further, Hb.
Qed.

End SaveAlerts.

Lemma _saveAlerts_saves_accepted_witness :
  (forall a, a ∈ [stress0; variability0] -> (fun _ : Alerts.Alert => false) a = false)
  /\ Alerts._saveAlerts (fun _ => false) "7" [stress0; variability0] []
     = ([Alerts.row_of "7" stress0; Alerts.row_of "7" variability0],
        [Alerts.row_of "7" stress0; Alerts.row_of "7" variability0]).
Proof.
  split; [intros a _; reflexivity |].
  exact (proj1 (_saveAlerts_saves_accepted (fun _ => false) "7"
                  [stress0; variability0] [])).
Defined.

Section Advice.

Variable toLowerCase : string -> string.

(** X12.  The recommendation attached to a finding is never invented: with
    no recommendation listed there is none; a recommendation returned is
    the non-empty description of a listed recommendation; and none is
    returned only when the first listed recommendation has no text. *)
Theorem recommendation_is_listed (findingType : option string)
  (recommendations : list Alerts.Recommendation) :
  let r := Alerts._extractRecommendationForFinding toLowerCase findingType
             recommendations in
  (recommendations = [] -> r = None)
  /\ (forall d, r = Some d ->
        d <> EmptyString
        /\ exists rec, rec ∈ recommendations /\ Alerts.description rec = Some d)
  /\ (r = None ->
      forall first, head recommendations = Some first ->
                    Alerts.truthy (Alerts.description first) = None).
Proof.
  intros r. subst r. unfold Alerts._extractRecommendationForFinding.
  assert (Htruthy : forall s d, Alerts.truthy s = Some d -> d <> EmptyString /\ s = Some d).
  { intros [[| c s] |] d H; simpl in H; try discriminate.
    injection H as <-. split; [discriminate | reflexivity]. }
  split; [| split].
  - intros ->. reflexivity.
  - intros d Hd. destruct recommendations as [| first rest]; [discriminate |].
    cbv zeta in Hd.
    destruct (List.find _ (first :: rest)) as [related |] eqn:Hfind.
    + destruct (Alerts.truthy (Some related ≫= Alerts.description)) as [d' |] eqn:Ht.
      * injection Hd as <-. apply Htruthy in Ht as [Hne Hdesc].
        split; [exact Hne |]. exists related. split; [| exact Hdesc].
        apply find_some in Hfind as [Hin _]. apply list_elem_of_In, Hin.
      * apply Htruthy in Hd as [Hne Hdesc].
        split; [exact Hne |]. exists first. split; [apply list_elem_of_here | exact Hdesc].
    + simpl in Hd. apply Htruthy in Hd as [Hne Hdesc].
      split; [exact Hne |]. exists first. split; [apply list_elem_of_here | exact Hdesc].
  - intros Hnone first Hhead.
    destruct recommendations as [| first' rest]; [discriminate |].
    injection Hhead as ->. cbv zeta in Hnone.
    destruct (Alerts.truthy (List.find _ (first :: rest) ≫= Alerts.description));
      [discriminate | exact Hnone].
Qed.

End Advice.

Lemma recommendation_is_listed_witness :
  let r := Alerts._extractRecommendationForFinding (fun s => s) (Some "pragas")
             sample_recommendations in
  r = None
  /\ forall first, head sample_recommendations = Some first ->
                   Alerts.truthy (Alerts.description first) = None.
Proof.
  intros r. assert (H : r = None) by reflexivity.
  split; [exact H |].
  exact (proj2 (proj2 (recommendation_is_listed (fun s => s) (Some "pragas")
                         sample_recommendations)) H).
Defined.

(** ** Alerts: from the analyses to the messages *)

Lemma quiet_prioritize (alerts : list Alerts.Alert) :
  Forall quiet alerts -> Forall quiet (Alerts._prioritizeAlerts alerts).
Proof.
  intros H. unfold Alerts._prioritizeAlerts. cbv zeta.
  rewrite (Array_sort_perm alert_rank).
  rewrite Forall_forall in *. intros a Ha. apply H.
  eapply elem_of_sublist; [exact Ha | apply filter_unseen_sublist].
Qed.

Lemma filter_none {A : Type} (f : A -> bool) (l : list A) :
  Forall (fun x => f x = false) l -> List.filter f l = [].
Proof.
  induction 1 as [| x l Hx _ IH]; simpl; [reflexivity |].
  rewrite Hx. exact IH.
Qed.

Lemma quiet_sends_nothing (throws : Alerts.Call -> bool) (today : string)
  (farmInfo : Alerts.FarmInfo) (alerts : list Alerts.Alert) :
  Forall quiet alerts -> Alerts._sendWhatsAppAlerts throws today farmInfo alerts = [].
Proof.
  intros H. unfold Alerts._sendWhatsAppAlerts, Alerts._sendPositiveUpdate. cbv zeta.
  rewrite (filter_none (fun alert => Alerts.is_high alert && negb (Alerts.is_healthy_crop alert))).
  2:{ eapply Forall_impl; [exact H |]. intros a [Hh _]. simpl. rewrite Hh. reflexivity. }
  simpl.
  rewrite (filter_none Alerts.is_healthy_crop).
  2:{ eapply Forall_impl; [exact H |]. intros a [_ Hc]. exact Hc. }
  reflexivity.
Qed.

Section EngineMessages.

Variable Number_toString : number -> string.
Variable this : NDVI.NDVIAnalysisService.
Variable toLowerCase : string -> string.
Variable clock : Date.
Variable insert_throws : Alerts.Alert -> bool.
Variable sendMessage_throws : Alerts.Call -> bool.

(** X10.  When the index analysis finds no stress (the mean is not below
    the low threshold) and there is no vision analysis, nobody is sent a
    message, whatever else the engine reports: the variability and
    bare-soil alerts are of medium severity, and the healthy alert has the
    type HEALTHY_VEGETATION, which the positive update does not look for. *)
Theorem engine_without_stress_sends_nothing (now : Date) (nirBand redBand : BandRaster)
  (res : NDVI.NDVIResult) (whatsappEnabled : bool) (today : string)
  (table : list Alerts.AlertRow) (farmInfo : Alerts.FarmInfo) :
  NDVI.calculateNDVI Number_toString this now nirBand redBand = Return res ->
  (NDVI.average (NDVI.statistics res) <? NDVI.low (NDVI.thresholds this))%js = false ->
  Alerts.calls
    (Alerts.processAnalysisAlerts toLowerCase clock insert_throws sendMessage_throws
       whatsappEnabled today table farmInfo (Some res) None)
  = [].
Proof.
  intros Hres Hstress.
  assert (Hquiet : Forall quiet (Alerts._processNDVIAlerts clock (Some res) farmInfo)).
  { unfold NDVI.calculateNDVI in Hres.
    destruct (_ || _); [discriminate |].
    injection Hres as <-. simpl in *.
    unfold NDVI._generateAlerts. cbv zeta. rewrite Hstress.
    unfold NDVI.push_if.
    repeat match goal with
           | |- context [if ?c then _ else _] => destruct c
           end;
      simpl; repeat constructor. }
  unfold Alerts.processAnalysisAlerts. cbv zeta.
  destruct (Alerts._saveAlerts _ _ _ _) as [saved table']. simpl.
  destruct whatsappEnabled; [| reflexivity].
  apply quiet_sends_nothing, quiet_prioritize.
  simpl. rewrite app_nil_r. exact Hquiet.
Qed.

End EngineMessages.

Lemma engine_without_stress_sends_nothing_witness :
  exists res,
    NDVI.calculateNDVI no_text default_service 0%Z lush_nir lush_red = Return res
    /\ (NDVI.average (NDVI.statistics res)
        <? NDVI.low (NDVI.thresholds default_service))%js = false
    /\ Alerts.calls
         (Alerts.processAnalysisAlerts (fun s => s) 0%Z (fun _ => false) never_throws
            true "02/11/2026" [] farm0 (Some res) None)
       = [].
Proof.
  assert (H : NDVI.calculateNDVI no_text default_service 0%Z lush_nir lush_red
              = Return _) by reflexivity.
  match type of H with
  | _ = Return ?r =>
      exists r;
      assert (Hs : (NDVI.average (NDVI.statistics r)
                    <? NDVI.low (NDVI.thresholds default_service))%js = false)
        by (vm_compute; reflexivity)
  end.
  split; [exact H |]. split; [exact Hs |].
  exact (engine_without_stress_sends_nothing no_text default_service (fun s => s) 0%Z
           (fun _ => false) never_throws 0%Z lush_nir lush_red _ true "02/11/2026" []
           farm0 H Hs).
Defined.

Local Open Scope Q_scope.

(** ** The engine on binary64: what does not depend on rounding

    The dimension check, the alert rules, the time stamp and the silence
    of an analysis without stress, shown above for [NDVI], hold for
    [NDVI64] as well. *)

Section SameOnBinary64.

Variable Number_toString : number -> string.
Variable this : NDVI.NDVIAnalysisService.
Variable argument_limit : Z.

Let calculateNDVI := NDVI64.calculateNDVI Number_toString this argument_limit.
Let _generateAlerts := NDVI64._generateAlerts Number_toString this.
Let th := NDVI.thresholds this.

Lemma calculateNDVI64_dimension_mismatch (now : Date) (nirBand redBand : BandRaster) :
  width nirBand <> width redBand \/ height nirBand <> height redBand ->
  calculateNDVI now nirBand redBand = Throw NDVI.dimension_error.
Proof.
  intros Hdiff. subst calculateNDVI. unfold NDVI64.calculateNDVI.
  destruct (Nat.eqb_spec (width nirBand) (width redBand)) as [Hw | Hw];
    destruct (Nat.eqb_spec (height nirBand) (height redBand)) as [Hh | Hh];
    simpl; try reflexivity.
  destruct Hdiff; contradiction.
Qed.

Lemma calculateNDVI64_same_up_to_timestamp (now1 now2 : Date)
  (nirBand redBand : BandRaster) :
  match calculateNDVI now1 nirBand redBand, calculateNDVI now2 nirBand redBand with
  | Return r1, Return r2 =>
      NDVI.timestamp r1 = now1 /\ NDVI.timestamp r2 = now2
      /\ NDVI.dimensions r1 = NDVI.dimensions r2
      /\ NDVI.statistics r1 = NDVI.statistics r2
      /\ NDVI.zones r1 = NDVI.zones r2
      /\ NDVI.alerts r1 = NDVI.alerts r2
      /\ NDVI.ndviData r1 = NDVI.ndviData r2
  | Throw e1, Throw e2 => e1 = e2
  | _, _ => False
  end.
Proof.
  subst calculateNDVI. unfold NDVI64.calculateNDVI.
  destruct (negb (width nirBand =? width redBand)%nat
            || negb (height nirBand =? height redBand)%nat); [reflexivity |].
  cbv zeta. destruct (NDVI64._calculateStatistics _ _); simpl; auto 10.
Qed.

Lemma alert_rules64 (st : NDVI.Statistics) (zs : NDVI.Zones) :
  let alerts := _generateAlerts st zs in
  let stress := (NDVI.average st <? NDVI.low th)%js in
  let variable := (NDVI.std st >? Double.literal (2 # 10))%js in
  let bare := (NDVI.percentage (NDVI.bare_soil zs) >? Fin 30)%js in
  let healthy := (NDVI.average st >? NDVI.high th)%js in
  rule_outcome stress "LOW_VEGETATION_INDEX" high_sev alerts
  /\ rule_outcome variable "HIGH_VARIABILITY" medium_sev alerts
  /\ rule_outcome bare "EXCESSIVE_BARE_SOIL" medium_sev alerts
  /\ rule_outcome healthy "HEALTHY_VEGETATION" info_sev alerts
  /\ length alerts
     = (Nat.b2n stress + Nat.b2n variable + Nat.b2n bare + Nat.b2n healthy)%nat
  /\ (num_lt (NDVI.low th) (NDVI.high th) -> stress && healthy = false).
Proof.
  intros alerts stress variable bare healthy.
  subst alerts _generateAlerts. unfold NDVI64._generateAlerts.
  fold th. fold stress variable bare healthy.
  split; [| split; [| split; [| split; [| split]]]].
  1-5: destruct stress, variable, bare, healthy; cbn; eauto.
  intros Hlt. destruct stress eqn:Hs; [| reflexivity].
  destruct healthy eqn:Hh; [| reflexivity].
  exfalso. exact (ltb_no_cycle _ _ _ Hs Hlt Hh).
Qed.

Variable toLowerCase : string -> string.
Variable clock : Date.
Variable insert_throws : Alerts.Alert -> bool.
Variable sendMessage_throws : Alerts.Call -> bool.

Lemma engine64_without_stress_sends_nothing (now : Date) (nirBand redBand : BandRaster)
  (res : NDVI.NDVIResult) (whatsappEnabled : bool) (today : string)
  (table : list Alerts.AlertRow) (farmInfo : Alerts.FarmInfo) :
  calculateNDVI now nirBand redBand = Return res ->
  (NDVI.average (NDVI.statistics res) <? NDVI.low (NDVI.thresholds this))%js = false ->
  Alerts.calls
    (Alerts.processAnalysisAlerts toLowerCase clock insert_throws sendMessage_throws
       whatsappEnabled today table farmInfo (Some res) None)
  = [].
Proof.
  intros Hres Hstress.
  assert (Hquiet : Forall quiet (Alerts._processNDVIAlerts clock (Some res) farmInfo)).
  { subst calculateNDVI. unfold NDVI64.calculateNDVI in Hres.
    destruct (_ || _); [discriminate |]. cbv zeta in Hres.
    destruct (NDVI64._calculateStatistics _ _) as [st |]; [| discriminate].
    injection Hres as <-. simpl in *.
    unfold NDVI64._generateAlerts. cbv zeta. rewrite Hstress.
    unfold NDVI.push_if.
    repeat match goal with
           | |- context [if ?c then _ else _] => destruct c
           end;
      simpl; repeat constructor. }
  unfold Alerts.processAnalysisAlerts. cbv zeta.
  destruct (Alerts._saveAlerts _ _ _ _) as [saved table']. simpl.
  destruct whatsappEnabled; [| reflexivity].
  apply quiet_sends_nothing, quiet_prioritize.
  simpl. rewrite app_nil_r. exact Hquiet.
Qed.

End SameOnBinary64.

Local Close Scope Q_scope.

Section TextAnswer.

Variable toLowerCase : string -> string.
Variable substring : string -> nat -> nat -> string.
Variable now : Date.

Lemma append_not_empty (s : string) : s +:+ "..." <> EmptyString.
Proof. destruct s; [discriminate | rewrite append_cons; discriminate]. Qed.

(** X9.  An answer of the vision model that holds no JSON becomes one
    finding, and that finding one alert of type general_observation whose
    text is the first 150 characters of the answer and whose
    recommendation is the general advice to read the full analysis.  Its
    severity is high when the answer names a risk and no sign of health,
    low when it names health and no risk, medium otherwise; in the first
    case a second alert of high severity, HIGH_RISK_IDENTIFIED, follows,
    whose text is the first 200 characters of the answer and an ellipsis. *)
Theorem text_answer_alerts (text : string) (farmInfo : Alerts.FarmInfo) :
  let risk := Vision.hasRiskIndicators toLowerCase text in
  let healthy := Vision.hasHealthyIndicators toLowerCase text in
  let analysis := Vision._createStructuredAnalysis toLowerCase substring text in
  let alerts := Alerts._processClaudeAlerts toLowerCase now (Some analysis) farmInfo in
  exists observation overall,
    alerts = observation :: (if risk && negb healthy then [overall] else [])
    /\ Alerts.type observation = "general_observation"
    /\ Alerts.severity observation
       = (if risk && negb healthy then high_sev
          else if healthy && negb risk then low_sev else medium_sev)
    /\ Alerts.message observation = substring text 0 150
    /\ Alerts.recommendation observation = Some general_advice
    /\ Alerts.type overall = "HIGH_RISK_IDENTIFIED"
    /\ Alerts.severity overall = high_sev
    /\ Alerts.message overall = substring text 0 200 +:+ "...".
Proof.
  intros risk healthy analysis alerts.
  exists (Alerts.finding_alert toLowerCase now analysis farmInfo
            {| Alerts.f_type := Some "general_observation";
               Alerts.f_description := substring text 0 150;
               Alerts.f_severity := Vision.riskLevel toLowerCase text |}),
         (Alerts.high_risk_alert now analysis farmInfo).
  subst alerts analysis. unfold Alerts._processClaudeAlerts. simpl.
  unfold Vision.riskLevel. fold risk healthy.
  split; [| split; [| split; [| split; [| split; [| split; [| split]]]]]].
  - destruct risk, healthy; reflexivity.
  - reflexivity.
  - destruct risk, healthy; reflexivity.
  - reflexivity.
  - unfold Alerts._extractRecommendationForFinding. cbv zeta. simpl.
    destruct (_ || _); reflexivity.
  - reflexivity.
  - reflexivity.
  - unfold Alerts.or_else, Alerts.truthy.
    pose proof (append_not_empty (substring text 0 200)) as Hne.
    destruct (substring text 0 200 +:+ "..."); [congruence | reflexivity].
Qed.

End TextAnswer.

(** ** Alerts: prioritising twice *)

Lemma filter_unseen_fresh (seen : gset string) (l : list Alerts.Alert) :
  NoDup (map Alerts.dedup_key l) ->
  (forall a, a ∈ l -> Alerts.dedup_key a ∉ seen) ->
  Alerts.filter_unseen seen l = l.
Proof.
  revert seen. induction l as [| a l IH]; intros seen Hnd Hfresh; simpl; [reflexivity |].
  simpl in Hnd. apply NoDup_cons in Hnd as [Ha Hl].
  destruct (decide (Alerts.dedup_key a ∈ seen)) as [Hin | _].
  - exfalso. exact (Hfresh a (list_elem_of_here _ _) Hin).
  - f_equal. apply IH; [exact Hl |].
    intros b Hb Hin. apply elem_of_union in Hin as [Hin | Hin].
    + apply elem_of_singleton in Hin. apply Ha. rewrite <- Hin.
      apply list_elem_of_fmap. exists b. split; [reflexivity | exact Hb].
    + exact (Hfresh b (list_elem_of_further _ _ _ Hb) Hin).
Qed.

Lemma Array_sort_of_sorted {A : Type} (rank : A -> Z) (l : list A) :
  StronglySorted (descending rank) l ->
  Alerts.Array_sort (by_rank_descending rank) l = l.
Proof.
  induction 1 as [| x l Hl IH Hx]; [reflexivity |].
  change (Alerts.Array_sort (by_rank_descending rank) (x :: l))
    with (Alerts.sort_insert (by_rank_descending rank) x
            (Alerts.Array_sort (by_rank_descending rank) l)).
  rewrite IH.
  destruct l as [| y l']; simpl; [reflexivity |].
  apply Forall_cons in Hx as [Hy _].
  unfold descending in Hy. unfold by_rank_descending.
  destruct (Z.leb_spec (rank y - rank x) 0); [reflexivity | lia].
Qed.

(** X17.  Prioritising is idempotent: a prioritised list has one alert per
    key and is in descending order of severity, so prioritising it again
    changes nothing. *)
Theorem _prioritizeAlerts_idempotent (alerts : list Alerts.Alert) :
  Alerts._prioritizeAlerts (Alerts._prioritizeAlerts alerts)
  = Alerts._prioritizeAlerts alerts.
Proof.
  set (kept := Alerts._prioritizeAlerts alerts).
  assert (Hperm : kept ≡ₚ Alerts._removeDuplicateAlerts alerts)
    by apply (Array_sort_perm alert_rank).
  assert (Hsorted : StronglySorted (descending alert_rank) kept)
    by apply (Array_sort_sorted alert_rank).
  assert (Hnd : NoDup (map Alerts.dedup_key kept)).
  { rewrite Hperm. apply filter_unseen_NoDup. }
  unfold Alerts._prioritizeAlerts at 1. cbv zeta.
  unfold Alerts._removeDuplicateAlerts.
  rewrite (filter_unseen_fresh ∅ kept Hnd) by (intros a _; apply not_elem_of_empty).
  apply (Array_sort_of_sorted alert_rank), Hsorted.
Qed.

(** ** The latest image *)

(** X8.  [getLatestImage] passes on a failure of the search, answers null
    for an empty search result, and otherwise answers with an image of the
    result that no image of the result is newer than: among the images
    taken at that time, the first of the search result. *)
Theorem getLatestImage_is_newest :
  (forall e, Sentinel2.getLatestImage (Throw e) = Throw e)
  /\ Sentinel2.getLatestImage (Return []) = Return None
  /\ forall images, images <> [] ->
       exists latest,
         Sentinel2.getLatestImage (Return images) = Return (Some latest)
         /\ latest ∈ images
         /\ (forall image, image ∈ images ->
               (Sentinel2.sensingDate image <= Sentinel2.sensingDate latest)%Z)
         /\ head (filter (fun image => Sentinel2.sensingDate image
                                       = Sentinel2.sensingDate latest) images)
            = Some latest.
Proof.
  split; [reflexivity |]. split; [reflexivity |].
  intros images Hne. unfold Sentinel2.getLatestImage.
  destruct images as [| x l] eqn:E; [congruence |].
  change (length (x :: l) =? 0)%nat with false. cbv iota zeta.
  rewrite <- E.
  pose proof (Array_sort_perm Sentinel2.sensingDate images) as Hperm.
  pose proof (Array_sort_sorted Sentinel2.sensingDate images) as Hsorted.
  unfold by_rank_descending in Hperm, Hsorted.
  destruct (Alerts.Array_sort
              (fun a b => (Sentinel2.sensingDate b - Sentinel2.sensingDate a)%Z) images)
    as [| latest rest] eqn:Hsort.
  { apply Permutation_nil_l in Hperm. congruence. }
  exists latest. split; [reflexivity |].
  split; [rewrite <- Hperm; apply list_elem_of_here |].
  split.
  - intros image Hin. rewrite <- Hperm in Hin.
    apply StronglySorted_inv in Hsorted as [_ Hall].
    apply elem_of_cons in Hin as [-> | Hin]; [lia |].
    rewrite Forall_forall in Hall. apply (Hall image Hin).
  - pose proof (Array_sort_rank Sentinel2.sensingDate
                  (Sentinel2.sensingDate latest) images) as Hrank.
    unfold by_rank_descending in Hrank. rewrite Hsort in Hrank.
    rewrite <- Hrank, filter_cons.
    destruct (decide (Sentinel2.sensingDate latest = Sentinel2.sensingDate latest));
      [reflexivity | congruence].
Qed.

Lemma getLatestImage_is_newest_witness :
  sample_images <> []
  /\ exists latest,
       Sentinel2.getLatestImage (Return sample_images) = Return (Some latest)
       /\ latest ∈ sample_images.
Proof.
  assert (H : sample_images <> []) by discriminate.
  split; [exact H |].
  destruct (proj2 (proj2 getLatestImage_is_newest) sample_images H)
    as (latest & Heq & Hin & _).
  exists latest. split; assumption.
Defined.

Local Open Scope Q_scope.

(** ** The colour image *)



Lemma colour_in_palette (value : number) : NDVIImage.colour value ∈ palette.
Proof.
  unfold NDVIImage.colour, palette. cbv zeta.
  repeat match goal with
         | |- context [if ?c then _ else _] => destruct c
         end;
    repeat first [apply list_elem_of_here | apply list_elem_of_further].
Qed.

Lemma _applyNDVIColorPalette_flat (ndviData : list number) :
  NDVIImage._applyNDVIColorPalette ndviData
  = flat_map (fun value => channels (NDVIImage.colour value)) ndviData.
Proof.
  unfold NDVIImage._applyNDVIColorPalette.
  assert (H : forall acc,
             foldl (fun colorizedData value =>
                      let '(r, g, b) := NDVIImage.colour value in
                      colorizedData ++ [r; g; b]) acc ndviData
             = acc ++ flat_map (fun value => channels (NDVIImage.colour value)) ndviData).
  { induction ndviData as [| x l IH]; intros acc; simpl.
    - rewrite app_nil_r. reflexivity.
    - rewrite IH. destruct (NDVIImage.colour x) as [[r g] b]. simpl.
      rewrite <- app_assoc. reflexivity. }
  apply (H []).
Qed.

Lemma flat_map_channels_lookup (cs : list (Z * Z * Z)) (i : nat) (r g b : Z) :
  cs !! i = Some (r, g, b) ->
  let out := flat_map channels cs in
  out !! (3 * i)%nat = Some r /\ out !! (3 * i + 1)%nat = Some g
  /\ out !! (3 * i + 2)%nat = Some b.
Proof.
  revert i. induction cs as [| [[r' g'] b'] cs IH]; intros i Hi; [inversion Hi |].
  destruct i as [| i]; simpl in *.
  - injection Hi as -> -> ->. auto.
  - replace (i + S (i + S (i + 0)))%nat with (S (S (3 * i)))%nat by lia.
    simpl. apply IH in Hi. exact Hi.
Qed.

(** X15.  The pixel buffer of the colour image holds one triple per value, in
    the order of the values: three channel values in 0..255 that form one
    of the five colours of the palette (blue, brown, yellow, light green,
    dark green); a value that is not a number is painted dark green. *)
Theorem palette_gives_rgb_triples (ndviData : list number) :
  let out := NDVIImage._applyNDVIColorPalette ndviData in
  length out = (3 * length ndviData)%nat
  /\ Forall (fun c => (0 <= c <= 255)%Z) out
  /\ (forall i value, ndviData !! i = Some value ->
      exists r g b,
        NDVIImage.colour value = (r, g, b) /\ (r, g, b) ∈ palette
        /\ out !! (3 * i)%nat = Some r /\ out !! (3 * i + 1)%nat = Some g
        /\ out !! (3 * i + 2)%nat = Some b)
  /\ NDVIImage.colour NaN = dark_green.
Proof.
  intros out. subst out. rewrite _applyNDVIColorPalette_flat.
  split; [| split; [| split]].
  - induction ndviData as [| x l IH]; simpl; [reflexivity |].
    rewrite length_app, IH. destruct (NDVIImage.colour x) as [[r g] b]. simpl. lia.
  - induction ndviData as [| x l IH]; simpl; [constructor |].
    apply Forall_app. split; [| exact IH].
    pose proof (colour_in_palette x) as Hc. unfold palette in Hc.
    repeat (apply elem_of_cons in Hc as [Hc | Hc];
            [rewrite Hc; repeat constructor; lia |]).
    inversion Hc.
  - intros i value Hi.
    destruct (NDVIImage.colour value) as [[r g] b] eqn:Hc.
    exists r, g, b. split; [reflexivity |].
    split; [rewrite <- Hc; apply colour_in_palette |].
    assert (E : flat_map (fun value => channels (NDVIImage.colour value)) ndviData
                = flat_map channels (map NDVIImage.colour ndviData)).
    { clear. induction ndviData as [| x l IH]; simpl; [reflexivity |].
      rewrite IH. reflexivity. }
    rewrite E. apply flat_map_channels_lookup.
    rewrite list_lookup_fmap, Hi. simpl. rewrite Hc. reflexivity.
  - reflexivity.
Qed.

Lemma palette_gives_rgb_triples_witness :
  [Fin 0; NaN] !! 1%nat = Some NaN
  /\ exists r g b, NDVIImage.colour NaN = (r, g, b) /\ (r, g, b) ∈ palette.
Proof.
  assert (H : [Fin 0; NaN] !! 1%nat = Some NaN) by reflexivity.
  split; [exact H |].
  destruct (proj1 (proj2 (proj2 (palette_gives_rgb_triples [Fin 0; NaN]))) 1%nat NaN H)
    as (r & g & b & Hc & Hp & _).
  exists r, g, b. split; assumption.
Defined.



Lemma result_data_are_grey_levels_witness :
  exists res,
    NDVI64.calculateNDVI no_text binary64_service sample_argument_limit 0%Z
      grey_alpha_nir grey_red = Return res
    /\ length (NDVI.ndviData res) = 2%nat
    /\ (exists k, NDVI.ndviData res !! 0%nat = Some (Fin (inject_Z k))
                  /\ (0 <= k <= 255)%Z)
    /\ NDVI.ndviData res !! 1%nat = Some NaN.
Proof.
  assert (Hres : NDVI64.calculateNDVI no_text binary64_service sample_argument_limit 0%Z
                   grey_alpha_nir grey_red = Return _) by (vm_compute; reflexivity).
  eexists. split; [exact Hres |].
  destruct (result_data_are_grey_levels no_text binary64_service sample_argument_limit
              0%Z grey_alpha_nir grey_red _ Hres) as (Hlen & Hlevels).
  split; [exact Hlen |]. split.
  - destruct (Hlevels 0%nat x80 eq_refl) as (k & Hk & Hrange & _).
    exists k. split; assumption.
  - exact (Hlevels 1%nat xff eq_refl).
Defined.

(** ** The simulated analysis *)

Lemma round_unit (q : Q) :
  -2 <= q <= 2 ->
  exists v, Double.round q = Fin v /\ - ulp2 <= v - q <= ulp2
            /\ (0 <= q -> 0 <= v) /\ (q <= 0 -> v <= 0).
Proof.
  intros Hq. destruct (round_small q 2) as (v & Hv & Herr & Hs); [lra | lra |].
  exists v. split; [exact Hv |]. split; [| exact Hs].
  pose proof u_value as Hu. pose proof eta_bounds as He. unfold ulp2. lra.
Qed.

Section MockFacts.

Variable toLowerCase : string -> string.
Variable Number_toString : number -> string.

Lemma literal_unit (q : Q) :
  -2 <= q <= 2 -> exists v, Double.literal q = Fin v /\ - ulp2 <= v - q <= ulp2.
Proof.
  intros Hq. destruct (round_unit q Hq) as (v & Hv & Herr & _).
  exists v. split; [exact Hv | exact Herr].
Qed.

Lemma _getBaseNDVIForCrop_range (crop_type : option string) :
  match Mock._getBaseNDVIForCrop toLowerCase crop_type with
  | Mock.Own b => exists q, b = Fin q /\ (5 # 10) - ulp2 <= q <= (8 # 10) + ulp2
  | Mock.Inherited => True
  | Mock.Undefined => False
  end.
Proof.
  unfold Mock._getBaseNDVIForCrop, Mock.baseValues.
  destruct crop_type as [c |];
    repeat match goal with
           | |- context [if ?c then _ else _] => destruct c
           end;
    try exact I;
    match goal with
    | |- exists q, Double.literal ?c = Fin q /\ _ =>
        destruct (literal_unit c) as (v & -> & Hv); [split; lra |];
        exists v; split; [reflexivity | unfold ulp2 in *; lra]
    end.
Qed.

Lemma _getSeasonalVariation_range (month : nat) :
  exists s, Mock._getSeasonalVariation month = Fin s
            /\ - (1 # 10) - ulp2 <= s <= (1 # 10) + ulp2.
Proof.
  unfold Mock._getSeasonalVariation.
  destruct (literal_unit (1 # 10)) as (v & -> & Hv); [split; lra |].
  destruct (_ && _); eexists; (split; [reflexivity |]); simpl; lra.
Qed.

Lemma clamp_inside (x : Q) :
  0 < x < 1 -> JS.Math_max [Fin 0; JS.Math_min [Fin 1; Fin x]] = Fin x.
Proof.
  intros [H0 H1]. unfold JS.Math_max, JS.Math_min. simpl.
  assert (E1 : Qle_bool 1 x = false) by (Qbool; exact H1).
  rewrite E1. simpl.
  assert (E0 : Qle_bool x 0 = false) by (Qbool; exact H0).
  rewrite E0. reflexivity.
Qed.

Lemma add_Fin_unit (a b : Q) :
  -2 <= a + b <= 2 ->
  exists v, Double.add (Fin a) (Fin b) = Fin v /\ - ulp2 <= v - (a + b) <= ulp2
            /\ (0 <= a + b -> 0 <= v).
Proof.
  intros H. destruct (round_unit (a + b) H) as (v & Hv & Herr & Hs & _).
  exists v. split; [exact Hv |]. split; [exact Herr | exact Hs].
Qed.

Lemma sub_Fin_unit (a b : Q) :
  -2 <= a - b <= 2 ->
  exists v, Double.sub (Fin a) (Fin b) = Fin v /\ - ulp2 <= v - (a - b) <= ulp2.
Proof.
  intros H. destruct (round_unit (a + - b)) as (v & Hv & Herr & _); [lra |].
  exists v. split; [exact Hv | lra].
Qed.

Lemma mul_Fin_unit (a b : Q) :
  -2 <= a * b <= 2 ->
  exists v, Double.mul (Fin a) (Fin b) = Fin v /\ - ulp2 <= v - a * b <= ulp2
            /\ (0 <= a * b -> 0 <= v).
Proof.
  intros H. destruct (round_unit (a * b) H) as (v & Hv & Herr & Hs & _).
  exists v. split; [exact Hv |]. split; [exact Herr | exact Hs].
Qed.

(** A draw of [Math.random()] times the literal 0.1. *)
Lemma tenth_of (r c : Q) :
  -1 <= r <= 1 -> (1 # 10) - ulp2 <= c <= (1 # 10) + ulp2 ->
  - (1 # 9) <= r * c <= 1 # 9
  /\ (0 <= r -> 0 <= r * c)
  /\ (- (1 # 2) - ulp2 <= r <= (1 # 2) + ulp2 -> - (50001 # 1000000) <= r * c <= 50001 # 1000000).
Proof.
  intros Hr Hc. unfold ulp2 in *.
  assert (H1 : 0 <= (r + 1) * c) by (apply Qmult_le_0_compat; lra).
  assert (H2 : 0 <= (1 - r) * c) by (apply Qmult_le_0_compat; lra).
  assert (E1 : (r + 1) * c == r * c + c) by ring.
  assert (E2 : (1 - r) * c == c - r * c) by ring.
  rewrite E1 in H1. rewrite E2 in H2.
  split; [lra |]. split.
  - intros H0. apply Qmult_le_0_compat; lra.
  - intros Hh.
    assert (H3 : 0 <= (r + (1 # 2) + (1 # 1000000000000000)) * c)
      by (apply Qmult_le_0_compat; lra).
    assert (H4 : 0 <= ((1 # 2) + (1 # 1000000000000000) - r) * c)
      by (apply Qmult_le_0_compat; lra).
    assert (E3 : (r + (1 # 2) + (1 # 1000000000000000)) * c
                 == r * c + ((1 # 2) + (1 # 1000000000000000)) * c) by ring.
    assert (E4 : ((1 # 2) + (1 # 1000000000000000) - r) * c
                 == ((1 # 2) + (1 # 1000000000000000)) * c - r * c) by ring.
    rewrite E3 in H3. rewrite E4 in H4. lra.
Qed.

Lemma mock_average_range (crop_type : option string) (month : nat) (random : Q) :
  0 <= random < 1 ->
  match Mock._getBaseNDVIForCrop toLowerCase crop_type with
  | Mock.Own _ =>
      exists avg, Mock.mock_average toLowerCase crop_type month (Fin random) = Fin avg
                  /\ 3499 # 10000 <= avg <= 9501 # 10000
  | _ => Mock.mock_average toLowerCase crop_type month (Fin random) = NaN
  end.
Proof.
  intros Hr. unfold Mock.mock_average. cbv zeta.
  pose proof (_getBaseNDVIForCrop_range crop_type) as Hb.
  destruct (Mock._getBaseNDVIForCrop toLowerCase crop_type) as [b | |];
    [| reflexivity | reflexivity].
  destruct Hb as (bq & -> & Hb).
  destruct (_getSeasonalVariation_range month) as (s & -> & Hs).
  destruct (literal_unit (1 # 10)) as (c & -> & Hc); [split; lra |].
  destruct (sub_Fin_unit random (1 # 2)) as (d & -> & Hd); [lra |].
  unfold ulp2 in *.
  destruct (tenth_of d c) as (Hp & _ & Hp'); [lra | unfold ulp2; lra |].
  specialize (Hp' ltac:(unfold ulp2; lra)).
  destruct (mul_Fin_unit d c) as (rv & -> & Hrv & _); [lra |].
  destruct (add_Fin_unit bq s) as (t1 & -> & Ht1 & _); [lra |].
  destruct (add_Fin_unit t1 rv) as (t2 & -> & Ht2 & _); [unfold ulp2 in *; lra |].
  unfold ulp2 in *.
  rewrite clamp_inside by lra.
  eexists. split; [reflexivity | lra].
Qed.


Lemma Math_max_positive (x : Q) : 0 < x -> JS.Math_max [Fin 0; Fin x] = Fin x.
Proof.
  intros H. unfold JS.Math_max. simpl.
  assert (E : Qle_bool x 0 = false) by (Qbool; exact H).
  rewrite E. reflexivity.
Qed.

Lemma Math_min_one (x : Q) :
  exists m, JS.Math_min [Fin 1; Fin x] = Fin m /\ m <= 1 /\ (m == x \/ m == 1 /\ 1 <= x).
Proof.
  unfold JS.Math_min. simpl.
  destruct (Qle_bool 1 x) eqn:E; simpl; Qbool.
  - exists 1. split; [reflexivity |]. split; [lra |]. right. split; [reflexivity | exact E].
  - exists x. split; [reflexivity |]. split; [lra |]. left. reflexivity.
Qed.

Lemma ltb_NaN_l (x : number) : (NaN <? x)%js = false.
Proof. reflexivity. Qed.

Lemma ltb_NaN_r (x : number) : (x <? NaN)%js = false.
Proof. destruct x as [| [] |]; reflexivity. Qed.

Lemma _generateNDVIAlerts_NaN : Mock._generateNDVIAlerts Number_toString NaN = [].
Proof.
  unfold Mock._generateNDVIAlerts, JS.gtb. rewrite !ltb_NaN_l, ltb_NaN_r. reflexivity.
Qed.

(** X7.  With draws of [Math.random()] in [0,1), the simulated analysis
    never raises the high-severity LOW_VEGETATION_INDEX alert, whatever the
    crop type and the month: it gives at most one alert, none of high
    severity, its bare-soil zone is always 200 pixels, 4 percent, and its
    deviation lies between 0.0999 and 0.2001.  For a crop type whose
    lower-cased name is not a member inherited from [Object.prototype],
    the mean is a double in [0.3499, 0.9501]; the statistics are ordered,
    [0 < min <= mean <= max <= 1], the average is the mean rounded to three
    decimals, and the alert is MODERATE_STRESS for a mean below 0.5,
    HEALTHY_VEGETATION for a mean above the double of 0.7, and none in
    between.  For an inherited name ('constructor', '__proto__') the mean
    and the average are NaN and there is no alert. *)
Theorem mock_analysis_is_never_critical (now : Date) (month : nat)
  (random1 random2 : Q) (crop_type : option string) :
  0 <= random1 < 1 -> 0 <= random2 < 1 ->
  let analysis :=
    Mock._generateMockNDVIAnalysis toLowerCase Number_toString now month
      (Fin random1) (Fin random2) crop_type in
  Forall (fun a => NDVI.severity a <> high_sev) (Mock.alerts analysis)
  /\ (length (Mock.alerts analysis) <= 1)%nat
  /\ Mock.bare_soil (Mock.zones analysis)
     = {| Mock.count := Fin 200; Mock.percentage := Fin 4 |}
  /\ (exists sd, NDVI.std (Mock.statistics analysis) = Fin sd
                 /\ 999 # 10000 <= sd <= 2001 # 10000)
  /\ match Mock._getBaseNDVIForCrop toLowerCase crop_type with
     | Mock.Own _ =>
         exists avg mn mx,
           Mock.mock_average toLowerCase crop_type month (Fin random1) = Fin avg
           /\ 3499 # 10000 <= avg <= 9501 # 10000
           /\ NDVI.average (Mock.statistics analysis)
              = Double.decimal 3 (Double.digits 3 avg)
           /\ Qabs (inject_Z (Double.digits 3 avg) - 1000 * avg) <= 1 # 2
           /\ NDVI.min (Mock.statistics analysis) = Fin mn
           /\ NDVI.max (Mock.statistics analysis) = Fin mx
           /\ 0 < mn /\ mn <= avg <= mx /\ mx <= 1
           /\ map NDVI.type (Mock.alerts analysis)
              = (if (Fin avg <? Double.literal (5 # 10))%js then ["MODERATE_STRESS"]
                 else if (Fin avg >? Double.literal (7 # 10))%js
                      then ["HEALTHY_VEGETATION"] else [])
     | _ =>
         Mock.mock_average toLowerCase crop_type month (Fin random1) = NaN
         /\ NDVI.average (Mock.statistics analysis) = NaN
         /\ Mock.alerts analysis = []
     end.
Proof.
  intros Hr1 Hr2 analysis. subst analysis.
  unfold Mock._generateMockNDVIAnalysis. cbv zeta.
  cbn [Mock.alerts Mock.zones Mock.statistics NDVI.std NDVI.average NDVI.min NDVI.max
       Mock.bare_soil Mock._generateMockZones].
  (* the deviation *)
  assert (Hsd : exists sd,
             Double.add (Double.literal (1 # 10))
                        (Double.mul (Fin random2) (Double.literal (1 # 10))) = Fin sd
             /\ 999 # 10000 <= sd <= 2001 # 10000).
  { destruct (literal_unit (1 # 10)) as (c & -> & Hc); [split; lra |].
    unfold ulp2 in *.
    destruct (tenth_of random2 c) as (Hp & Hp0 & _); [lra | unfold ulp2; lra |].
    specialize (Hp0 ltac:(lra)).
    destruct (mul_Fin_unit random2 c) as (p & -> & Hperr & Hp1); [lra |].
    specialize (Hp1 Hp0). unfold ulp2 in *.
    assert (Hup : random2 * c <= c).
    { assert (H : 0 <= (1 - random2) * c) by (apply Qmult_le_0_compat; lra).
      assert (E : (1 - random2) * c == c - random2 * c) by ring.
      rewrite E in H. lra. }
    destruct (add_Fin_unit c p) as (sd & -> & Hsd & _); [lra |].
    unfold ulp2 in *. exists sd. split; [reflexivity | lra]. }
  (* the literals of the comparisons *)
  destruct (literal_unit (3 # 10)) as (c3 & E3 & Hc3); [split; lra |].
  pose proof (mock_average_range crop_type month random1 Hr1) as Havg.
  destruct (Mock._getBaseNDVIForCrop toLowerCase crop_type) as [b | |].
  - destruct Havg as (avg & -> & Hrange).
    unfold Mock._generateNDVIAlerts.
    rewrite E3. unfold ulp2 in *.
    assert (Elow : (Fin avg <? Fin c3)%js = false).
    { simpl. apply negb_false_iff. Qbool. lra. }
    rewrite Elow.
    split.
    { destruct (Fin avg <? Double.literal (5 # 10))%js;
        [| destruct (Fin avg >? Double.literal (7 # 10))%js];
        repeat constructor; discriminate. }
    split.
    { destruct (Fin avg <? Double.literal (5 # 10))%js;
        [| destruct (Fin avg >? Double.literal (7 # 10))%js]; cbn [length]; lia. }
    split; [reflexivity |]. split; [exact Hsd |].
    destruct (sub_Fin_unit avg c3) as (mn & Emn & Hmn); [lra |].
    destruct (literal_unit (2 # 10)) as (c2 & E2 & Hc2); [split; lra |].
    destruct (add_Fin_unit avg c2) as (mx' & Emx & Hmx & _); [unfold ulp2 in *; lra |].
    rewrite Emn, E2, Emx.
    unfold ulp2 in *.
    rewrite Math_max_positive by lra.
    destruct (Math_min_one mx') as (mx & -> & Hmx1 & Hmx2).
    exists avg, mn, mx.
    split; [reflexivity |]. split; [exact Hrange |].
    split.
    { apply toFixed_decimal. apply Qle_lt_trans with 1; [| reflexivity].
      apply Qabs_Qle_condition. split; lra. }
    split.
    { pose proof (digits_error 3 avg) as E.
      change (inject_Z (JS.pow10 3)) with 1000 in E.
      apply Qabs_Qle_condition. split; lra. }
    split; [reflexivity |]. split; [reflexivity |].
    split; [lra |]. split; [destruct Hmx2 as [H | [H _]]; lra |].
    split; [exact Hmx1 |].
    destruct (Fin avg <? Double.literal (5 # 10))%js;
      [| destruct (Fin avg >? Double.literal (7 # 10))%js]; reflexivity.
  - rewrite Havg, _generateNDVIAlerts_NaN, ltb_NaN_l.
    split; [constructor |]. split; [cbn [length]; lia |].
    split; [reflexivity |]. split; [exact Hsd |]. auto.
  - rewrite Havg, _generateNDVIAlerts_NaN, ltb_NaN_l.
    split; [constructor |]. split; [cbn [length]; lia |].
    split; [reflexivity |]. split; [exact Hsd |]. auto.
Qed.

End MockFacts.

Lemma mock_analysis_is_never_critical_witness :
  0 <= 1 # 2 < 1 /\ 0 <= 3 # 4 < 1
  /\ Forall (fun a => NDVI.severity a <> high_sev)
       (Mock.alerts
          (Mock._generateMockNDVIAnalysis (fun s => s) no_text 0%Z 5
             (Fin (1 # 2)) (Fin (3 # 4)) (Some "cafe")))
  /\ map NDVI.type
       (Mock.alerts
          (Mock._generateMockNDVIAnalysis (fun s => s) no_text 0%Z 5
             (Fin (1 # 2)) (Fin (3 # 4)) (Some "cafe")))
     = ["HEALTHY_VEGETATION"].
Proof.
  assert (H1 : 0 <= 1 # 2 < 1) by (split; lra).
  assert (H2 : 0 <= 3 # 4 < 1) by (split; lra).
  split; [exact H1 |]. split; [exact H2 |].
  destruct (mock_analysis_is_never_critical (fun s => s) no_text 0%Z 5 (1 # 2) (3 # 4)
              (Some "cafe") H1 H2) as (Hsev & _).
  split; [exact Hsev | vm_compute; reflexivity].
Defined.

(** ** Statistics: the extremes *)



Local Close Scope Q_scope.
